(** * OpenHamClock rig bridge: a shallow embedding and its properties

The development follows the layout of the bridge:
- [JS]        the JavaScript values and primitives the bridge relies on;
- [State]     core/state.js, the shared rig state store;
- [Kenwood]   plugins/usb/protocol-kenwood.js, the Kenwood CAT parser;
- [Yaesu]     plugins/usb/protocol-yaesu.js, the Yaesu CAT parser;
- [Icom]      plugins/usb/protocol-icom.js, the CI-V reframer and BCD codec;
- [Registry]  core/plugin-registry.js, plugin switching and dispatch;
- [Flrig], [Mock]  plugins/flrig.js and plugins/mock.js;
- [Config]    core/config.js, the settings and their file;
- [Server]    core/server.js, the routes;
- [Relay]     plugins/wsjtx-relay.js, the WSJT-X reader and the relay queue.

The code comes first, then the vocabulary of the properties, then the
properties: the state store, the BCD codec, the CI-V reframer, the ASCII
parsers, the registry, disconnecting, and dispatch with the PTT gate; and
then further properties: commands written and read back, CI-V frames on
the wire, the state store over many updates, the settings and their file,
the routes, the simulated radio, the answers of flrig, the relay queue
and the WSJT-X reader.

JavaScript numbers are modelled as integers of [Z] plus a separate NaN:
every number the modelled code computes with is an integer, and the two
agree below 2^53.  Object literals are modelled as the maps of their own
properties.  Where the code indexes one with a name it is given, what the
object inherits from [Object.prototype] counts as well: [dispatch] finds
the inherited functions, and the properties of the state store that range
over every field name leave the inherited names out. *)

From Stdlib Require Import ZArith List String Ascii Bool Lia.
From stdpp Require Import base option list gmap strings.
From Equations Require Import Equations.
Import ListNotations.

Local Open Scope string_scope.

(* ===================================================================== *)
(** ** JavaScript values *)
(* ===================================================================== *)

Module JS.

Inductive Value : Type :=
| VUndef
| VNull
| VBool (b : bool)
| VNum (z : Z)
| VNaN
| VStr (s : string).

#[export] Instance Value_eq_dec : EqDecision Value.
Proof. solve_decision. Defined.

(** [a === b] on primitives: NaN is different from everything, itself
    included. *)
Definition strict_eq (a b : Value) : bool :=
  match a, b with
  | VNaN, _ | _, VNaN => false
  | _, _ => bool_decide (a = b)
  end.

(** ToBoolean. *)
Definition truthy (v : Value) : bool :=
  match v with
  | VUndef | VNull | VNaN => false
  | VBool b => b
  | VNum z => negb (z =? 0)%Z
  | VStr s => negb (s =? "")
  end.

(** [a || b]. *)
Definition js_or (a b : Value) : Value := if truthy a then a else b.

(** [v > 0] for the result of a number conversion; a comparison with NaN
    is false. *)
Definition gt0 (v : Value) : bool :=
  match v with
  | VNum z => (0 <? z)%Z
  | _ => false
  end.

(** [s.substring(a, b)]: the arguments are clamped to the length and
    swapped when [a > b]. *)
Definition substring (a b : nat) (s : string) : string :=
  String.substring (Nat.min a b) (Nat.max a b - Nat.min a b) s.

(** [s.substring(a)]. *)
Definition substring_from (a : nat) (s : string) : string :=
  String.substring a (String.length s - a) s.

(** [s.charAt(i)]: a one-character string, or the empty string out of
    range. *)
Definition charAt (i : nat) (s : string) : string :=
  match String.get i s with
  | Some c => String c EmptyString
  | None => EmptyString
  end.

Definition is_digit (c : ascii) : bool :=
  let n := nat_of_ascii c in (48 <=? n)%nat && (n <=? 57)%nat.

Definition digit_val (c : ascii) : Z := Z.of_nat (nat_of_ascii c) - 48.

(** White space skipped by parseInt (code units below 256). *)
Definition is_space (c : ascii) : bool :=
  let n := nat_of_ascii c in
  (n =? 9)%nat || (n =? 10)%nat || (n =? 11)%nat || (n =? 12)%nat
  || (n =? 13)%nat || (n =? 32)%nat || (n =? 160)%nat.

Fixpoint skip_space (s : string) : string :=
  match s with
  | String c s' => if is_space c then skip_space s' else s
  | EmptyString => s
  end.

(** The longest prefix of decimal digits, accumulated left to right;
    [None] when there is no digit at all. *)
Fixpoint digits (acc : option Z) (s : string) : option Z :=
  match s with
  | String c s' =>
      if is_digit c
      then digits (Some (10 * default 0%Z acc + digit_val c)%Z) s'
      else acc
  | EmptyString => acc
  end.

(** [parseInt(s, 10)]. *)
Definition parseInt (s : string) : Value :=
  let s1 := skip_space s in
  let '(neg, s2) :=
    match s1 with
    | String "-" r => (true, r)
    | String "+" r => (false, r)
    | _ => (false, s1)
    end in
  match digits None s2 with
  | Some n => VNum (if neg then - n else n)%Z
  | None => VNaN
  end.

(** How a call ends: with a value, or with an exception thrown. *)
Inductive Outcome (A : Type) : Type :=
| Returned (a : A)
| Thrown (e : string).
Arguments Returned {A} a.
Arguments Thrown {A} e.

(** The property names every object literal inherits from
    [Object.prototype]: eleven functions and the accessor [__proto__]. *)
Definition OBJECT_PROTOTYPE : list string :=
  [ "constructor"; "hasOwnProperty"; "isPrototypeOf"; "propertyIsEnumerable";
    "toLocaleString"; "toString"; "valueOf";
    "__defineGetter__"; "__defineSetter__"; "__lookupGetter__"; "__lookupSetter__";
    "__proto__" ].

(** Whether [obj[name]] finds something inherited when the object literal
    [obj] has no property [name] of its own. *)
Definition inherited (name : string) : bool :=
  existsb (String.eqb name) OBJECT_PROTOTYPE.

(** [table[key]] for an object literal whose values are strings. *)
Fixpoint obj_get (table : list (string * string)) (key : string) : Value :=
  match table with
  | [] => VUndef
  | (k, v) :: rest => if k =? key then VStr v else obj_get rest key
  end.

(** The character of a decimal digit. *)
Definition digit_char (d : Z) : ascii := ascii_of_nat (48 + Z.to_nat d).

(** The decimal digits of a non-negative integer in front of [acc], most
    significant first; [fuel] bounds their number. *)
Fixpoint digits_of (fuel : nat) (z : Z) (acc : string) : string :=
  match fuel with
  | O => acc
  | S fuel' =>
      let acc' := String (digit_char (z mod 10)) acc in
      if (z <? 10)%Z then acc' else digits_of fuel' (z / 10) acc'
  end.

(** [String(z)] for an integer [z] (below 10^21 in absolute value, where
    JavaScript turns to the exponent notation).  A number has no more
    decimal digits than binary ones. *)
Definition number_to_string (z : Z) : string :=
  if (z <? 0)%Z
  then String "-" (digits_of (S (Z.to_nat (Z.log2 (- z)))) (- z) EmptyString)
  else digits_of (S (Z.to_nat (Z.log2 z))) z EmptyString.

Fixpoint repeat_char (n : nat) (c : ascii) : string :=
  match n with
  | O => EmptyString
  | S n' => String c (repeat_char n' c)
  end.

(** [s.padStart(n, c)] for a one-character filler. *)
Definition padStart (n : nat) (c : ascii) (s : string) : string :=
  repeat_char (n - String.length s) c ++ s.

(** [String(v)]. *)
Definition to_string (v : Value) : string :=
  match v with
  | VUndef => "undefined"
  | VNull => "null"
  | VBool true => "true"
  | VBool false => "false"
  | VNum z => number_to_string z
  | VNaN => "NaN"
  | VStr s => s
  end.

Definition hex_val (c : ascii) : option Z :=
  let n := nat_of_ascii c in
  if (48 <=? n)%nat && (n <=? 57)%nat then Some (Z.of_nat n - 48)%Z
  else if (65 <=? n)%nat && (n <=? 70)%nat then Some (Z.of_nat n - 55)%Z
  else if (97 <=? n)%nat && (n <=? 102)%nat then Some (Z.of_nat n - 87)%Z
  else None.

Fixpoint hex_digits (acc : option Z) (s : string) : option Z :=
  match s with
  | String c s' =>
      match hex_val c with
      | Some d => hex_digits (Some (16 * default 0%Z acc + d)%Z) s'
      | None => acc
      end
  | EmptyString => acc
  end.

(** [parseInt(s)], without a radix: after the white space and the sign,
    a [0x] or [0X] makes the rest hexadecimal. *)
Definition parseInt_auto (s : string) : Value :=
  let s1 := skip_space s in
  let '(neg, s2) :=
    match s1 with
    | String "-" r => (true, r)
    | String "+" r => (false, r)
    | _ => (false, s1)
    end in
  let hex :=
    match s2 with
    | String "0" (String x _) => (x =? "x")%char || (x =? "X")%char
    | _ => false
    end in
  match (if hex then hex_digits None (substring_from 2 s2) else digits None s2) with
  | Some n => VNum (if neg then - n else n)%Z
  | None => VNaN
  end.

(** [parseInt(v)] for any value: the value is turned into a string
    first. *)
Definition parseInt_any (v : Value) : Value := parseInt_auto (to_string v).

End JS.

Import JS.

(* ===================================================================== *)
(** ** core/state.js: the shared state store *)
(* ===================================================================== *)

Module State.

(** A change message handed to [broadcast]:
    [{ type: 'update', prop, value }]. *)
Record Event : Type := mkEvent { ev_prop : string; ev_value : Value }.

(** The module-level variables of state.js, together with the clock.
    - [rig]   the [state] object, as the map of its own properties;
    - [sent]  the messages broadcast to the SSE clients so far, oldest
              first;
    - [ticks] how many times [Date.now()] has been read.

    [state] is an object literal, so under the names of
    [OBJECT_PROTOTYPE] it also answers with what it inherits:
    [state['toString']] is a function before anything is stored there,
    and an assignment to [state['__proto__']] stores no property.  The
    map of own properties is the object for every other name, the six
    fields of the literal among them: [state_get] and [updateState] below
    are [state[prop]] and [updateState(prop, value)] for a [prop] with
    [inherited prop = false]. *)
Record World : Type := mkWorld {
  rig : gmap string Value;
  sent : list Event;
  ticks : nat
}.

(** The [state] object literal. *)
Definition state0 : gmap string Value :=
  <["connected" := VBool false]>
    (<["freq" := VNum 0]>
      (<["mode" := VStr ""]>
        (<["width" := VNum 0]>
          (<["ptt" := VBool false]>
            (<["lastUpdate" := VNum 0]> ∅))))).

Definition world0 : World := mkWorld state0 [] 0.

(** [state[prop]] for a name that is not inherited: a missing property
    reads as undefined. *)
Definition state_get (w : World) (prop : string) : Value :=
  default VUndef (rig w !! prop).

Definition broadcast (data : Event) (w : World) : World :=
  mkWorld (rig w) (sent w ++ [data]) (ticks w).

Section Clock.

(** [clock k] is what the [k]-th reading of [Date.now()] returns. *)
Variable clock : nat → Z.

Definition updateState (prop : string) (value : Value) (w : World) : World :=
  if strict_eq (state_get w prop) value then w
  else
    let st1 := <[prop := value]> (rig w) in
    let st2 := <["lastUpdate" := VNum (clock (ticks w))]> st1 in
    broadcast (mkEvent prop value) (mkWorld st2 (sent w) (S (ticks w))).

(** [state.lastUpdate = Date.now()], as the plugins write it into the
    shared object themselves: nothing is broadcast. *)
Definition touch (w : World) : World :=
  mkWorld (<["lastUpdate" := VNum (clock (ticks w))]> (rig w)) (sent w) (S (ticks w)).

End Clock.

(** Modelled from the spec: plugins/usb/index.js, which hands the protocol
    modules their [getState] callback, is not among the sources; the
    callback reads one field of the shared state (the "previously known"
    value the parsers fall back to). *)
Definition getState (prop : string) (w : World) : Value := state_get w prop.

End State.

Import State.

(* ===================================================================== *)
(** ** plugins/usb/protocol-kenwood.js: Kenwood CAT, ASCII *)
(* ===================================================================== *)

Module Kenwood.

Definition MODES : list (string * string) :=
  [ ("1", "LSB"); ("2", "USB"); ("3", "CW"); ("4", "FM"); ("5", "AM");
    ("6", "FSK"); ("7", "CW-R"); ("8", "DATA-LSB"); ("9", "FSK-R");
    ("A", "DATA-USB") ].

Section Injected.

(** The I/O of the protocol module is injected: [W] is whatever the two
    callbacks act on. *)
Context {W : Type}.
Variable updateState : string → Value → W → W.
Variable getState : string → W → Value.

Definition parse_IF (resp : string) (w : W) : W :=
  if (37 <=? String.length resp)%nat then
    let freqStr := substring 2 13 resp in
    let freq := parseInt freqStr in
    let w1 := if gt0 freq then updateState "freq" freq w else w in
    let modeDigit := charAt 29 resp in
    let mode := js_or (obj_get MODES modeDigit) (getState "mode" w1) in
    let w2 := updateState "mode" mode w1 in
    let txState := charAt 28 resp in
    updateState "ptt" (VBool (negb (txState =? "0"))) w2
  else w.

Definition parse_FA (resp : string) (w : W) : W :=
  let freq := parseInt (substring_from 2 resp) in
  if gt0 freq then updateState "freq" freq w else w.

Definition parse_MD (resp : string) (w : W) : W :=
  let modeDigit := charAt 2 resp in
  let mode := js_or (obj_get MODES modeDigit) (getState "mode" w) in
  updateState "mode" mode w.

Definition parse (resp : string) (w : W) : W :=
  if (String.length resp <? 2)%nat then w
  else
    let cmd := substring 0 2 resp in
    if cmd =? "IF" then parse_IF resp w
    else if cmd =? "FA" then parse_FA resp w
    else if cmd =? "MD" then parse_MD resp w
    else w.

(** [parse] handed any value: a falsy one is returned from at once, and
    a truthy one that is not a string has no [substring] to call. *)
Definition parse_any (resp : Value) (w : W) : Outcome W :=
  if negb (truthy resp) then Returned w
  else
    match resp with
    | VStr line => Returned (parse line w)
    | _ => Thrown "TypeError: resp.substring is not a function"
    end.

End Injected.

Section Commands.

(** What goes out to the radio is injected as well. *)
Context {W : Type}.
Variable serialWrite : string → W → W.

Definition poll (w : W) : W := serialWrite "IF;" w.

(** [hz] is an integer: [Math.round] leaves it as it is. *)
Definition setFreq (hz : Z) (w : W) : W :=
  let padded := padStart 11 "0" (number_to_string hz) in
  serialWrite ("FA" ++ padded ++ ";") w.

Definition setPTT (on : Value) (w : W) : W :=
  serialWrite (if truthy on then "TX;" else "RX;") w.

End Commands.

End Kenwood.

(* ===================================================================== *)
(** ** plugins/usb/protocol-yaesu.js: Yaesu CAT, ASCII *)
(* ===================================================================== *)

Module Yaesu.

Definition MODES : list (string * string) :=
  [ ("1", "LSB"); ("2", "USB"); ("3", "CW"); ("4", "FM"); ("5", "AM");
    ("6", "RTTY-LSB"); ("7", "CW-R"); ("8", "DATA-LSB"); ("9", "RTTY-USB");
    ("A", "DATA-FM"); ("B", "FM-N"); ("C", "DATA-USB"); ("D", "AM-N");
    ("E", "C4FM") ].

Section Injected.

Context {W : Type}.
Variable updateState : string → Value → W → W.
Variable getState : string → W → Value.

Definition parse_IF (resp : string) (w : W) : W :=
  if (27 <=? String.length resp)%nat then
    let freqStr := substring 2 11 resp in
    let freq := parseInt freqStr in
    let w1 := if gt0 freq then updateState "freq" freq w else w in
    let modeDigit := charAt 21 resp in
    let mode := js_or (obj_get MODES modeDigit) (getState "mode" w1) in
    let w2 := updateState "mode" mode w1 in
    if (29 <=? String.length resp)%nat then
      let txState := charAt 28 resp in
      updateState "ptt" (VBool (negb (txState =? "0"))) w2
    else w2
  else w.

Definition parse_FA (resp : string) (w : W) : W :=
  let freq := parseInt (substring_from 2 resp) in
  if gt0 freq then updateState "freq" freq w else w.

Definition parse_MD (resp : string) (w : W) : W :=
  let modeStr := substring_from 2 resp in
  let modeDigit :=
    if (2 <=? String.length modeStr)%nat
    then charAt 1 modeStr else charAt 0 modeStr in
  let mode := js_or (obj_get MODES modeDigit) (getState "mode" w) in
  updateState "mode" mode w.

(** The [default] branch only writes to the console. *)
Definition parse (resp : string) (w : W) : W :=
  if (String.length resp <? 2)%nat then w
  else
    let cmd := substring 0 2 resp in
    if cmd =? "IF" then parse_IF resp w
    else if cmd =? "FA" then parse_FA resp w
    else if cmd =? "MD" then parse_MD resp w
    else if (cmd =? "TX") || (cmd =? "RX")
    then updateState "ptt" (VBool (cmd =? "TX")) w
    else w.

(** [parse] handed any value: a falsy one is returned from at once, and
    a truthy one that is not a string has no [substring] to call. *)
Definition parse_any (resp : Value) (w : W) : Outcome W :=
  if negb (truthy resp) then Returned w
  else
    match resp with
    | VStr line => Returned (parse line w)
    | _ => Thrown "TypeError: resp.substring is not a function"
    end.

End Injected.

Section Commands.

(** What goes out to the radio is injected as well. *)
Context {W : Type}.
Variable serialWrite : string → W → W.

Definition poll (w : W) : W := serialWrite "IF;" w.

(** [hz] is an integer: [Math.round] leaves it as it is. *)
Definition setFreq (hz : Z) (w : W) : W :=
  let padded := padStart 9 "0" (number_to_string hz) in
  serialWrite ("FA" ++ padded ++ ";") w.

Definition setPTT (on : Value) (w : W) : W :=
  serialWrite (if truthy on then "TX1;" else "TX0;") w.

End Commands.

End Yaesu.

(* ===================================================================== *)
(** ** plugins/usb/protocol-icom.js: Icom CI-V, binary *)
(* ===================================================================== *)

Module Icom.

(** A [Buffer] or an array of bytes: its elements, in order. *)
Abbreviation Bytes := (list Z).

Definition CONTROLLER : Z := 0xe0.

Definition MODES : list (Z * string) :=
  [ (0x00, "LSB"); (0x01, "USB"); (0x02, "AM"); (0x03, "CW");
    (0x04, "RTTY"); (0x05, "FM"); (0x06, "WFM"); (0x07, "CW-R");
    (0x08, "RTTY-R"); (0x11, "DATA-LSB"); (0x12, "DATA-USB");
    (0x17, "DATA-FM") ]%Z.

(** [MODES[code]] for a byte [code]. *)
Fixpoint modes_get (table : list (Z * string)) (code : Z) : Value :=
  match table with
  | [] => VUndef
  | (k, v) :: rest => if (k =? code)%Z then VStr v else modes_get rest code
  end.

(** [buf[i]] for an index inside the buffer. *)
Definition byte_at (buf : Bytes) (i : nat) : Z := nth i buf 0%Z.

(** [buf.slice(a, b)]. *)
Definition slice (a b : nat) (buf : Bytes) : Bytes := take (b - a) (drop a buf).

(** One turn of the loop of [bcdToFreq] on the pair [(freq, mult)]. *)
Definition bcd_step (acc : Z * Z) (b : Z) : Z * Z :=
  let '(freq, mult) := acc in
  let lo := Z.land b 0x0f in
  let hi := Z.land (Z.shiftr b 4) 0x0f in
  let freq := (freq + lo * mult)%Z in
  let mult := (mult * 10)%Z in
  let freq := (freq + hi * mult)%Z in
  let mult := (mult * 10)%Z in
  (freq, mult).

Definition bcdToFreq (bytes : Bytes) : Z :=
  fst (fold_left bcd_step bytes (0, 1)%Z).

(** [n] turns of the loop of [freqToBCD]; [%] is the truncated remainder,
    [Math.floor(f / 10)] the floored quotient. *)
Fixpoint freqToBCD_loop (n : nat) (f : Z) (bytes : Bytes) : Bytes :=
  match n with
  | O => bytes
  | S n' =>
      let lo := Z.rem f 10 in
      let f := (f / 10)%Z in
      let hi := Z.rem f 10 in
      let f := (f / 10)%Z in
      freqToBCD_loop n' f (bytes ++ [Z.lor (Z.shiftl hi 4) lo])
  end.

(** [Math.round] is the identity on the integers. *)
Definition freqToBCD (freq : Z) : Bytes := freqToBCD_loop 5 freq [].

Fixpoint find_byte (v : Z) (buf : Bytes) : option nat :=
  match buf with
  | [] => None
  | x :: rest => if (x =? v)%Z then Some O else S <$> find_byte v rest
  end.

(** [buf.indexOf(v, byteOffset)], with [None] for -1. *)
Definition indexOf (v : Z) (byteOffset : nat) (buf : Bytes) : option nat :=
  (λ i, byteOffset + i)%nat <$> find_byte v (drop byteOffset buf).

(** [if (start > 0) buf = buf.slice(start)]. *)
Definition resync (start : nat) (buf : Bytes) : Bytes :=
  if (0 <? start)%nat then drop start buf else buf.

Definition inspect {A : Type} (x : A) : { y : A | x = y } := exist _ x eq_refl.

Section Reframer.

(** [onFrame] stands for the rest of the loop body, run on every frame
    that is sliced off. *)
Context {W : Type}.
Variable onFrame : Bytes → W → W.

(** The [while (true)] loop of [handleData]: the buffer that is left and
    the effect of the frames found. *)
Equations? reframe (buf : Bytes) (w : W) : Bytes * W by wf (length buf) lt :=
  reframe buf w with inspect (indexOf 0xfe 0 buf) => {
    | exist _ None _ => ([], w)
    | exist _ (Some start) _
        with inspect (indexOf 0xfd 2 (resync start buf)) => {
        | exist _ None _ => (resync start buf, w)
        | exist _ (Some e) He =>
            reframe (drop (e + 1) (resync start buf))
                    (onFrame (take (e + 1) (resync start buf)) w) } }.
Proof.
  (* an index found is inside the buffer, so the frame sliced off is not
     empty *)
  assert (Hfind : ∀ (l : Bytes) i, find_byte 0xfd l = Some i → (i < length l)%nat).
  { induction l as [|x l IH]; intros i; cbn; [done|].
    destruct (x =? 253)%Z; [intros [= <-]; lia|].
    destruct (find_byte 253 l) as [j|]; cbn; [|done].
    intros [= <-]. specialize (IH j eq_refl). lia. }
  unfold indexOf in He.
  destruct (find_byte 253 (drop 2 (resync start buf))) as [j|] eqn:E; [|done].
  apply Hfind in E. rewrite length_drop in E. cbn in He.
  assert (length (resync start buf) ≤ length buf)%nat.
  { unfold resync. destruct (0 <? start)%nat; [rewrite length_drop|]; lia. }
  rewrite length_drop. injection He as <-. lia.
Qed.

(** The serial data handler keeps the returned buffer for the next
    chunk. *)
Fixpoint feed_with (chunks : list Bytes) (rxBuf : Bytes) (w : W) : Bytes * W :=
  match chunks with
  | [] => (rxBuf, w)
  | data :: rest =>
      let '(buf, w') := reframe (rxBuf ++ data) w in
      feed_with rest buf w'
  end.

End Reframer.

Section Injected.

Context {W : Type}.
Variable updateState : string → Value → W → W.
Variable getState : string → W → Value.

(** The body of the loop after a frame has been sliced off. *)
Definition processFrame (frame : Bytes) (w : W) : W :=
  if (length frame <? 6)%nat then w
  else if negb (byte_at frame 0 =? 0xfe)%Z || negb (byte_at frame 1 =? 0xfe)%Z
  then w
  else
    let to := byte_at frame 2 in
    let cmd := byte_at frame 4 in
    if negb (to =? CONTROLLER)%Z then w
    else if (cmd =? 0x03)%Z || (cmd =? 0x00)%Z then
      if (10 <=? length frame)%nat then
        let freq := bcdToFreq (slice 5 10 frame) in
        if (0 <? freq)%Z then updateState "freq" (VNum freq) w else w
      else w
    else if (cmd =? 0x04)%Z || (cmd =? 0x01)%Z then
      if (7 <=? length frame)%nat then
        let mode := js_or (modes_get MODES (byte_at frame 5)) (getState "mode" w) in
        let w1 := updateState "mode" mode w in
        if (8 <=? length frame)%nat
        then updateState "width" (VNum (byte_at frame 6)) w1
        else w1
      else w
    else w.

(** [handleData(data, rxBuf, updateState, getState)]: the returned buffer
    and the state after the call. *)
Definition handleData (data rxBuf : Bytes) (w : W) : Bytes * W :=
  reframe processFrame (rxBuf ++ data) w.

(** Chunks fed one call at a time, each call starting from the buffer the
    previous one returned. *)
Fixpoint feed (chunks : list Bytes) (rxBuf : Bytes) (w : W) : Bytes * W :=
  match chunks with
  | [] => (rxBuf, w)
  | data :: rest =>
      let '(buf, w') := handleData data rxBuf w in feed rest buf w'
  end.

End Injected.

(** [Buffer.from(packet)]: every element is reduced to a byte. *)
Definition to_buffer (packet : Bytes) : Bytes := map (λ x, x mod 256)%Z packet.

(** [sub] is [None] for [undefined] and [null]. *)
Definition buildCmd (rigAddress cmd : Z) (sub : option Z) (data : Bytes) : Bytes :=
  let packet := [0xfe; 0xfe; rigAddress; CONTROLLER; cmd]%Z in
  let packet := match sub with Some b => (packet ++ [b])%list | None => packet end in
  let packet := (packet ++ data)%list in
  let packet := (packet ++ [0xfd]%Z)%list in
  to_buffer packet.

Section Commands.

Context {W : Type}.
Variable serialWrite : Bytes → W → W.

(** [hz] is an integer: [Math.round] leaves it as it is. *)
Definition setFreq (hz : Z) (rigAddress : Z) (w : W) : W :=
  let bcd := freqToBCD hz in
  serialWrite (buildCmd rigAddress 0x05 None bcd) w.

Definition setPTT (on : Value) (rigAddress : Z) (w : W) : W :=
  serialWrite (buildCmd rigAddress 0x1c (Some 0%Z) [if truthy on then 0x01 else 0x00]%Z) w.

End Commands.

(** The frames [handleData] slices off, in order, whatever becomes of them. *)
Definition record_frame (frame : Bytes) (log : list Bytes) : list Bytes :=
  log ++ [frame].

Definition frames_of (data rxBuf : Bytes) : Bytes * list Bytes :=
  reframe record_frame (rxBuf ++ data) [].

Definition feed_frames (chunks : list Bytes) (rxBuf : Bytes) : Bytes * list Bytes :=
  feed_with record_frame chunks rxBuf [].

End Icom.

(* ===================================================================== *)
(** ** core/plugin-registry.js: plugin lifecycle and command dispatch *)
(* ===================================================================== *)

Module Registry.

(** What the registry asks of plugins, in the order it asks. *)
Inductive Call : Type :=
| CCreate (id : string)
| CMethod (tag : nat) (method : string) (args : list Value).



Section Env.

(** [Env] is everything plugin code can touch: the shared rig state, the
    plugin's own closure variables, sockets and timers. *)
Context {Env : Type}.

(** A JavaScript function of the plugin, run to completion. *)
Definition Eff (A : Type) : Type := Env → Env * Outcome A.

(** A property of a plugin instance that is not [connect] or
    [disconnect]. *)
Inductive Member : Type :=
| MFun (f : list Value → Eff unit)
| MVal (v : Value).

(** A plugin instance; [tag] tells the objects apart. *)
Record Instance : Type := mkInstance {
  tag : nat;
  connect : Eff unit;
  disconnect : Eff unit;
  others : gmap string Member
}.

Record Descriptor : Type := mkDescriptor {
  name : string;
  category : string;
  create : Eff Instance
}.

Record PluginRegistry : Type := mkRegistry {
  _descriptors : gmap string Descriptor;
  _instance : option Instance;
  _activeId : option string
}.

(** The process as the registry sees it: the environment and the calls
    made so far, oldest first. *)
Definition Proc : Type := Env * list Call.

Definition set_active (i : option Instance) (id : option string)
    (r : PluginRegistry) : PluginRegistry :=
  mkRegistry (_descriptors r) i id.

(** [inst.method(...args)] for a function-valued property [f]. *)
Definition invoke {A} (inst : Instance) (method : string) (args : list Value)
    (f : Eff A) (p : Proc) : Proc * Outcome A :=
  let '(e, o) := f (fst p) in
  ((e, (snd p ++ [CMethod (tag inst) method args])%list), o).

(** [descriptor.create(this._config, this._services)]. *)
Definition run_create (id : string) (d : Descriptor) (p : Proc)
    : Proc * Outcome Instance :=
  let '(e, o) := create d (fst p) in
  ((e, (snd p ++ [CCreate id])%list), o).

Definition switchPlugin (id : string) (r : PluginRegistry) (p : Proc)
    : PluginRegistry * Proc :=
  (* Disconnect old instance; what it throws is logged and dropped *)
  let '(r1, p1) :=
    match _instance r with
    | Some old =>
        let '(p', _) := invoke old "disconnect" [] (disconnect old) p in
        (set_active None None r, p')
    | None => (r, p)
    end in
  if (id =? "") || (id =? "none") then (r1, p1)
  else
    match _descriptors r1 !! id with
    | None => (r1, p1)
    | Some descriptor =>
        match run_create id descriptor p1 with
        | (p2, Thrown _) => (set_active None None r1, p2)
        | (p2, Returned inst) =>
            let r2 := set_active (Some inst) (Some id) r1 in
            match invoke inst "connect" [] (connect inst) p2 with
            | (p3, Thrown _) => (set_active None None r2, p3)
            | (p3, Returned _) => (r2, p3)
            end
        end
    end.

(** What an instance without a property [method] of its own finds under
    that name.  The instances are object literals, so these are the
    functions of [Object.prototype], called here with the instance as
    [this] and with arguments that are no objects.  None of them touches
    what plugin code can touch.  [__defineGetter__] and [__defineSetter__]
    throw a TypeError, the accessor they are given being no function;
    [toLocaleString] calls [this.toString()], which is the instance's own
    when it has one; the others return.  [__proto__] is found as well, but
    is an object and no function. *)
Definition inherited_method (inst : Instance) (method : string)
    : option (list Value → Eff unit) :=
  if (method =? "__defineGetter__") || (method =? "__defineSetter__") then
    Some (λ _ e, (e, Thrown ("TypeError: Object.prototype." ++ method ++ ": Expecting function")))
  else if method =? "toLocaleString" then
    Some (λ _,
      match others inst !! "toString" with
      | Some (MFun f) => f []
      | Some (MVal _) => λ e, (e, Thrown "TypeError: this.toString is not a function")
      | None => λ e, (e, Returned ())
      end)
  else if method =? "__proto__" then None
  else if inherited method then Some (λ _ e, (e, Returned ()))
  else None.

(** [inst[method]] when [typeof inst[method] === 'function']: a property
    of the instance itself, or else an inherited one. *)
Definition method_of (inst : Instance) (method : string)
    : option (list Value → Eff unit) :=
  if method =? "connect" then Some (λ _, connect inst)
  else if method =? "disconnect" then Some (λ _, disconnect inst)
  else
    match others inst !! method with
    | Some (MFun f) => Some f
    | Some (MVal _) => None
    | None => inherited_method inst method
    end.

Definition dispatch (method : string) (args : list Value)
    (r : PluginRegistry) (p : Proc) : Proc * Outcome bool :=
  match _instance r with
  | None => (p, Returned false)
  | Some inst =>
      match method_of inst method with
      | None => (p, Returned false)
      | Some f =>
          match invoke inst method args (f args) p with
          | (p', Thrown e) => (p', Thrown e)
          | (p', Returned _) => (p', Returned true)
          end
      end
  end.

(** The key of [_descriptors] a configured id stands for.  The plugins
    are registered under strings: a value that is no string is no key of
    the map, and [switchPlugin] ends after the disconnect, as it does for
    the empty id. *)
Definition id_key (id : Value) : string :=
  match id with
  | VStr s => s
  | _ => ""
  end.

(** [radio] is [this._config.radio], [None] when there is no such
    section. *)
Definition connectActive (radio : option (gmap string Value))
    (r : PluginRegistry) (p : Proc) : PluginRegistry * Proc :=
  let type :=
    match radio with
    | Some section => default VUndef (section !! "type")
    | None => VUndef
    end in
  if negb (truthy type) || strict_eq type (VStr "none") then (r, p)
  else switchPlugin (id_key type) r p.

End Env.

Arguments Member : clear implicits.
Arguments Instance : clear implicits.
Arguments Descriptor : clear implicits.
Arguments PluginRegistry : clear implicits.
Arguments Proc : clear implicits.

End Registry.

(* ===================================================================== *)
(** ** plugins/flrig.js and plugins/mock.js: what [disconnect] does *)
(* ===================================================================== *)

Module Flrig.

(** The closure variables of one instance: whether [client] and
    [pollTimer] are set. *)
Record Local : Type := mkLocal { client : bool; pollTimer : bool }.

Definition Env : Type := World * Local.

Definition stopPolling (l : Local) : Local :=
  if pollTimer l then mkLocal (client l) false else l.

Definition startPolling (l : Local) : Local :=
  mkLocal (client (stopPolling l)) true.

Section Clock.

Variable clock : nat → Z.

(** [xmlrpc] tells whether [require('xmlrpc')] succeeds; the [catch] only
    writes to the console. *)
Definition connect (xmlrpc : bool) (e : Env) : Env :=
  if xmlrpc then
    let l1 := mkLocal true (pollTimer (snd e)) in
    let w1 := updateState clock "connected" (VBool true) (fst e) in
    (w1, startPolling l1)
  else e.

Definition disconnect (e : Env) : Env :=
  let l1 := stopPolling (snd e) in
  let l2 := mkLocal false (pollTimer l1) in
  (updateState clock "connected" (VBool false) (fst e), l2).

(** The object [create] returns.  [setFreq], [setMode] and [setPTT] only
    talk to the XML-RPC client; they are left to [commands]. *)
Definition instance (xmlrpc : bool) (tag : nat)
    (commands : gmap string (Registry.Member Env)) : Registry.Instance Env :=
  Registry.mkInstance tag
    (λ e, (connect xmlrpc e, Returned ()))
    (λ e, (disconnect e, Returned ()))
    commands.

(** The plugin descriptor: [create] starts from fresh closure variables. *)
Definition descriptor (xmlrpc : bool) (tag : nat)
    (commands : gmap string (Registry.Member Env)) : Registry.Descriptor Env :=
  Registry.mkDescriptor "flrig (XML-RPC)" "rig"
    (λ e, ((fst e, mkLocal false false),
           Returned (instance xmlrpc tag commands))).

(** The callback of [rig.get_vfo].  [err] tells whether the call failed
    and [freq] is the number [parseFloat(val)] makes of the answer; the
    lines that only write to the console are left out. *)
Definition on_get_vfo (err : bool) (freq : Value) (w : World) : World :=
  if err then
    if truthy (state_get w "connected")
    then updateState clock "connected" (VBool false) w
    else w
  else
    let w1 :=
      if negb (truthy (state_get w "connected"))
      then updateState clock "connected" (VBool true) w
      else w in
    let w2 := if gt0 freq then updateState clock "freq" freq w1 else w1 in
    touch clock w2.

(** The callback of [rig.get_mode]. *)
Definition on_get_mode (err : bool) (val : Value) (w : World) : World :=
  if negb err && truthy val then updateState clock "mode" val w else w.

(** The callback of [rig.get_ptt]. *)
Definition on_get_ptt (err : bool) (val : Value) (w : World) : World :=
  if negb err then updateState clock "ptt" (VBool (truthy val)) w else w.

End Clock.

End Flrig.

Module Mock.

(** The closure variables of one instance: whether the two timers run. *)
Record Local : Type := mkLocal { tickTimer : bool; waypointTimer : bool }.

Definition Env : Type := World * Local.

Section Clock.

Variable clock : nat → Z.

Definition disconnect (e : Env) : Env :=
  let l1 := if tickTimer (snd e) then mkLocal false (waypointTimer (snd e)) else snd e in
  let l2 := if waypointTimer l1 then mkLocal (tickTimer l1) false else l1 in
  (updateState clock "connected" (VBool false) (fst e), l2).

End Clock.

Definition SIM_WAYPOINTS : list (Z * string) :=
  [ (14074000, "USB"); (7074000, "USB"); (21074000, "USB");
    (14225000, "USB"); (3573000, "USB"); (28074000, "USB") ]%Z.

(** [SIM_WAYPOINTS[i]] for an index inside the table. *)
Definition waypoint (i : nat) : Z * string := nth i SIM_WAYPOINTS (0%Z, "").

(** All the closure variables of one instance: the timers and
    [waypointIndex]. *)
Record Sim : Type := mkSim { timers : Local; waypointIndex : nat }.

Definition SimEnv : Type := World * Sim.

Section Simulation.

Variable clock : nat → Z.

Definition connect (e : SimEnv) : SimEnv :=
  let w1 := updateState clock "connected" (VBool true) (fst e) in
  let w2 := updateState clock "freq" (VNum (fst (waypoint 0))) w1 in
  let w3 := updateState clock "mode" (VStr (snd (waypoint 0))) w2 in
  let w4 := updateState clock "width" (VNum 2800) w3 in
  let w5 := updateState clock "ptt" (VBool false) w4 in
  (w5, mkSim (mkLocal true true) (waypointIndex (snd e))).

(** The callback of [tickTimer]. *)
Definition on_tick (e : SimEnv) : SimEnv := (touch clock (fst e), snd e).

(** The callback of [waypointTimer]; it ends by setting the timer
    again. *)
Definition on_waypoint (e : SimEnv) : SimEnv :=
  let i := ((waypointIndex (snd e) + 1) mod length SIM_WAYPOINTS)%nat in
  let wp := waypoint i in
  let w1 := updateState clock "freq" (VNum (fst wp)) (fst e) in
  let w2 := updateState clock "mode" (VStr (snd wp)) w1 in
  (w2, mkSim (mkLocal (tickTimer (timers (snd e))) true) i).

(** [disconnect] leaves [waypointIndex] alone. *)
Definition sim_disconnect (e : SimEnv) : SimEnv :=
  let e' := disconnect clock (fst e, timers (snd e)) in
  (fst e', mkSim (snd e') (waypointIndex (snd e))).

Definition setFreq (hz : Value) (w : World) : World :=
  let freq := parseInt_any hz in
  updateState clock "freq" freq w.

Definition setMode (mode : Value) (w : World) : World :=
  updateState clock "mode" mode w.

Definition setPTT (on : Value) (w : World) : World :=
  updateState clock "ptt" (VBool (truthy on)) w.

(** A command of the instance, called with the arguments [dispatch]
    spreads: a parameter that is not given is undefined. *)
Definition command (f : Value → World → World) : Registry.Member SimEnv :=
  Registry.MFun (λ args e, ((f (nth 0 args VUndef) (fst e), snd e), Returned ())).

(** The object [create] returns. *)
Definition instance (tag : nat) : Registry.Instance SimEnv :=
  Registry.mkInstance tag
    (λ e, (connect e, Returned ()))
    (λ e, (sim_disconnect e, Returned ()))
    (<["setFreq" := command setFreq]>
      (<["setMode" := command setMode]>
        (<["setPTT" := command setPTT]> ∅))).

(** The plugin descriptor: [create] starts from fresh closure variables. *)
Definition descriptor (tag : nat) : Registry.Descriptor SimEnv :=
  Registry.mkDescriptor "Simulated Radio (Mock)" "rig"
    (λ e, ((fst e, mkSim (mkLocal false false) 0), Returned (instance tag))).

End Simulation.

End Mock.

(* ===================================================================== *)
(** ** core/config.js: the settings, loaded and saved *)
(* ===================================================================== *)

Module Config.

(** The settings the bridge reads: the HTTP port and the [radio] section;
    the other keys of the file are left out. *)
Record Settings : Type := mkSettings { port : Value; radio : gmap string Value }.

Definition DEFAULT_CONFIG : Settings :=
  mkSettings (VNum 5555)
    (<["type" := VStr "none"]>
      (<["serialPort" := VStr ""]>
        (<["baudRate" := VNum 38400]>
          (<["dataBits" := VNum 8]>
            (<["stopBits" := VNum 2]>
              (<["parity" := VStr "none"]>
                (<["icomAddress" := VStr "0x94"]>
                  (<["pollInterval" := VNum 500]>
                    (<["pttEnabled" := VBool false]>
                      (<["rigctldHost" := VStr "127.0.0.1"]>
                        (<["rigctldPort" := VNum 4532]>
                          (<["flrigHost" := VStr "127.0.0.1"]>
                            (<["flrigPort" := VNum 12345]> ∅))))))))))))).

(** What [JSON.parse] makes of a file that holds an object: its [port],
    if it has one, and its [radio] object, [None] when [raw.radio] is
    missing or falsy. *)
Record Raw : Type := mkRaw { raw_port : option Value; raw_radio : option (gmap string Value) }.

(** The file: missing, or a text that does not get through the [try]
    block of [loadConfig], or the text of an object. *)
Inductive File : Type :=
| Missing
| Unreadable
| Json (raw : Raw).

(** The module as it runs: the objects allocated so far, the module
    variable [config], which names one of them, and the file.
    [module.exports = { config, ... }] is evaluated once, when the module
    is loaded: what server.js, rig-bridge.js and through it the registry
    import is the object [config] named at that time, object 0. *)
Record Store : Type := mkStore { objects : list Settings; config : nat; file : File }.

Definition exported : nat := 0.

(** [let config = JSON.parse(JSON.stringify(DEFAULT_CONFIG))]. *)
Definition init (f : File) : Store := mkStore [DEFAULT_CONFIG] 0 f.

Definition get (s : Store) (i : nat) : Settings := nth i (objects s) DEFAULT_CONFIG.

Definition set (s : Store) (i : nat) (c : Settings) : Store :=
  mkStore (<[i := c]> (objects s)) (config s) (file s).

(** [config = { ...DEFAULT_CONFIG, ...raw, radio: { ... } }]: a new
    object, assigned to the module variable. *)
Definition loadConfig (s : Store) : Store :=
  match file s with
  | Json raw =>
      let merged :=
        mkSettings (default (port DEFAULT_CONFIG) (raw_port raw))
                   (default ∅ (raw_radio raw) ∪ radio DEFAULT_CONFIG) in
      mkStore (objects s ++ [merged])%list (length (objects s)) (file s)
  | _ => s
  end.

(** [JSON.stringify] leaves out a key whose value is undefined and writes
    NaN as null. *)
Definition json_value (v : Value) : option Value :=
  match v with
  | VUndef => None
  | VNaN => Some VNull
  | _ => Some v
  end.

Definition stringify (c : Settings) : Raw :=
  mkRaw (json_value (port c)) (Some (omap json_value (radio c))).

(** [writable] tells whether [writeFileSync] succeeds; the [catch] only
    writes to the console. *)
Definition saveConfig (writable : bool) (s : Store) : Store :=
  if writable
  then mkStore (objects s) (config s) (Json (stringify (get s (config s))))
  else s.

(** The loop of [applyCliArgs] on [config.port]; [args[++i]] past the end
    is undefined, and [parseInt] makes NaN of it. *)
Fixpoint cli_port (args : list string) (port : Value) : Value :=
  match args with
  | [] => port
  | a :: rest =>
      if a =? "--port" then
        match rest with
        | [] => VNaN
        | v :: rest' => cli_port rest' (parseInt_auto v)
        end
      else cli_port rest port
  end.

Definition applyCliArgs (args : list string) (s : Store) : Store :=
  let c := get s (config s) in
  set s (config s) (mkSettings (cli_port args (port c)) (radio c)).

End Config.

(* ===================================================================== *)
(** ** core/server.js: the routes *)
(* ===================================================================== *)

Module Server.

Import Registry.

(** What the handler sends: [res.status(s).json(body)]. *)
Record Response : Type := mkResponse {
  status : nat;
  body : list (string * Value)
}.

Section Env.

Context {Env : Type}.

(** [req_body] is the parsed JSON object of the request, [radio] the
    [config.radio] section. *)
Definition post_ptt (req_body radio : gmap string Value)
    (registry : PluginRegistry Env) (p : Proc Env) : Proc Env * Outcome Response :=
  let ptt := default VUndef (req_body !! "ptt") in
  let pttEnabled := default VUndef (radio !! "pttEnabled") in
  if truthy ptt && negb (truthy pttEnabled) then
    (p, Returned (mkResponse 403 [("error", VStr "PTT disabled in configuration")]))
  else
    match dispatch "setPTT" [VBool (truthy ptt)] registry p with
    | (p', Thrown e) => (p', Thrown e)
    | (p', Returned _) => (p', Returned (mkResponse 200 [("success", VBool true)]))
    end.

Definition post_freq (req_body : gmap string Value)
    (registry : PluginRegistry Env) (p : Proc Env) : Proc Env * Outcome Response :=
  let freq := default VUndef (req_body !! "freq") in
  if negb (truthy freq) then
    (p, Returned (mkResponse 400 [("error", VStr "Missing freq")]))
  else
    match dispatch "setFreq" [freq] registry p with
    | (p', Thrown e) => (p', Thrown e)
    | (p', Returned _) => (p', Returned (mkResponse 200 [("success", VBool true)]))
    end.

Definition post_mode (req_body : gmap string Value)
    (registry : PluginRegistry Env) (p : Proc Env) : Proc Env * Outcome Response :=
  let mode := default VUndef (req_body !! "mode") in
  if negb (truthy mode) then
    (p, Returned (mkResponse 400 [("error", VStr "Missing mode")]))
  else
    match dispatch "setMode" [mode] registry p with
    | (p', Thrown e) => (p', Thrown e)
    | (p', Returned _) => (p', Returned (mkResponse 200 [("success", VBool true)]))
    end.

(** POST /api/config.  [new_port] is [req.body.port] and [new_radio] the
    object [req.body.radio], [None] when it is missing or falsy; [config]
    is the object server.js imported.  The answer carries the settings as
    they are after the merge. *)
Definition post_config (new_port : Value) (new_radio : option (gmap string Value))
    (writable : bool) (s : Config.Store)
    (registry : PluginRegistry Env) (p : Proc Env)
    : Config.Store * PluginRegistry Env * Proc Env * Config.Settings :=
  let c := Config.get s Config.exported in
  let c1 := if truthy new_port then Config.mkSettings new_port (Config.radio c) else c in
  let c2 :=
    match new_radio with
    | Some section => Config.mkSettings (Config.port c1) (section ∪ Config.radio c1)
    | None => c1
    end in
  let s1 := Config.set s Config.exported c2 in
  let s2 := Config.saveConfig writable s1 in
  let '(r', p') :=
    switchPlugin (id_key (default VUndef (Config.radio c2 !! "type"))) registry p in
  (s2, r', p', c2).

End Env.

(** GET /status. *)
Definition get_status (w : World) : Response :=
  mkResponse 200
    [ ("connected", state_get w "connected"); ("freq", state_get w "freq");
      ("mode", state_get w "mode"); ("width", state_get w "width");
      ("ptt", state_get w "ptt"); ("timestamp", state_get w "lastUpdate") ].

End Server.

(* ===================================================================== *)
(** ** plugins/wsjtx-relay.js: the WSJT-X reader and the relay queue *)
(* ===================================================================== *)

Module Relay.

Definition WSJTX_MAGIC : Z := 0xadbccbda.

(** The numbers of [WSJTX_MSG]. *)
Definition HEARTBEAT : Z := 0.
Definition STATUS : Z := 1.
Definition DECODE : Z := 2.
Definition CLEAR : Z := 3.
Definition REPLY : Z := 4.
Definition QSO_LOGGED : Z := 5.
Definition CLOSE : Z := 6.
Definition REPLAY : Z := 7.
Definition HALT_TX : Z := 8.
Definition FREE_TEXT : Z := 9.
Definition WSPR_DECODE : Z := 10.
Definition LOCATION : Z := 11.
Definition LOGGED_ADIF : Z := 12.

(** What a read returns.  A string is kept as the bytes that
    [buf.toString('utf8', ...)] decodes and a double as the eight bytes
    that [readDoubleBE] decodes; the objects of [readQTime] and
    [readQDateTime] keep their members. *)
Inductive Field : Type :=
| FNull
| FNum (z : Z)
| FBool (b : bool)
| FUtf8 (bytes : list Z)
| FDouble (bytes : list Z)
| FTime (ms hours minutes seconds : Z) (formatted : string)
| FDateTime (julianDay time timeSpec : Field).

(** A big-endian unsigned integer. *)
Definition be_uint (bytes : list Z) : Z :=
  fold_left (λ acc b, acc * 256 + b)%Z bytes 0%Z.

(** The double nearest to an integer below 2^64, ties to even: the sum of
    [readUInt64] is rounded to 53 bits. *)
Definition round53 (z : Z) : Z :=
  if (z <? 2 ^ 53)%Z then z
  else
    let e := (Z.log2 z - 52)%Z in
    let q := (z / 2 ^ e)%Z in
    let r := (z mod 2 ^ e)%Z in
    let half := (2 ^ (e - 1))%Z in
    let q' :=
      if (r <? half)%Z then q
      else if (half <? r)%Z then (q + 1)%Z
      else if Z.even q then q else (q + 1)%Z in
    (q' * 2 ^ e)%Z.

Section WSJTXReader.

(** [this.buf]; [this.offset] is threaded through the methods. *)
Variable buf : list Z.

(** A method of the reader: from the offset before the call to what it
    returns and the offset after it. *)
Definition Read (A : Type) : Type := nat → A * nat.

Definition ret {A : Type} (a : A) : Read A := λ offset, (a, offset).

Definition bind {A B : Type} (m : Read A) (k : A → Read B) : Read B :=
  λ offset, let '(a, offset') := m offset in k a offset'.

Notation "'do' x <- m ; k" := (bind m (λ x, k))
  (at level 10, x name, m at level 100, k at level 200).

Definition remaining (offset : nat) : Z :=
  (Z.of_nat (length buf) - Z.of_nat offset)%Z.

(** The [n] bytes from [offset] on. *)
Definition bytes_at (offset n : nat) : list Z := take n (drop offset buf).

Definition readUInt8 : Read Field := λ offset,
  if (remaining offset <? 1)%Z then (FNull, offset)
  else (FNum (nth offset buf 0%Z), S offset).

Definition readInt32 : Read Field := λ offset,
  if (remaining offset <? 4)%Z then (FNull, offset)
  else
    let u := be_uint (bytes_at offset 4) in
    let v := if (u <? 2 ^ 31)%Z then u else (u - 2 ^ 32)%Z in
    (FNum v, (offset + 4)%nat).

Definition readUInt32 : Read Field := λ offset,
  if (remaining offset <? 4)%Z then (FNull, offset)
  else (FNum (be_uint (bytes_at offset 4)), (offset + 4)%nat).

Definition readUInt64 : Read Field := λ offset,
  if (remaining offset <? 8)%Z then (FNull, offset)
  else
    let hi := be_uint (bytes_at offset 4) in
    let lo := be_uint (bytes_at (offset + 4) 4) in
    (FNum (round53 (hi * 0x100000000 + lo)), (offset + 8)%nat).

Definition readBool : Read Field :=
  do v <- readUInt8;
  ret (match v with
       | FNum z => FBool (negb (z =? 0)%Z)
       | _ => FNull
       end).

Definition readDouble : Read Field := λ offset,
  if (remaining offset <? 8)%Z then (FNull, offset)
  else (FDouble (bytes_at offset 8), (offset + 8)%nat).

Definition readUtf8 : Read Field :=
  do len <- readUInt32;
  match len with
  | FNum l =>
      if (l =? 0xffffffff)%Z then ret FNull
      else if (l =? 0)%Z then ret (FUtf8 [])
      else λ offset,
        if (remaining offset <? l)%Z then (FNull, offset)
        else (FUtf8 (bytes_at offset (Z.to_nat l)), (offset + Z.to_nat l)%nat)
  | _ => ret FNull
  end.

(** [String(n).padStart(2, '0')]. *)
Definition pad2 (n : Z) : string := padStart 2 "0" (number_to_string n).

Definition readQTime : Read Field :=
  do ms <- readUInt32;
  match ms with
  | FNum ms =>
      let h := (ms / 3600000)%Z in
      let m := ((ms mod 3600000) / 60000)%Z in
      let s := ((ms mod 60000) / 1000)%Z in
      ret (FTime ms h m s (pad2 h ++ ":" ++ pad2 m ++ ":" ++ pad2 s))
  | _ => ret FNull
  end.

Definition readQDateTime : Read Field :=
  do julianDay <- readUInt64;
  do time <- readQTime;
  do timeSpec <- readUInt8;
  do _ <- (match timeSpec with
           | FNum 2 => readInt32
           | _ => ret FNull
           end);
  ret (FDateTime julianDay time timeSpec).

(** The reads of the cases of [parseWSJTXMessage]: each case is a
    sequence of assignments [msg.name = reader.readKind()]. *)
Inductive Kind : Type :=
| KUInt8 | KInt32 | KUInt32 | KUInt64 | KBool | KDouble | KUtf8 | KQTime | KQDateTime.

Definition read (k : Kind) : Read Field :=
  match k with
  | KUInt8 => readUInt8
  | KInt32 => readInt32
  | KUInt32 => readUInt32
  | KUInt64 => readUInt64
  | KBool => readBool
  | KDouble => readDouble
  | KUtf8 => readUtf8
  | KQTime => readQTime
  | KQDateTime => readQDateTime
  end.

Fixpoint read_fields (members : list (string * Kind)) : Read (list (string * Field)) :=
  match members with
  | [] => ret []
  | (name, k) :: rest =>
      do v <- read k;
      do vs <- read_fields rest;
      ret ((name, v) :: vs)
  end.

End WSJTXReader.

(** The members each case of the [switch] assigns, in order; [None] for
    the [default] case. *)
Definition members_of (type : Z) : option (list (string * Kind)) :=
  if (type =? HEARTBEAT)%Z then
    Some [("maxSchema", KUInt32); ("version", KUtf8); ("revision", KUtf8)]
  else if (type =? STATUS)%Z then
    Some [("dialFrequency", KUInt64); ("mode", KUtf8); ("dxCall", KUtf8);
          ("report", KUtf8); ("txMode", KUtf8); ("txEnabled", KBool);
          ("transmitting", KBool); ("decoding", KBool); ("rxDF", KUInt32);
          ("txDF", KUInt32); ("deCall", KUtf8); ("deGrid", KUtf8);
          ("dxGrid", KUtf8); ("txWatchdog", KBool); ("subMode", KUtf8);
          ("fastMode", KBool); ("specialOp", KUInt8); ("freqTolerance", KUInt32);
          ("trPeriod", KUInt32); ("configName", KUtf8); ("txMessage", KUtf8)]
  else if (type =? DECODE)%Z then
    Some [("isNew", KBool); ("time", KQTime); ("snr", KInt32);
          ("deltaTime", KDouble); ("deltaFreq", KUInt32); ("mode", KUtf8);
          ("message", KUtf8); ("lowConfidence", KBool); ("offAir", KBool)]
  else if (type =? CLEAR)%Z then
    Some [("window", KUInt8)]
  else if (type =? QSO_LOGGED)%Z then
    Some [("dateTimeOff", KQDateTime); ("dxCall", KUtf8); ("dxGrid", KUtf8);
          ("txFrequency", KUInt64); ("mode", KUtf8); ("reportSent", KUtf8);
          ("reportRecv", KUtf8); ("txPower", KUtf8); ("comments", KUtf8);
          ("name", KUtf8); ("dateTimeOn", KQDateTime); ("operatorCall", KUtf8);
          ("myCall", KUtf8); ("myGrid", KUtf8); ("exchangeSent", KUtf8);
          ("exchangeRecv", KUtf8); ("adifPropMode", KUtf8)]
  else if (type =? WSPR_DECODE)%Z then
    Some [("isNew", KBool); ("time", KQTime); ("snr", KInt32);
          ("deltaTime", KDouble); ("frequency", KUInt64); ("drift", KInt32);
          ("callsign", KUtf8); ("grid", KUtf8); ("power", KInt32);
          ("offAir", KBool)]
  else if (type =? LOGGED_ADIF)%Z then
    Some [("adif", KUtf8)]
  else if (type =? CLOSE)%Z then
    Some []
  else None.

(** The message object: [type], [id], [schema] and [timestamp], and then
    the members of its case. *)
Record Msg : Type := mkMsg {
  msg_type : Z;
  msg_id : list Z;
  msg_schema : Field;
  msg_timestamp : Z;
  msg_members : list (string * Field)
}.

(** [now] is what [Date.now()] returns.  No method of the reader throws,
    so the [catch] is never entered. *)
Definition parseWSJTXMessage (buffer : list Z) (now : Z) : option Msg :=
  let '(magic, o1) := readUInt32 buffer 0 in
  match magic with
  | FNum m =>
      if negb (m =? WSJTX_MAGIC)%Z then None
      else
        let '(schema, o2) := readUInt32 buffer o1 in
        let '(type, o3) := readUInt32 buffer o2 in
        let '(id, o4) := readUtf8 buffer o3 in
        match type, id with
        | FNum t, FUtf8 i =>
            match members_of t with
            | Some members =>
                Some (mkMsg t i schema now (fst (read_fields buffer members o4)))
            | None => None
            end
        | _, _ => None
        end
  | _ => None
  end.

(** [msg.name], undefined when the case of the message assigns no such
    member. *)
Fixpoint member (name : string) (members : list (string * Field)) : option Field :=
  match members with
  | [] => None
  | (k, v) :: rest => if k =? name then Some v else member name rest
  end.

(** The part of [config.wsjtxRelay] the queue depends on:
    [batchInterval] is a number, 0 when the key is missing. *)
Record Cfg : Type := mkCfg { batchInterval : Z }.

(** The closure variables of one instance that the queue depends on. *)
Record Local : Type := mkLocal {
  messageQueue : list Msg;
  sendInFlight : bool;
  consecutiveErrors : nat;
  totalDecodes : nat;
  totalRelayed : nat;
  serverReachable : bool
}.

(** What [create] starts from. *)
Definition local0 : Local := mkLocal [] false 0 0 0 false.

Definition getInterval (cfg : Cfg) (l : Local) : Z :=
  let base := if (batchInterval cfg =? 0)%Z then 2000%Z else batchInterval cfg in
  if (consecutiveErrors l =? 0)%nat then base
  else if (consecutiveErrors l <? 5)%nat then (base * 2)%Z
  else if (consecutiveErrors l <? 20)%nat then 10000%Z
  else 30000%Z.

(** The handler of the [message] event of the socket. *)
Definition on_message (buffer : list Z) (now : Z) (l : Local) : Local :=
  match parseWSJTXMessage buffer now with
  | None => l
  | Some msg =>
      let decodes :=
        if (msg_type msg =? DECODE)%Z
           && match member "isNew" (msg_members msg) with
              | Some (FBool b) => b
              | _ => false
              end
        then S (totalDecodes l) else totalDecodes l in
      let queue :=
        if negb (msg_type msg =? REPLAY)%Z
        then (messageQueue l ++ [msg])%list else messageQueue l in
      mkLocal queue (sendInFlight l) (consecutiveErrors l) decodes
              (totalRelayed l) (serverReachable l)
  end.

(** What a request ends with: an error, or an answer with its status
    code. *)
Inductive Answer : Type :=
| Failed
| Status (statusCode : Z).

(** [sendBatch]: the closure variables after the call and the batch
    handed to [makeRequest].  [url_ok] tells whether [new URL] accepts the
    relay endpoint; when it does not, [makeRequest] returns before it
    sends anything, and its callback is never called. *)
Definition sendBatch (url_ok : bool) (l : Local) : Local * option (list Msg) :=
  if sendInFlight l || (length (messageQueue l) =? 0)%nat then (l, None)
  else
    let batch := messageQueue l in
    (mkLocal [] true (consecutiveErrors l) (totalDecodes l) (totalRelayed l)
             (serverReachable l),
     if url_ok then Some batch else None).

(** The callback [sendBatch] hands to [makeRequest]; [batch] is the
    batch of its closure. *)
Definition onBatchDone (batch : list Msg) (a : Answer) (l : Local) : Local :=
  match a with
  | Failed =>
      mkLocal (batch ++ messageQueue l)%list false (S (consecutiveErrors l))
              (totalDecodes l) (totalRelayed l) (serverReachable l)
  | Status statusCode =>
      if (statusCode =? 200)%Z then
        mkLocal (messageQueue l) false 0 (totalDecodes l)
                (totalRelayed l + length batch) true
      else if (statusCode =? 401)%Z || (statusCode =? 403)%Z then
        mkLocal (messageQueue l) false (S (consecutiveErrors l))
                (totalDecodes l) (totalRelayed l) (serverReachable l)
      else if (500 <=? statusCode)%Z then
        mkLocal (batch ++ messageQueue l)%list false (S (consecutiveErrors l))
                (totalDecodes l) (totalRelayed l) (serverReachable l)
      else
        mkLocal (messageQueue l) false (S (consecutiveErrors l))
                (totalDecodes l) (totalRelayed l) (serverReachable l)
  end.

(** The callback of [sendHeartbeat]. *)
Definition onHeartbeatDone (a : Answer) (l : Local) : Local :=
  match a with
  | Failed => l
  | Status statusCode =>
      if (statusCode =? 200)%Z then
        mkLocal (messageQueue l) (sendInFlight l) 0 (totalDecodes l)
                (totalRelayed l) true
      else l
  end.

(** The callback of the health check that runs every minute. *)
Definition onHealthDone (a : Answer) (l : Local) : Local :=
  match a with
  | Failed => l
  | Status statusCode =>
      if (statusCode =? 200)%Z && (0 <? consecutiveErrors l)%nat then
        mkLocal (messageQueue l) (sendInFlight l) 0 (totalDecodes l)
                (totalRelayed l) (serverReachable l)
      else l
  end.

End Relay.

(* ===================================================================== *)
(** * The vocabulary of the properties *)
(* ===================================================================== *)

(** Worlds that agree on what was broadcast and on every field but
    [lastUpdate]. *)
Definition same_but_time (w1 w2 : World) : Prop :=
  sent w1 = sent w2 ∧ ∀ q, q ≠ "lastUpdate" → state_get w1 q = state_get w2 q.

(** The calls a protocol module makes to [updateState], recorded in
    order. *)
Definition record_update (prop : string) (value : Value) (log : list (string * Value))
  : list (string * Value) := (log ++ [(prop, value)])%list.



(** The lines a protocol module hands to [serialWrite], recorded in
    order. *)
Definition record_line (line : string) (log : list string) : list string :=
  (log ++ [line])%list.

(** The buffers the CI-V module hands to [serialWrite], recorded in
    order. *)
Definition record_bytes (packet : list Z) (log : list (list Z)) : list (list Z) :=
  (log ++ [packet])%list.

(** A CI-V frame around a body: two start bytes in front, the end byte
    behind. *)
Definition civ_frame (body : list Z) : list Z :=
  (0xfe%Z :: 0xfe%Z :: body ++ [0xfd%Z])%list.

(** Line noise holds no start byte, and the body of a frame no end
    byte. *)
Definition civ_noise (noise : list Z) : Prop := Forall (λ b, b ≠ 0xfe%Z) noise.

Definition civ_body (body : list Z) : Prop := Forall (λ b, b ≠ 0xfd%Z) body.

(** A stream of frames, each behind some line noise. *)
Definition civ_stream (items : list (list Z * list Z)) : list Z :=
  concat (map (λ item, (fst item ++ civ_frame (snd item))%list) items).

(** What [handleData] may report: a positive frequency, a mode, a filter
    width. *)
Definition civ_report (update : string * Value) : Prop :=
  (fst update = "freq" ∧ ∃ f, snd update = VNum f ∧ (0 < f)%Z)
  ∨ fst update = "mode"
  ∨ (fst update = "width" ∧ ∃ b, snd update = VNum b).

(** A string of decimal digits only, and the number it writes. *)
Fixpoint all_digits (s : string) : bool :=
  match s with
  | EmptyString => true
  | String c s' => is_digit c && all_digits s'
  end.

Fixpoint decimal (s : string) : Z :=
  match s with
  | EmptyString => 0
  | String c s' => digit_val c * 10 ^ Z.of_nat (String.length s') + decimal s'
  end.





Section SwitchVocabulary.

Import Registry.

Context {Env : Type}.
Implicit Types (r : PluginRegistry Env).

(** The calls [switchPlugin] makes once the old instance is out of the
    way: none at all, [create] alone, or [create] and then [connect]. *)
Definition start_calls (id : string) r (e : Env) : list Call :=
  if (id =? "") || (id =? "none") then []
  else
    match _descriptors r !! id with
    | None => []
    | Some d =>
        match create d e with
        | (_, Thrown _) => [CCreate id]
        | (_, Returned inst) => [CCreate id; CMethod (tag inst) "connect" []]
        end
    end.

(** The instance held after a switch that started from no instance. *)
Definition started (id : string) r (e : Env) : option (Instance Env) :=
  if (id =? "") || (id =? "none") then None
  else
    match _descriptors r !! id with
    | None => None
    | Some d =>
        match create d e with
        | (_, Thrown _) => None
        | (e', Returned inst) =>
            match connect inst e' with
            | (_, Thrown _) => None
            | (_, Returned _) => Some inst
            end
        end
    end.

(** A sequence of calls of [switchPlugin], oldest first. *)
Definition run_switches (ids : list string) (state : PluginRegistry Env * Proc Env)
  : PluginRegistry Env * Proc Env :=
  fold_left (λ state id, switchPlugin id (fst state) (snd state)) ids state.

End SwitchVocabulary.

(** What happens to a running mock instance: a timer fires or a command
    comes in. *)
Inductive SimEvent : Type :=
| SimTick
| SimWaypoint
| SimSetFreq (hz : Value)
| SimSetMode (mode : Value)
| SimSetPTT (on : Value).

Definition sim_step (clock : nat → Z) (ev : SimEvent) (e : Mock.SimEnv) : Mock.SimEnv :=
  match ev with
  | SimTick => Mock.on_tick clock e
  | SimWaypoint => Mock.on_waypoint clock e
  | SimSetFreq hz => (Mock.setFreq clock hz (fst e), snd e)
  | SimSetMode mode => (Mock.setMode clock mode (fst e), snd e)
  | SimSetPTT on => (Mock.setPTT clock on (fst e), snd e)
  end.

Definition sim_run (clock : nat → Z) (evs : list SimEvent) (e : Mock.SimEnv)
  : Mock.SimEnv :=
  fold_left (λ e ev, sim_step clock ev e) evs e.

Definition is_waypoint (ev : SimEvent) : bool :=
  match ev with
  | SimWaypoint => true
  | _ => false
  end.

(** What happens to a running relay: a datagram comes in, the batch
    timer fires, or one of its requests is answered. *)
Inductive RelayEvent : Type :=
| Datagram (buffer : list Z) (now : Z)
| BatchTimer
| BatchAnswer (a : Relay.Answer)
| HeartbeatAnswer (a : Relay.Answer)
| HealthAnswer (a : Relay.Answer).

(** The relay as it runs: its closure variables, the batch whose request
    is out, and the batches that were answered, with their answers. *)
Record RelayRun : Type := mkRun {
  local : Relay.Local;
  pending : option (list Relay.Msg);
  answered : list (list Relay.Msg * Relay.Answer)
}.

(** A request is answered once: the answer goes to the callback of the
    batch that is out. *)
Definition relay_step (url_ok : bool) (ev : RelayEvent) (st : RelayRun) : RelayRun :=
  match ev with
  | Datagram buffer now =>
      mkRun (Relay.on_message buffer now (local st)) (pending st) (answered st)
  | BatchTimer =>
      let out := Relay.sendBatch url_ok (local st) in
      mkRun (fst out)
            (match snd out with Some batch => Some batch | None => pending st end)
            (answered st)
  | BatchAnswer a =>
      match pending st with
      | Some batch =>
          mkRun (Relay.onBatchDone batch a (local st)) None
                (answered st ++ [(batch, a)])%list
      | None => st
      end
  | HeartbeatAnswer a =>
      mkRun (Relay.onHeartbeatDone a (local st)) (pending st) (answered st)
  | HealthAnswer a =>
      mkRun (Relay.onHealthDone a (local st)) (pending st) (answered st)
  end.

Definition relay_run (url_ok : bool) (evs : list RelayEvent) (st : RelayRun) : RelayRun :=
  fold_left (λ st ev, relay_step url_ok ev st) evs st.

Definition relay_start : RelayRun := mkRun Relay.local0 None [].

(** The messages the datagrams of a run are parsed into, in order. *)
Definition accepted (evs : list RelayEvent) : list Relay.Msg :=
  flat_map (λ ev,
              match ev with
              | Datagram buffer now =>
                  match Relay.parseWSJTXMessage buffer now with
                  | Some msg => [msg]
                  | None => []
                  end
              | _ => []
              end) evs.

(** The answers after which a batch goes back to the queue, and the one
    after which it counts as relayed. *)
Definition requeued (a : Relay.Answer) : bool :=
  match a with
  | Relay.Failed => true
  | Relay.Status statusCode => (500 <=? statusCode)%Z
  end.

Definition relayed (a : Relay.Answer) : bool :=
  match a with
  | Relay.Failed => false
  | Relay.Status statusCode => (statusCode =? 200)%Z
  end.

(** The messages of the batches whose answer passes [keep]. *)
Definition batches (keep : Relay.Answer → bool)
    (log : list (list Relay.Msg * Relay.Answer)) : list Relay.Msg :=
  concat (map fst (List.filter (λ x, keep (snd x)) log)).

(** The four bytes of an unsigned 32-bit integer, most significant
    first. *)
Definition enc_u32 (z : Z) : list Z :=
  [z / 256 / 256 / 256 mod 256; z / 256 / 256 mod 256; z / 256 mod 256; z mod 256]%Z.

(** A number below 100 in two digits, and a time of day as text. *)
Definition two_digits (n : Z) : string :=
  String (digit_char (n / 10)) (String (digit_char (n mod 10)) EmptyString).

Definition clock_text (h m s : Z) : string :=
  two_digits h ++ ":" ++ two_digits m ++ ":" ++ two_digits s.

(** How WSJT-X writes a value of each kind, and the value the reader is
    to make of it: integers most significant byte first, a boolean as one
    byte, a string as its length and its bytes (the length 0xFFFFFFFF
    stands for a null string), a time of day as its milliseconds since
    midnight, a date and time as a Julian day, a time of day and a time
    specification, followed by an offset when the specification is 2. *)
Inductive wire : Relay.Kind → Relay.Field → list Z → Prop :=
| wire_u8 z :
    (0 ≤ z < 256)%Z → wire Relay.KUInt8 (Relay.FNum z) [z]
| wire_i32 z :
    (- 2 ^ 31 ≤ z < 2 ^ 31)%Z →
    wire Relay.KInt32 (Relay.FNum z) (enc_u32 (z mod 2 ^ 32))
| wire_u32 z :
    (0 ≤ z < 2 ^ 32)%Z → wire Relay.KUInt32 (Relay.FNum z) (enc_u32 z)
| wire_u64 z :
    (0 ≤ z < 2 ^ 53)%Z →
    wire Relay.KUInt64 (Relay.FNum z) (enc_u32 (z / 2 ^ 32) ++ enc_u32 (z mod 2 ^ 32))%list
| wire_bool b :
    wire Relay.KBool (Relay.FBool b) [if b then 1 else 0]%Z
| wire_double bytes :
    length bytes = 8%nat → wire Relay.KDouble (Relay.FDouble bytes) bytes
| wire_utf8 bytes :
    (Z.of_nat (length bytes) < 0xffffffff)%Z →
    wire Relay.KUtf8 (Relay.FUtf8 bytes) (enc_u32 (Z.of_nat (length bytes)) ++ bytes)%list
| wire_utf8_null :
    wire Relay.KUtf8 Relay.FNull (enc_u32 0xffffffff)
| wire_time h m s r :
    (0 ≤ h < 24)%Z → (0 ≤ m < 60)%Z → (0 ≤ s < 60)%Z → (0 ≤ r < 1000)%Z →
    let ms := (((h * 60 + m) * 60 + s) * 1000 + r)%Z in
    wire Relay.KQTime (Relay.FTime ms h m s (clock_text h m s)) (enc_u32 ms)
| wire_datetime jd time time_bytes spec :
    (0 ≤ jd < 2 ^ 53)%Z → wire Relay.KQTime time time_bytes →
    (0 ≤ spec < 256)%Z → spec ≠ 2%Z →
    wire Relay.KQDateTime (Relay.FDateTime (Relay.FNum jd) time (Relay.FNum spec))
         (enc_u32 (jd / 2 ^ 32) ++ enc_u32 (jd mod 2 ^ 32) ++ time_bytes ++ [spec])%list
| wire_datetime_offset jd time time_bytes offset :
    (0 ≤ jd < 2 ^ 53)%Z → wire Relay.KQTime time time_bytes →
    (- 2 ^ 31 ≤ offset < 2 ^ 31)%Z →
    wire Relay.KQDateTime (Relay.FDateTime (Relay.FNum jd) time (Relay.FNum 2))
         (enc_u32 (jd / 2 ^ 32) ++ enc_u32 (jd mod 2 ^ 32) ++ time_bytes
            ++ [2%Z] ++ enc_u32 (offset mod 2 ^ 32))%list.

(** The members of a message, one after the other. *)
Inductive wire_members
  : list (string * Relay.Kind) → list (string * Relay.Field) → list Z → Prop :=
| wire_members_nil : wire_members [] [] []
| wire_members_cons name k v bytes members values rest :
    wire k v bytes → wire_members members values rest →
    wire_members ((name, k) :: members) ((name, v) :: values) (bytes ++ rest)%list.

(** The head of a datagram: the magic number, the schema, the type and
    the id. *)
Definition wire_head (schema type : Z) (id : list Z) : list Z :=
  (enc_u32 Relay.WSJTX_MAGIC ++ enc_u32 schema ++ enc_u32 type
     ++ enc_u32 (Z.of_nat (length id)) ++ id)%list.

(** What a read makes of nothing: null, or an object of nulls. *)
Fixpoint all_null (v : Relay.Field) : Prop :=
  match v with
  | Relay.FNull => True
  | Relay.FDateTime julianDay time timeSpec =>
      all_null julianDay ∧ all_null time ∧ all_null timeSpec
  | _ => False
  end.

(** A plugin with a [setMode] that logs the mode and a [setPTT] that
    throws, over an environment that is the log. *)
Definition logging_instance : Registry.Instance (list Value) :=
  Registry.mkInstance 7
    (λ e, (e, Returned ()))
    (λ e, (e, Returned ()))
    (<["setMode" := Registry.MFun (λ args e, ((e ++ args)%list, Returned ()))]>
      (<["setPTT" := Registry.MFun (λ _ e, (e, Thrown "TypeError"))]>
        (<["version" := Registry.MVal (VNum 1)]> ∅))).

Definition logging_registry : Registry.PluginRegistry (list Value) :=
  Registry.mkRegistry ∅ (Some logging_instance) (Some "logging").

(* ===================================================================== *)
(** * Properties *)
(* ===================================================================== *)

(** ** The state store *)

Section StateFacts.

Variable clock : nat → Z.

Lemma strict_eq_true a b : strict_eq a b = true → a = b.
Proof.
  destruct a, b; cbn; try discriminate; intros H;
    by apply bool_decide_eq_true in H.
Qed.

Lemma strict_eq_refl a : a ≠ VNaN → strict_eq a a = true.
Proof. destruct a; cbn; try done; intros _; by apply bool_decide_eq_true. Qed.

Lemma strict_eq_NaN a : strict_eq a VNaN = false.
Proof. by destruct a. Qed.

Lemma strict_eq_differ a b : a ≠ b → strict_eq a b = false.
Proof.
  intros H. destruct a, b; cbn; try done; by apply bool_decide_eq_false.
Qed.

Lemma updateState_same prop value w :
  strict_eq (state_get w prop) value = true →
  updateState clock prop value w = w.
Proof. intros H. unfold updateState. by rewrite H. Qed.

Lemma updateState_changed prop value w :
  strict_eq (state_get w prop) value = false →
  updateState clock prop value w =
    mkWorld (<["lastUpdate" := VNum (clock (ticks w))]> (<[prop := value]> (rig w)))
            (sent w ++ [mkEvent prop value]) (S (ticks w)).
Proof. intros H. unfold updateState. by rewrite H. Qed.

Lemma updateState_other prop value w q :
  q ≠ prop → q ≠ "lastUpdate" →
  rig (updateState clock prop value w) !! q = rig w !! q.
Proof.
  intros Hq Hl. unfold updateState.
  destruct (strict_eq _ _); [done|].
  cbn. by rewrite !lookup_insert_ne.
Qed.

Lemma state_get_updateState_other prop value w q :
  q ≠ prop → q ≠ "lastUpdate" →
  state_get (updateState clock prop value w) q = state_get w q.
Proof. intros. unfold state_get. by rewrite updateState_other. Qed.

Lemma state_get_updateState prop value w :
  prop ≠ "lastUpdate" →
  state_get (updateState clock prop value w) prop = value.
Proof.
  intros Hl. unfold updateState.
  destruct (strict_eq _ _) eqn:E.
  - by apply strict_eq_true.
  - unfold state_get; cbn.
    rewrite lookup_insert_ne by done. by rewrite lookup_insert_eq.
Qed.

End StateFacts.

(** C3, as amended.  For every field name that is not inherited from
    [Object.prototype] and every value: when the value is the stored one
    and is not NaN, [updateState] leaves the whole world as it is: nothing
    is stored, nothing is broadcast and the clock is not read.  When the
    value differs from the stored one, or is NaN (which [!==] tells apart
    from every value, a NaN already held included), the value is stored
    into the field and [lastUpdate] is then set to the clock reading,
    exactly one message carrying the field name and the new value is
    appended to what was broadcast, and every field other than the one
    named and [lastUpdate] is as before.  Afterwards [lastUpdate] holds
    the clock reading and the field named holds the value, unless that
    field is [lastUpdate] itself. *)
Theorem updateState_spec (clock : nat → Z) (prop : string) (value : Value) (w : World) :
  inherited prop = false →
  (state_get w prop = value → value ≠ VNaN →
     updateState clock prop value w = w)
  ∧ (state_get w prop ≠ value ∨ value = VNaN →
       let w' := updateState clock prop value w in
       rig w' = <["lastUpdate" := VNum (clock (ticks w))]> (<[prop := value]> (rig w))
       ∧ (prop ≠ "lastUpdate" → state_get w' prop = value)
       ∧ state_get w' "lastUpdate" = VNum (clock (ticks w))
       ∧ sent w' = (sent w ++ [mkEvent prop value])%list
       ∧ ticks w' = S (ticks w)
       ∧ ∀ q, q ≠ prop → q ≠ "lastUpdate" → rig w' !! q = rig w !! q).
Proof.
  intros _. split.
  - intros Heq Hnan. apply updateState_same. rewrite Heq. by apply strict_eq_refl.
  - intros Hdiff w'. subst w'.
    assert (Hne : strict_eq (state_get w prop) value = false).
    { destruct Hdiff as [Hd | ->]; [by apply strict_eq_differ | apply strict_eq_NaN]. }
    split; [by rewrite (updateState_changed _ _ _ _ Hne)|].
    split; [intros Hp; by apply state_get_updateState|].
    split.
    { rewrite (updateState_changed _ _ _ _ Hne). unfold state_get; cbn.
      by rewrite lookup_insert_eq. }
    split; [by rewrite (updateState_changed _ _ _ _ Hne)|].
    split; [by rewrite (updateState_changed _ _ _ _ Hne)|].
    intros q Hq Hl. by apply updateState_other.
Qed.

(** A first frequency report on the initial state, and the same report
    again. *)
Lemma updateState_spec_witness :
  let w' := updateState (λ _, 1000%Z) "freq" (VNum 14074000) world0 in
  (state_get w' "freq" = VNum 14074000
   ∧ state_get w' "lastUpdate" = VNum 1000
   ∧ sent w' = [mkEvent "freq" (VNum 14074000)]
   ∧ ticks w' = 1%nat
   ∧ ∀ q, q ≠ "freq" → q ≠ "lastUpdate" → rig w' !! q = rig world0 !! q)
  ∧ updateState (λ _, 2000%Z) "freq" (VNum 14074000) w' = w'.
Proof.
  intros w'. split.
  - destruct (updateState_spec (λ _, 1000%Z) "freq" (VNum 14074000) world0 eq_refl)
      as [_ H].
    destruct H as (_ & Hp & Hl & Hs & Ht & Hq); [left; discriminate|].
    split; [apply Hp; discriminate|]. by repeat split.
  - destruct (updateState_spec (λ _, 2000%Z) "freq" (VNum 14074000) w' eq_refl)
      as [H _].
    apply H; [reflexivity | discriminate].
Defined.

(** For the field [lastUpdate] itself the value stored is overwritten by
    the clock reading at once. *)
Example updateState_lastUpdate_overwritten :
  let w' := updateState (λ _, 1000%Z) "lastUpdate" (VNum 5) world0 in
  state_get w' "lastUpdate" = VNum 1000
  ∧ sent w' = [mkEvent "lastUpdate" (VNum 5)].
Proof. vm_compute. done. Qed.

(** C3 as stated fails for NaN.  With NaN held in [freq], another
    [updateState('freq', NaN)] is given the value stored, yet it is
    broadcast again, the clock is read and [lastUpdate] moves on.  The
    mock plugin gets there: [POST /freq] with the text [abc] is passed to
    its [setFreq], which stores [parseInt('abc')]; posted twice, it is
    broadcast twice. *)
Lemma updateState_NaN_repeats :
  let clock := λ k : nat, (1000 + Z.of_nat k)%Z in
  let w := updateState clock "freq" VNaN world0 in
  let w' := updateState clock "freq" VNaN w in
  let registry := Registry.mkRegistry ∅ (Some (Mock.instance clock 1)) (Some "mock") in
  let request : gmap string Value := {["freq" := VStr "abc"]} in
  let start : Registry.Proc Mock.SimEnv :=
    ((world0, Mock.mkSim (Mock.mkLocal false false) 0), []) in
  let once := fst (Server.post_freq request registry start) in
  let twice := fst (Server.post_freq request registry once) in
  (state_get w "freq" = VNaN
   ∧ sent w' = (sent w ++ [mkEvent "freq" VNaN])%list
   ∧ state_get w "lastUpdate" = VNum 1000
   ∧ state_get w' "lastUpdate" = VNum 1001
   ∧ w' ≠ w)
  ∧ sent (fst (fst once)) = [mkEvent "freq" VNaN]
  ∧ sent (fst (fst twice)) = [mkEvent "freq" VNaN; mkEvent "freq" VNaN].
Proof. vm_compute. repeat split; congruence. Qed.

(** ** The BCD codec of the CI-V adapter *)

Section BCD.

Import Icom.
Local Open Scope Z_scope.

(** A packed byte gives back its two digits. *)
Lemma bcd_byte_digits hi lo :
  0 ≤ hi < 10 → 0 ≤ lo < 10 →
  Z.land (Z.lor (Z.shiftl hi 4) lo) 0x0f = lo
  ∧ Z.land (Z.shiftr (Z.lor (Z.shiftl hi 4) lo) 4) 0x0f = hi.
Proof.
  intros Hhi Hlo.
  assert (Eh : hi = 0 ∨ hi = 1 ∨ hi = 2 ∨ hi = 3 ∨ hi = 4 ∨ hi = 5
               ∨ hi = 6 ∨ hi = 7 ∨ hi = 8 ∨ hi = 9) by lia.
  assert (El : lo = 0 ∨ lo = 1 ∨ lo = 2 ∨ lo = 3 ∨ lo = 4 ∨ lo = 5
               ∨ lo = 6 ∨ lo = 7 ∨ lo = 8 ∨ lo = 9) by lia.
  clear Hhi Hlo.
  repeat (destruct Eh as [-> | Eh]); try subst hi;
    repeat (destruct El as [-> | El]); try subst lo; split; reflexivity.
Qed.

(** Decoding one packed byte adds its two digits at the current weight. *)
Lemma bcd_step_packed freq mult f :
  0 ≤ f →
  bcd_step (freq, mult)
           (Z.lor (Z.shiftl (Z.rem (f / 10) 10) 4) (Z.rem f 10))
  = (freq + (f mod 100) * mult, mult * 100).
Proof.
  intros Hf.
  assert (H10 : 0 ≤ f / 10) by (apply Z.div_pos; lia).
  rewrite !Z.rem_mod_nonneg by lia.
  destruct (bcd_byte_digits ((f / 10) mod 10) (f mod 10)) as [Hlo Hhi];
    [apply Z.mod_pos_bound; lia | apply Z.mod_pos_bound; lia |].
  unfold bcd_step. rewrite Hlo, Hhi.
  replace 100 with (10 * 10) by reflexivity.
  rewrite (Z.rem_mul_r f 10 10) by lia.
  f_equal; ring.
Qed.

Lemma fold_left_bcd_app bytes b acc :
  fold_left bcd_step (bytes ++ [b]) acc = bcd_step (fold_left bcd_step bytes acc) b.
Proof. by rewrite fold_left_app. Qed.

(** Decoding what [n] turns of the encoder appended gives the [2n] low
    decimal digits of [f], at the weight reached so far. *)
Lemma bcd_decode_encode_loop n : ∀ f bytes acc,
  0 ≤ f →
  fold_left bcd_step (freqToBCD_loop n f bytes) acc
  = (fst (fold_left bcd_step bytes acc)
       + (f mod 100 ^ Z.of_nat n) * snd (fold_left bcd_step bytes acc),
     snd (fold_left bcd_step bytes acc) * 100 ^ Z.of_nat n).
Proof.
  induction n as [|n IH]; intros f bytes acc Hf.
  - cbn [freqToBCD_loop]. change (100 ^ Z.of_nat 0) with 1.
    rewrite Z.mod_1_r. destruct (fold_left bcd_step bytes acc); cbn [fst snd]; f_equal; ring.
  - cbn [freqToBCD_loop].
    assert (H10 : 0 ≤ f / 10) by (apply Z.div_pos; lia).
    assert (H100 : 0 ≤ f / 10 / 10) by (apply Z.div_pos; lia).
    rewrite IH by done.
    rewrite fold_left_bcd_app.
    destruct (fold_left bcd_step bytes acc) as [freq mult].
    rewrite bcd_step_packed by done. cbn [fst snd].
    rewrite Nat2Z.inj_succ, Z.pow_succ_r by lia.
    assert (Hp : 0 < 100 ^ Z.of_nat n) by (apply Z.pow_pos_nonneg; lia).
    rewrite (Z.rem_mul_r f 100 (100 ^ Z.of_nat n)) by lia.
    rewrite Z.div_div by lia. change (10 * 10) with 100.
    f_equal; ring.
Qed.

End BCD.

(** C2.  Every frequency of at most ten decimal digits survives the round
    trip through the five-byte BCD encoding. *)
Theorem bcd_roundtrip (f : Z) :
  (0 ≤ f < 10 ^ 10)%Z → Icom.bcdToFreq (Icom.freqToBCD f) = f.
Proof.
  intros [Hf Hlt]. unfold Icom.bcdToFreq, Icom.freqToBCD.
  rewrite bcd_decode_encode_loop by done. cbn [fold_left fst snd].
  change (100 ^ Z.of_nat 5)%Z with (10 ^ 10)%Z.
  rewrite Z.mod_small by lia. lia.
Qed.

(** The 20 m FT8 frequency, encoded and decoded. *)
Lemma bcd_roundtrip_witness :
  Icom.freqToBCD 14074000 = [0x00; 0x40; 0x07; 0x14; 0x00]%Z
  ∧ Icom.bcdToFreq (Icom.freqToBCD 14074000) = 14074000%Z.
Proof.
  split; [reflexivity|].
  apply (bcd_roundtrip 14074000). split; [lia | reflexivity].
Defined.

(** ** The CI-V reframer *)

Section Reframing.

Import Icom.

Lemma find_byte_lt v (buf : Bytes) i : find_byte v buf = Some i → (i < length buf)%nat.
Proof.
  revert i; induction buf as [|x buf IH]; intros i; cbn; [done|].
  destruct (x =? v)%Z.
  - intros [= <-]. lia.
  - destruct (find_byte v buf) as [j|]; cbn; [|done].
    intros [= <-]. specialize (IH j eq_refl). lia.
Qed.

Lemma indexOf_lt v k (buf : Bytes) i :
  indexOf v k buf = Some i → (k ≤ i < length buf)%nat.
Proof.
  unfold indexOf.
  destruct (find_byte v (drop k buf)) as [j|] eqn:E; cbn; [|done].
  intros [= <-]. apply find_byte_lt in E. rewrite length_drop in E. lia.
Qed.

Lemma find_byte_app v (a b : Bytes) :
  find_byte v (a ++ b) =
    match find_byte v a with
    | Some i => Some i
    | None => (λ i, length a + i)%nat <$> find_byte v b
    end.
Proof.
  induction a as [|x a IH]; cbn.
  - by destruct (find_byte v b).
  - destruct (x =? v)%Z; [done|]. rewrite IH.
    destruct (find_byte v a); [done|]. by destruct (find_byte v b).
Qed.

Lemma indexOf_0 v (buf : Bytes) : indexOf v 0 buf = find_byte v buf.
Proof. unfold indexOf. rewrite drop_0. by destruct (find_byte v buf). Qed.

Lemma indexOf_app_Some v k (a b : Bytes) i :
  indexOf v k a = Some i → indexOf v k (a ++ b) = Some i.
Proof.
  unfold indexOf. rewrite drop_app, find_byte_app.
  destruct (find_byte v (drop k a)); [done | discriminate].
Qed.

Lemma find_byte_here v (buf : Bytes) i :
  find_byte v buf = Some i → ∀ d, find_byte v (drop i buf ++ d) = Some 0%nat.
Proof.
  revert i; induction buf as [|x buf IH]; intros i; cbn; [done|].
  destruct (x =? v)%Z eqn:E.
  - intros [= <-] d. cbn. by rewrite E.
  - destruct (find_byte v buf) as [j|]; cbn; [|done].
    intros [= <-] d. cbn. by apply IH.
Qed.

Lemma resync_drop start (buf : Bytes) : resync start buf = drop start buf.
Proof. unfold resync. by destruct start. Qed.

Context {W : Type}.
Variable onFrame : Bytes → W → W.

(** One turn of the loop. *)
Lemma reframe_step buf w :
  reframe onFrame buf w =
    match indexOf 0xfe 0 buf with
    | None => ([], w)
    | Some start =>
        match indexOf 0xfd 2 (resync start buf) with
        | None => (resync start buf, w)
        | Some e =>
            reframe onFrame (drop (e + 1) (resync start buf))
                    (onFrame (take (e + 1) (resync start buf)) w)
        end
    end.
Proof.
  funelim (reframe onFrame buf w);
    match goal with E : indexOf 254 0 _ = _ |- _ => rewrite E end;
    try match goal with E : indexOf 253 2 _ = _ |- _ => rewrite E end;
    reflexivity.
Qed.

Lemma reframe_nil w : reframe onFrame [] w = ([], w).
Proof. by rewrite reframe_step. Qed.

(** Bytes that arrive later can as well be appended to what the loop left
    over: the loop never looks past a frame it has not sliced off yet. *)
Lemma reframe_app buf w : ∀ d,
  reframe onFrame (buf ++ d) w =
  reframe onFrame (fst (reframe onFrame buf w) ++ d) (snd (reframe onFrame buf w)).
Proof.
  funelim (reframe onFrame buf w); intros d; cbn [fst snd];
    match goal with E : indexOf 254 0 _ = _ |- _ => pose proof E as Hfe end;
    try match goal with
        | E : indexOf 253 2 _ = _ |- _ =>
            pose proof E as Hfd; rewrite resync_drop in Hfd
        end;
    rewrite indexOf_0 in Hfe.
  - (* no start sentinel in [buf]: everything is dropped *)
    cbn [app].
    rewrite (reframe_step (buf ++ d)), (reframe_step d).
    rewrite !indexOf_0, find_byte_app, Hfe.
    destruct (find_byte 254 d) as [k|]; cbn; [|done].
    rewrite !resync_drop. rewrite drop_app_add'; done.
  - (* a frame is sliced off: the same frame, and the rest by induction *)
    match goal with IH : ∀ d, _ = _ |- _ => rewrite <- IH end.
    rewrite (reframe_step (buf ++ d)), !resync_drop.
    rewrite indexOf_0, find_byte_app, Hfe, resync_drop.
    apply find_byte_lt in Hfe.
    pose proof (indexOf_lt _ _ _ _ Hfd) as Hlt. rewrite length_drop in Hlt.
    rewrite drop_app_le by lia.
    rewrite (indexOf_app_Some _ _ _ d _ Hfd).
    rewrite drop_app_le by (rewrite length_drop; lia).
    rewrite take_app_le by (rewrite length_drop; lia). done.
  - (* a start sentinel but no complete frame yet: wait *)
    rewrite resync_drop.
    rewrite (reframe_step (buf ++ d)), (reframe_step (drop start buf ++ d)).
    rewrite !indexOf_0, find_byte_app, Hfe, (find_byte_here _ _ _ Hfe d).
    rewrite !resync_drop, drop_0.
    apply find_byte_lt in Hfe.
    by rewrite drop_app_le by lia.
Qed.

Lemma feed_with_reframe chunks : ∀ buf w,
  feed_with onFrame chunks (fst (reframe onFrame buf w)) (snd (reframe onFrame buf w))
  = reframe onFrame (buf ++ concat chunks) w.
Proof.
  induction chunks as [|data rest IH]; intros buf w; cbn [feed_with concat].
  - rewrite app_nil_r. by destruct (reframe onFrame buf w).
  - rewrite <- reframe_app.
    destruct (reframe onFrame (buf ++ data) w) as [buf' w'] eqn:E.
    change buf' with (fst (buf', w')). change w' with (snd (buf', w')) at 2.
    rewrite <- E, IH. by rewrite <- app_assoc.
Qed.

Lemma feed_with_whole chunks w :
  feed_with onFrame chunks [] w = reframe onFrame (concat chunks) w.
Proof.
  pose proof (feed_with_reframe chunks [] w) as H.
  by rewrite reframe_nil in H.
Qed.

End Reframing.

Section Simulation.

Import Icom.

(** Two runs of the loop on the same bytes, with frame handlers that keep
    a relation between their states, leave the same buffer and related
    states. *)
Context {W1 W2 : Type} (R : W1 → W2 → Prop).
Variable on1 : Bytes → W1 → W1.
Variable on2 : Bytes → W2 → W2.
Hypothesis on_related : ∀ frame w1 w2, R w1 w2 → R (on1 frame w1) (on2 frame w2).

Lemma reframe_related (buf : Bytes) : ∀ w1 w2,
  R w1 w2 →
  fst (reframe on1 buf w1) = fst (reframe on2 buf w2)
  ∧ R (snd (reframe on1 buf w1)) (snd (reframe on2 buf w2)).
Proof.
  remember (length buf) as n eqn:Hn. revert buf Hn.
  induction n as [n IH] using lt_wf_ind. intros buf -> w1 w2 HR.
  rewrite (reframe_step on1 buf w1), (reframe_step on2 buf w2).
  destruct (indexOf 254 0 buf) as [start|]; [|done].
  destruct (indexOf 253 2 (resync start buf)) as [e|] eqn:He; [|done].
  apply indexOf_lt in He.
  assert (length (resync start buf) ≤ length buf)%nat.
  { rewrite resync_drop, length_drop. lia. }
  eapply IH; [|reflexivity|by apply on_related].
  rewrite length_drop. lia.
Qed.

Lemma feed_with_related chunks : ∀ (buf : Bytes) w1 w2,
  R w1 w2 →
  fst (feed_with on1 chunks buf w1) = fst (feed_with on2 chunks buf w2)
  ∧ R (snd (feed_with on1 chunks buf w1)) (snd (feed_with on2 chunks buf w2)).
Proof.
  induction chunks as [|data rest IH]; intros buf w1 w2 HR; cbn [feed_with].
  - done.
  - destruct (reframe_related (buf ++ data) w1 w2 HR) as [Hb Hw].
    destruct (reframe on1 (buf ++ data) w1) as [b1 v1].
    destruct (reframe on2 (buf ++ data) w2) as [b2 v2].
    cbn [fst snd] in Hb, Hw. subst b2. by apply IH.
Qed.

End Simulation.

Section HandleData.

Import Icom.

Context {W : Type}.
Variable updateState : string → Value → W → W.
Variable getState : string → W → Value.

Lemma feed_feed_with chunks : ∀ rxBuf w,
  feed updateState getState chunks rxBuf w
  = feed_with (processFrame updateState getState) chunks rxBuf w.
Proof.
  induction chunks as [|data rest IH]; intros rxBuf w; cbn [feed feed_with]; [done|].
  unfold handleData. destruct (reframe _ _ _). apply IH.
Qed.

(** What a call does to the state is what its frames do, one after the
    other. *)
Lemma handleData_frames data rxBuf w :
  fst (handleData updateState getState data rxBuf w) = fst (frames_of data rxBuf)
  ∧ snd (handleData updateState getState data rxBuf w)
    = fold_left (λ w frame, processFrame updateState getState frame w)
                (snd (frames_of data rxBuf)) w.
Proof.
  unfold handleData, frames_of.
  apply (reframe_related
           (λ w' log,
              w' = fold_left (λ w frame, processFrame updateState getState frame w) log w)).
  - intros frame w1 log ->. unfold record_frame. by rewrite fold_left_app.
  - done.
Qed.

End HandleData.

Lemma updateState_same_but_time clock1 clock2 prop value w1 w2 :
  prop ≠ "lastUpdate" →
  same_but_time w1 w2 →
  same_but_time (updateState clock1 prop value w1) (updateState clock2 prop value w2).
Proof.
  intros Hp [Hs Hq]. unfold updateState. rewrite (Hq prop Hp).
  destruct (strict_eq _ _); [done|].
  split; cbn; [by rewrite Hs|].
  intros q Hl. specialize (Hq q Hl). unfold state_get in *; cbn.
  rewrite !(lookup_insert_ne _ "lastUpdate") by done.
  destruct (decide (prop = q)) as [->|Hne].
  - by rewrite !lookup_insert_eq.
  - by rewrite !lookup_insert_ne.
Qed.

Lemma processFrame_same_but_time clock1 clock2 frame w1 w2 :
  same_but_time w1 w2 →
  same_but_time (Icom.processFrame (updateState clock1) getState frame w1)
                (Icom.processFrame (updateState clock2) getState frame w2).
Proof.
  intros HR. unfold Icom.processFrame.
  repeat match goal with
         | |- same_but_time (if ?c then _ else _) (if ?c then _ else _) =>
             destruct c; [try done..]
         end.
  - by apply updateState_same_but_time.
  - unfold getState. rewrite (proj2 HR "mode") by done.
    repeat apply updateState_same_but_time; done.
  - unfold getState. rewrite (proj2 HR "mode") by done.
    by apply updateState_same_but_time.
Qed.

(** C1.  Fed chunk by chunk from an empty buffer, or in a single call with
    the chunks joined, [handleData] returns the same buffer and leaves the
    same state, whatever the injected callbacks are; the frames sliced off
    are the same in the same order, and they are all that acts on the
    state.  With the state store as callback the two runs may even read
    different clocks: what is broadcast and every field but [lastUpdate]
    still agree. *)
Theorem handleData_chunk_independent (chunks : list (list Z)) :
  (∀ (W : Type) (updateState : string → Value → W → W)
     (getState : string → W → Value) (w : W),
     Icom.feed updateState getState chunks [] w
     = Icom.handleData updateState getState (concat chunks) [] w
     ∧ snd (Icom.handleData updateState getState (concat chunks) [] w)
       = fold_left (λ w frame, Icom.processFrame updateState getState frame w)
                   (snd (Icom.frames_of (concat chunks) [])) w)
  ∧ Icom.feed_frames chunks [] = Icom.frames_of (concat chunks) []
  ∧ (∀ clock1 clock2 (w : World),
       let chunked := Icom.feed (updateState clock1) getState chunks [] w in
       let whole := Icom.handleData (updateState clock2) getState (concat chunks) [] w in
       fst chunked = fst whole ∧ same_but_time (snd chunked) (snd whole)).
Proof.
  split; [|split].
  - intros W us gs w. split.
    + rewrite feed_feed_with. apply feed_with_whole.
    + apply handleData_frames.
  - apply (feed_with_whole Icom.record_frame).
  - intros clock1 clock2 w chunked whole. subst chunked whole.
    rewrite feed_feed_with.
    change (Icom.handleData (updateState clock2) getState (concat chunks) [] w)
      with (Icom.reframe (Icom.processFrame (updateState clock2) getState)
                         (concat chunks) w).
    rewrite <- (feed_with_whole (Icom.processFrame (updateState clock2) getState)).
    apply (feed_with_related same_but_time).
    + intros. by apply processFrame_same_but_time.
    + done.
Qed.

(** The frequency reply for 14.074 MHz, split inside the start sentinel:
    nothing happens after the first chunk, one [freq] update after the
    second. *)
Example handleData_split_sentinel :
  let clock := λ _ : nat, 1000%Z in
  let chunk1 := [0xfe]%Z in
  let chunk2 := [0xfe; 0xe0; 0x94; 0x03; 0x00; 0x40; 0x07; 0x14; 0x00; 0xfd]%Z in
  let '(buf1, w1) := Icom.handleData (updateState clock) getState chunk1 [] world0 in
  let '(buf2, w2) := Icom.handleData (updateState clock) getState chunk2 buf1 w1 in
  buf1 = [0xfe]%Z ∧ w1 = world0
  ∧ buf2 = [] ∧ sent w2 = [mkEvent "freq" (VNum 14074000)]
  ∧ state_get w2 "freq" = VNum 14074000.
Proof. vm_compute. done. Qed.

(** ** Frames for other stations *)

Section NotForUs.

Import Icom.

Context {W : Type}.
Variable updateState : string → Value → W → W.
Variable getState : string → W → Value.

Lemma processFrame_other_address frame w :
  byte_at frame 2 ≠ CONTROLLER →
  processFrame updateState getState frame w = w.
Proof.
  intros Hto. unfold processFrame.
  destruct (length frame <? 6)%nat; [done|].
  destruct (negb _ || negb _); [done|].
  apply Z.eqb_neq in Hto. by rewrite Hto.
Qed.

Lemma fold_processFrame_other_address frames : ∀ w,
  Forall (λ frame, byte_at frame 2 ≠ CONTROLLER) frames →
  fold_left (λ w frame, processFrame updateState getState frame w) frames w = w.
Proof.
  induction frames as [|frame rest IH]; intros w Hall; cbn [fold_left]; [done|].
  inversion Hall; subst.
  rewrite processFrame_other_address by done. by apply IH.
Qed.

End NotForUs.

(** C5.  A frame whose [to] byte is not the controller address 0xE0 is
    passed over: whatever the callbacks are the state is returned as it
    was, and [updateState] is not called, whatever the command code and
    the payload.  Hence a call of [handleData] that slices off only such
    frames leaves the state as it was. *)
Theorem handleData_ignores_other_addresses :
  (∀ (W : Type) (updateState : string → Value → W → W)
     (getState : string → W → Value) (frame : list Z) (w : W),
     Icom.byte_at frame 2 ≠ Icom.CONTROLLER →
     Icom.processFrame updateState getState frame w = w)
  ∧ (∀ (getState : string → list (string * Value) → Value) (frame : list Z),
       Icom.byte_at frame 2 ≠ Icom.CONTROLLER →
       Icom.processFrame record_update getState frame [] = [])
  ∧ (∀ (W : Type) (updateState : string → Value → W → W)
       (getState : string → W → Value) (data rxBuf : list Z) (w : W),
       Forall (λ frame, Icom.byte_at frame 2 ≠ Icom.CONTROLLER)
              (snd (Icom.frames_of data rxBuf)) →
       snd (Icom.handleData updateState getState data rxBuf w) = w).
Proof.
  split; [|split].
  - intros. by apply processFrame_other_address.
  - intros. by apply processFrame_other_address.
  - intros W us gs data rxBuf w Hall.
    rewrite (proj2 (handleData_frames us gs data rxBuf w)).
    by apply fold_processFrame_other_address.
Qed.

(** A frequency frame addressed to the radio at 0x94 (the echo of a
    command of ours) changes nothing, alone or followed by more bytes. *)
Lemma handleData_ignores_other_addresses_witness :
  let frame := [0xfe; 0xfe; 0x94; 0xe0; 0x05; 0x00; 0x40; 0x07; 0x14; 0x00; 0xfd]%Z in
  Icom.processFrame (updateState (λ _, 1000%Z)) getState frame world0 = world0
  ∧ Icom.processFrame record_update (λ _ _, VUndef) frame [] = []
  ∧ snd (Icom.handleData (updateState (λ _, 1000%Z)) getState (frame ++ [0xfe]%Z) [] world0)
    = world0.
Proof.
  intros frame.
  destruct handleData_ignores_other_addresses as (H1 & H2 & H3).
  split; [|split].
  - apply H1. vm_compute. discriminate.
  - apply H2. vm_compute. discriminate.
  - apply H3. vm_compute. repeat constructor. discriminate.
Defined.

(** ** The ASCII parsers *)

Section ParseInt.

Local Open Scope Z_scope.

Lemma digits_all_digits s : ∀ acc,
  all_digits s = true →
  digits (Some acc) s = Some (acc * 10 ^ Z.of_nat (String.length s) + decimal s).
Proof.
  induction s as [|c s IH]; intros acc Hd; cbn [digits decimal String.length].
  - f_equal. change (10 ^ Z.of_nat 0) with 1. ring.
  - cbn [all_digits] in Hd. apply andb_true_iff in Hd as [Hc Hs].
    rewrite Hc, IH by done. f_equal. cbn [default]. unfold id.
    rewrite Nat2Z.inj_succ, Z.pow_succ_r by lia. ring.
Qed.

Lemma digit_not_space c : is_digit c = true → is_space c = false.
Proof.
  destruct c as [[] [] [] [] [] [] [] []]; cbn; try discriminate; done.
Qed.

(** On a string of digits [parseInt] reads the number written, and NaN
    when there is none. *)
Lemma parseInt_all_digits s :
  all_digits s = true →
  parseInt s = if (s =? "")%string then VNaN else VNum (decimal s).
Proof.
  destruct s as [|c s]; [done|]. intros Hd.
  cbn [all_digits] in Hd. apply andb_true_iff in Hd as [Hc Hs].
  unfold parseInt. cbn [skip_space]. rewrite (digit_not_space c Hc).
  assert (Hsign : (let '(neg, s2) :=
                    match String c s with
                    | String "-" r => (true, r)
                    | String "+" r => (false, r)
                    | _ => (false, String c s)
                    end in
                  match digits None s2 with
                  | Some n => VNum (if neg then - n else n)
                  | None => VNaN
                  end)
                 = match digits None (String c s) with
                   | Some n => VNum n
                   | None => VNaN
                   end).
  { destruct c as [[] [] [] [] [] [] [] []]; try discriminate Hc; reflexivity. }
  rewrite Hsign. cbn [digits]. rewrite Hc. cbn [default].
  rewrite digits_all_digits by done.
  cbn [String.eqb decimal]. f_equal; unfold id; ring.
Qed.

Lemma decimal_nonneg s : all_digits s = true → 0 ≤ decimal s.
Proof.
  induction s as [|c s IH]; cbn [all_digits decimal]; [done|].
  intros [Hc Hs]%andb_true_iff. specialize (IH Hs).
  assert (0 ≤ digit_val c).
  { destruct c as [[] [] [] [] [] [] [] []]; try discriminate Hc; done. }
  assert (0 ≤ 10 ^ Z.of_nat (String.length s)) by (apply Z.pow_nonneg; lia).
  nia.
Qed.

Lemma gt0_parseInt_all_digits s :
  all_digits s = true →
  gt0 (parseInt s) = (0 <? decimal s)
  ∧ (gt0 (parseInt s) = true → parseInt s = VNum (decimal s)).
Proof.
  intros Hd. rewrite parseInt_all_digits by done.
  destruct s as [|c s]; [done|]. done.
Qed.

End ParseInt.

(** Looking a code up in a table of non-empty tags, with a fallback. *)
Lemma js_or_obj_get table key fallback :
  Forall (λ kv : string * string, snd kv ≠ "") table →
  js_or (obj_get table key) fallback
  = match obj_get table key with VStr m => VStr m | _ => fallback end.
Proof.
  induction 1 as [|[k v] rest Hv _ IH]; cbn [obj_get]; [done|].
  destruct (k =? key); [|done].
  unfold js_or. cbn [truthy snd] in *.
  apply String.eqb_neq in Hv. by rewrite Hv.
Qed.

Lemma Kenwood_MODES_nonempty : Forall (λ kv : string * string, snd kv ≠ "") Kenwood.MODES.
Proof. repeat constructor; discriminate. Qed.

Lemma Yaesu_MODES_nonempty : Forall (λ kv : string * string, snd kv ≠ "") Yaesu.MODES.
Proof. repeat constructor; discriminate. Qed.

Section CompositeStatus.

Variable clock : nat → Z.

(** The three updates of the composite reply, on the state store. *)
Lemma composite_updates (freq : Value) (mode : Value) (ptt : bool) (setptt : bool) w :
  let w1 := if gt0 freq then updateState clock "freq" freq w else w in
  let w2 := updateState clock "mode" mode w1 in
  let w3 := if setptt then updateState clock "ptt" (VBool ptt) w2 else w2 in
  state_get w3 "freq" = (if gt0 freq then freq else state_get w "freq")
  ∧ state_get w3 "mode" = mode
  ∧ state_get w3 "ptt" = (if setptt then VBool ptt else state_get w "ptt")
  ∧ state_get w1 "mode" = state_get w "mode".
Proof.
  intros w1 w2 w3.
  assert (Hm1 : state_get w1 "mode" = state_get w "mode").
  { subst w1. destruct (gt0 freq); [|done].
    by rewrite state_get_updateState_other. }
  assert (Hf1 : state_get w1 "freq" = if gt0 freq then freq else state_get w "freq").
  { subst w1. destruct (gt0 freq); [|done]. by rewrite state_get_updateState. }
  assert (Hp1 : state_get w1 "ptt" = state_get w "ptt").
  { subst w1. destruct (gt0 freq); [|done]. by rewrite state_get_updateState_other. }
  subst w3 w2. repeat split; [| | |done].
  - destruct setptt; rewrite ?state_get_updateState_other by done; done.
  - destruct setptt; rewrite ?state_get_updateState_other by done;
      by rewrite state_get_updateState.
  - destruct setptt; [by rewrite state_get_updateState|].
    by rewrite state_get_updateState_other.
Qed.

Lemma Kenwood_parse_IF resp w :
  (37 ≤ String.length resp)%nat →
  substring 0 2 resp = "IF" →
  all_digits (substring 2 13 resp) = true →
  let w' := Kenwood.parse (updateState clock) getState resp w in
  let f := decimal (substring 2 13 resp) in
  state_get w' "freq" = (if (0 <? f)%Z then VNum f else state_get w "freq")
  ∧ state_get w' "mode"
    = match obj_get Kenwood.MODES (charAt 29 resp) with
      | VStr m => VStr m
      | _ => state_get w "mode"
      end
  ∧ state_get w' "ptt" = VBool (negb (charAt 28 resp =? "0")).
Proof.
  intros Hlen Hcmd Hd w' f. subst w' f.
  unfold Kenwood.parse.
  replace (String.length resp <? 2)%nat with false
    by (symmetry; apply Nat.ltb_ge; lia).
  rewrite Hcmd. cbn [String.eqb Ascii.eqb Bool.eqb andb].
  unfold Kenwood.parse_IF.
  replace (37 <=? String.length resp)%nat with true
    by (symmetry; apply Nat.leb_le; lia).
  destruct (gt0_parseInt_all_digits _ Hd) as [Hgt Hval].
  pose proof (composite_updates (parseInt (substring 2 13 resp))
    (js_or (obj_get Kenwood.MODES (charAt 29 resp))
       (getState "mode"
          (if gt0 (parseInt (substring 2 13 resp))
           then updateState clock "freq" (parseInt (substring 2 13 resp)) w
           else w)))
    (negb (charAt 28 resp =? "0")) true w) as (Hf & Hm & Hp & Hm1).
  cbn zeta in Hf, Hm, Hp, Hm1. cbn zeta.
  rewrite Hf, Hm, Hp. unfold getState. rewrite Hm1.
  rewrite js_or_obj_get by apply Kenwood_MODES_nonempty.
  rewrite <- Hgt.
  repeat split. destruct (gt0 _) eqn:E; [|done]. by apply Hval.
Qed.

Lemma Yaesu_parse_IF resp w :
  (27 ≤ String.length resp)%nat →
  substring 0 2 resp = "IF" →
  all_digits (substring 2 11 resp) = true →
  let w' := Yaesu.parse (updateState clock) getState resp w in
  let f := decimal (substring 2 11 resp) in
  state_get w' "freq" = (if (0 <? f)%Z then VNum f else state_get w "freq")
  ∧ state_get w' "mode"
    = match obj_get Yaesu.MODES (charAt 21 resp) with
      | VStr m => VStr m
      | _ => state_get w "mode"
      end
  ∧ state_get w' "ptt"
    = (if (29 <=? String.length resp)%nat
       then VBool (negb (charAt 28 resp =? "0"))
       else state_get w "ptt").
Proof.
  intros Hlen Hcmd Hd w' f. subst w' f.
  unfold Yaesu.parse.
  replace (String.length resp <? 2)%nat with false
    by (symmetry; apply Nat.ltb_ge; lia).
  rewrite Hcmd. cbn [String.eqb Ascii.eqb Bool.eqb andb].
  unfold Yaesu.parse_IF.
  replace (27 <=? String.length resp)%nat with true
    by (symmetry; apply Nat.leb_le; lia).
  destruct (gt0_parseInt_all_digits _ Hd) as [Hgt Hval].
  pose proof (composite_updates (parseInt (substring 2 11 resp))
    (js_or (obj_get Yaesu.MODES (charAt 21 resp))
       (getState "mode"
          (if gt0 (parseInt (substring 2 11 resp))
           then updateState clock "freq" (parseInt (substring 2 11 resp)) w
           else w)))
    (negb (charAt 28 resp =? "0")) (29 <=? String.length resp)%nat w)
    as (Hf & Hm & Hp & Hm1).
  cbn zeta in Hf, Hm, Hp, Hm1. cbn zeta.
  rewrite Hf, Hm, Hp. unfold getState. rewrite Hm1.
  rewrite js_or_obj_get by apply Yaesu_MODES_nonempty.
  rewrite <- Hgt.
  repeat split. destruct (gt0 _) eqn:E; [|done]. by apply Hval.
Qed.

End CompositeStatus.

(** C4, as amended.  On a composite status reply of the required width
    whose frequency field is made of decimal digits, [parse] on the state
    store leaves [freq] at the number the field writes when that number is
    positive (and as it was otherwise) and [mode] at the tag the mode
    character has in the table (and as it was when the table has none).
    The Kenwood reply is at least 37 characters long, with the frequency
    at 2..12, the TX character at 28 and the mode character at 29, and
    [ptt] is left true exactly when its TX character is not ['0'].  The
    Yaesu reply is at least 27 long, with the frequency at 2..10 and the
    mode character at 21; [ptt] is left true exactly when the character
    at 28 is not ['0'] if the reply is at least 29 long, and as it was if
    the reply is shorter.  In particular the replies for 14074000 Hz, USB,
    TX character ['0'] give [freq = 14074000], [mode = 'USB'],
    [ptt = false] from any state. *)
Theorem parse_composite_status (clock : nat → Z) (w : World) :
  (∀ resp,
     (37 ≤ String.length resp)%nat →
     substring 0 2 resp = "IF" →
     all_digits (substring 2 13 resp) = true →
     let w' := Kenwood.parse (updateState clock) getState resp w in
     let f := decimal (substring 2 13 resp) in
     state_get w' "freq" = (if (0 <? f)%Z then VNum f else state_get w "freq")
     ∧ state_get w' "mode"
       = match obj_get Kenwood.MODES (charAt 29 resp) with
         | VStr m => VStr m
         | _ => state_get w "mode"
         end
     ∧ state_get w' "ptt" = VBool (negb (charAt 28 resp =? "0")))
  ∧ (∀ resp,
       (27 ≤ String.length resp)%nat →
       substring 0 2 resp = "IF" →
       all_digits (substring 2 11 resp) = true →
       let w' := Yaesu.parse (updateState clock) getState resp w in
       let f := decimal (substring 2 11 resp) in
       state_get w' "freq" = (if (0 <? f)%Z then VNum f else state_get w "freq")
       ∧ state_get w' "mode"
         = match obj_get Yaesu.MODES (charAt 21 resp) with
           | VStr m => VStr m
           | _ => state_get w "mode"
           end
       ∧ state_get w' "ptt"
         = (if (29 <=? String.length resp)%nat
            then VBool (negb (charAt 28 resp =? "0"))
            else state_get w "ptt"))
  ∧ (let w' := Kenwood.parse (updateState clock) getState
                 "IF00014074000     +000000000020000000;" w in
     state_get w' "freq" = VNum 14074000
     ∧ state_get w' "mode" = VStr "USB"
     ∧ state_get w' "ptt" = VBool false)
  ∧ (let w' := Yaesu.parse (updateState clock) getState
                 "IF014074000+00000000020000000;" w in
     state_get w' "freq" = VNum 14074000
     ∧ state_get w' "mode" = VStr "USB"
     ∧ state_get w' "ptt" = VBool false).
Proof.
  split; [|split; [|split]].
  - intros resp. apply Kenwood_parse_IF.
  - intros resp. apply Yaesu_parse_IF.
  - apply (Kenwood_parse_IF clock "IF00014074000     +000000000020000000;" w);
      [cbn; lia | reflexivity | reflexivity].
  - apply (Yaesu_parse_IF clock "IF014074000+00000000020000000;" w);
      [cbn; lia | reflexivity | reflexivity].
Qed.

(** The Kenwood reply with an unknown mode character and the transmitter
    keyed, and a Yaesu reply cut before its TX character, on a state that
    already holds a frequency and a mode. *)
Lemma parse_composite_status_witness :
  let w := updateState (λ _, 7%Z) "mode" (VStr "CW")
             (updateState (λ _, 7%Z) "freq" (VNum 7030000) world0) in
  let k := Kenwood.parse (updateState (λ _, 1000%Z)) getState
             "IF00014074000     +0000000001Z0000000;" w in
  let y := Yaesu.parse (updateState (λ _, 1000%Z)) getState
             "IF000000000+0000000002000000" w in
  (state_get k "freq" = VNum 14074000
   ∧ state_get k "mode" = VStr "CW"
   ∧ state_get k "ptt" = VBool true)
  ∧ (state_get y "freq" = VNum 7030000
     ∧ state_get y "mode" = VStr "USB"
     ∧ state_get y "ptt" = VBool false).
Proof.
  intros w k y.
  destruct (parse_composite_status (λ _, 1000%Z) w) as (HK & HY & _ & _).
  assert (L37 : (37 ≤ 38)%nat) by lia.
  assert (L27 : (27 ≤ 28)%nat) by lia.
  split.
  - exact (HK "IF00014074000     +0000000001Z0000000;" L37 eq_refl eq_refl).
  - exact (HY "IF000000000+0000000002000000" L27 eq_refl eq_refl).
Defined.

(** C4 as stated fails for the Yaesu parser: a reply of 27 characters has
    the required width, its frequency and mode are taken, but [ptt] is
    not set from it: it stays true after a transmission and false
    otherwise. *)
Lemma Yaesu_reply_without_tx_keeps_ptt :
  let clock := λ _ : nat, 1000%Z in
  let line := "IF014074000+000000000200000" in
  let keyed := updateState clock "ptt" (VBool true) world0 in
  let a := Yaesu.parse (updateState clock) getState line keyed in
  let b := Yaesu.parse (updateState clock) getState line world0 in
  String.length line = 27%nat
  ∧ (state_get a "freq" = VNum 14074000 ∧ state_get a "mode" = VStr "USB")
  ∧ (state_get b "freq" = VNum 14074000 ∧ state_get b "mode" = VStr "USB")
  ∧ state_get a "ptt" = VBool true
  ∧ state_get b "ptt" = VBool false.
Proof. vm_compute. done. Qed.

(** *** Lines that are dropped *)

Section Dropped.

Context {W : Type}.
Variable us : string → Value → W → W.
Variable gs : string → W → Value.



End Dropped.



Section DroppedOnStore.

Variable clock : nat → Z.




End DroppedOnStore.


(** A number where a line is expected has no [substring]. *)
Example parse_any_number :
  Kenwood.parse_any (updateState (λ _, 1000%Z)) getState (VNum 5) world0
  = Thrown "TypeError: resp.substring is not a function"
  ∧ Kenwood.parse_any (updateState (λ _, 1000%Z)) getState VUndef world0
    = Returned world0.
Proof. split; reflexivity. Qed.


(** ** The plugin registry *)

Section RegistryFacts.

Import Registry.

Context {Env : Type}.
Implicit Types (r : PluginRegistry Env) (p : Proc Env) (inst old : Instance Env).

Lemma switchPlugin_from_none id r p :
  _instance r = None →
  snd (snd (switchPlugin id r p)) = (snd p ++ start_calls id r (fst p))%list
  ∧ _instance (fst (switchPlugin id r p)) = started id r (fst p).
Proof.
  intros Hn. unfold switchPlugin, start_calls, started. rewrite Hn.
  destruct ((id =? "") || (id =? "none")).
  { cbn. by rewrite app_nil_r. }
  destruct (_descriptors r !! id) as [d|].
  2:{ cbn. by rewrite Hn, app_nil_r. }
  unfold run_create. destruct (create d (fst p)) as [e2 [inst|msg]]; [|done].
  unfold invoke. cbn [fst snd].
  destruct (connect inst e2) as [e3 [[]|msg]]; cbn; by rewrite <- app_assoc.
Qed.


Lemma switchPlugin_from_some id r p old :
  _instance r = Some old →
  let e1 := fst (disconnect old (fst p)) in
  snd (snd (switchPlugin id r p))
  = (snd p ++ CMethod (tag old) "disconnect" [] :: start_calls id r e1)%list
  ∧ _instance (fst (switchPlugin id r p)) = started id r e1.
Proof.
  intros Hs e1. subst e1.
  pose proof (switchPlugin_from_none id (set_active None None r)
                (fst (disconnect old (fst p)),
                 (snd p ++ [CMethod (tag old) "disconnect" []])%list) eq_refl)
    as [Ht Hi].
  cbn [fst snd] in Ht, Hi.
  assert (E : switchPlugin id r p
              = switchPlugin id (set_active None None r)
                  (fst (disconnect old (fst p)),
                   (snd p ++ [CMethod (tag old) "disconnect" []])%list)).
  { unfold switchPlugin. rewrite Hs. unfold invoke. cbn [_instance set_active].
    by destruct (disconnect old (fst p)) as [e' o]. }
  rewrite E, Ht, Hi. split; [|done].
  by rewrite <- app_assoc.
Qed.

End RegistryFacts.


(** An flrig instance whose [connect] found no XML-RPC module, so that it
    never connected, is still disconnected, once and first, when the
    plugin is started again. *)
Example switchPlugin_never_connected :
  let clock := λ _ : nat, 1000%Z in
  let old := Flrig.instance clock false 1 ∅ in
  let r := Registry.mkRegistry {["flrig" := Flrig.descriptor clock true 2 ∅]}
             (Some old) (Some "flrig") in
  let e := fst (Registry.connect old (world0, Flrig.mkLocal false false)) in
  let after := Registry.switchPlugin "flrig" r (e, []) in
  e = (world0, Flrig.mkLocal false false)
  ∧ snd (snd after)
    = [Registry.CMethod 1 "disconnect" []; Registry.CCreate "flrig";
       Registry.CMethod 2 "connect" []]
  ∧ Registry.tag <$> Registry._instance (fst after) = Some 2%nat
  ∧ state_get (fst (fst (snd after))) "connected" = VBool true.
Proof. vm_compute. done. Qed.


(** ** Disconnecting *)

Section Disconnect.

Variable clock : nat → Z.

Lemma updateState_connected_false w :
  let w' := updateState clock "connected" (VBool false) w in
  state_get w' "connected" = VBool false
  ∧ ∀ q, q ≠ "connected" → q ≠ "lastUpdate" → state_get w' q = state_get w q.
Proof.
  split.
  - by apply state_get_updateState.
  - intros q Hq Hl. by apply state_get_updateState_other.
Qed.

End Disconnect.

(** C7, as amended.  [disconnect()] of the flrig plugin and of the mock
    plugin set [connected] to false and leave every other field but
    [lastUpdate] (so [freq], [mode], [width] and [ptt]) at the value it
    had; so does a plugin switch away from a flrig instance that starts no
    new plugin (the id is empty, ['none'] or unknown). *)
Theorem disconnect_keeps_fields (clock : nat → Z) :
  (∀ e : Flrig.Env,
     let w' := fst (Flrig.disconnect clock e) in
     state_get w' "connected" = VBool false
     ∧ ∀ q, q ≠ "connected" → q ≠ "lastUpdate" → state_get w' q = state_get (fst e) q)
  ∧ (∀ e : Mock.Env,
       let w' := fst (Mock.disconnect clock e) in
       state_get w' "connected" = VBool false
       ∧ ∀ q, q ≠ "connected" → q ≠ "lastUpdate" → state_get w' q = state_get (fst e) q)
  ∧ (∀ id xmlrpc tag commands (r : Registry.PluginRegistry Flrig.Env)
       (p : Registry.Proc Flrig.Env),
       Registry._instance r = Some (Flrig.instance clock xmlrpc tag commands) →
       id = "" ∨ id = "none" ∨ Registry._descriptors r !! id = None →
       let after := Registry.switchPlugin id r p in
       let w' := fst (fst (snd after)) in
       Registry._instance (fst after) = None
       ∧ state_get w' "connected" = VBool false
       ∧ ∀ q, q ≠ "connected" → q ≠ "lastUpdate" →
              state_get w' q = state_get (fst (fst p)) q).
Proof.
  split; [|split].
  - intros e. apply updateState_connected_false.
  - intros e. apply updateState_connected_false.
  - intros id xmlrpc tag commands r p Hi Hid after w'. subst after w'.
    unfold Registry.switchPlugin. rewrite Hi.
    cbn [Registry.invoke Registry.disconnect Flrig.instance fst snd].
    assert (Hnone :
      ((id =? "") || (id =? "none") = true)
      ∨ Registry._descriptors (Registry.set_active None None r) !! id = None).
    { destruct Hid as [->| [->| Hd]]; [by left | by left | by right]. }
    destruct Hnone as [Hb | Hd].
    + rewrite Hb. cbn [fst snd Registry._instance Registry.set_active].
      split; [done|]. apply updateState_connected_false.
    + destruct ((id =? "") || (id =? "none")); rewrite ?Hd;
        cbn [fst snd Registry._instance Registry.set_active];
        (split; [done|]); apply updateState_connected_false.
Qed.

(** A flrig session on 14.074 MHz USB, then the radio type is set to
    none. *)
Lemma disconnect_keeps_fields_witness :
  let clock := λ _ : nat, 1000%Z in
  let inst := Flrig.instance clock true 1 ∅ in
  let e0 := Flrig.connect clock true (world0, Flrig.mkLocal false false) in
  let w := updateState clock "mode" (VStr "USB")
             (updateState clock "freq" (VNum 14074000) (fst e0)) in
  let r := Registry.mkRegistry ∅ (Some inst) (Some "flrig") in
  let after := Registry.switchPlugin "none" r ((w, snd e0), []) in
  let w' := fst (fst (snd after)) in
  state_get w "connected" = VBool true
  ∧ Registry._instance (fst after) = None
  ∧ state_get w' "connected" = VBool false
  ∧ state_get w' "freq" = VNum 14074000
  ∧ state_get w' "mode" = VStr "USB".
Proof.
  intros clock inst e0 w r after w'.
  destruct (disconnect_keeps_fields clock) as (_ & _ & H).
  destruct (H "none" true 1%nat ∅ r ((w, snd e0), []) eq_refl) as (Hi & Hc & Hq);
    [by right; left|].
  split; [reflexivity|]. split; [exact Hi|]. split; [exact Hc|].
  split.
  - subst w'. rewrite Hq by discriminate. reflexivity.
  - subst w'. rewrite Hq by discriminate. reflexivity.
Defined.

(** C7 as stated fails: after [disconnect()] the frequency and the mode
    are the ones last reported, not the initial 0 and ['']. *)
Lemma disconnect_does_not_reset :
  let clock := λ _ : nat, 1000%Z in
  let e0 := Flrig.connect clock true (world0, Flrig.mkLocal false false) in
  let w := updateState clock "mode" (VStr "USB")
             (updateState clock "freq" (VNum 14074000) (fst e0)) in
  let w' := fst (Flrig.disconnect clock (w, snd e0)) in
  state_get w' "connected" = VBool false
  ∧ state_get w' "freq" = VNum 14074000
  ∧ state_get w' "freq" ≠ state_get world0 "freq"
  ∧ state_get w' "mode" ≠ state_get world0 "mode".
Proof. vm_compute. repeat split; congruence. Qed.

(** ** Dispatch and the PTT gate *)

(** What [typeof inst[method] === 'function'] comes to for an inherited
    name: every name of [Object.prototype] but [__proto__] is a
    function. *)
Lemma inherited_method_None {Env : Type} (inst : Registry.Instance Env) (method : string) :
  Registry.inherited_method inst method = None
  ↔ inherited method = false ∨ method = "__proto__".
Proof.
  unfold Registry.inherited_method.
  destruct (String.eqb_spec method "__defineGetter__") as [->|H1].
  { cbn. split; [done | by intros [|]]. }
  destruct (String.eqb_spec method "__defineSetter__") as [->|H2].
  { cbn. split; [done | by intros [|]]. }
  cbn [orb].
  destruct (String.eqb_spec method "toLocaleString") as [->|H3].
  { split; [done | by intros [|]]. }
  destruct (String.eqb_spec method "__proto__") as [->|H4].
  { split; [by right | done]. }
  destruct (inherited method).
  - split; [done | by intros [|]].
  - split; [by left | done].
Qed.

(** C10, as amended.  [dispatch] returns false, with no call made and the
    environment untouched, when no instance is held or the held instance
    has no function under the method name.  Otherwise the function is
    called exactly once with the arguments given; when it returns,
    [dispatch] returns true, and when it throws, so does [dispatch].  The
    instance has no function under a name when the name is neither
    [connect] nor [disconnect] and either the instance has a property of
    that name of its own that is no function, or it has none and inherits
    no function either: the name is none of [Object.prototype], or is
    [__proto__]. *)
Theorem dispatch_spec {Env : Type} (method : string) (args : list Value)
    (r : Registry.PluginRegistry Env) (p : Registry.Proc Env) :
  (Registry._instance r = None →
     Registry.dispatch method args r p = (p, Returned false))
  ∧ (∀ inst,
       Registry._instance r = Some inst →
       Registry.method_of inst method = None →
       Registry.dispatch method args r p = (p, Returned false))
  ∧ (∀ inst f,
       Registry._instance r = Some inst →
       Registry.method_of inst method = Some f →
       let after := f args (fst p) in
       fst (Registry.dispatch method args r p)
       = (fst after, (snd p ++ [Registry.CMethod (Registry.tag inst) method args])%list)
       ∧ snd (Registry.dispatch method args r p)
         = match snd after with
           | Returned _ => Returned true
           | Thrown e => Thrown e
           end)
  ∧ (∀ inst : Registry.Instance Env,
       Registry.method_of inst method = None
       ↔ method ≠ "connect" ∧ method ≠ "disconnect"
         ∧ match Registry.others inst !! method with
           | Some (Registry.MFun _) => False
           | Some (Registry.MVal _) => True
           | None => inherited method = false ∨ method = "__proto__"
           end).
Proof.
  unfold Registry.dispatch. split; [|split; [|split]].
  - intros Hi. by rewrite Hi.
  - intros inst Hi Hm. by rewrite Hi, Hm.
  - intros inst f Hi Hm. rewrite Hi, Hm.
    unfold Registry.invoke.
    by destruct (f args (fst p)) as [e' [[]|msg]].
  - intros inst. unfold Registry.method_of.
    destruct (String.eqb_spec method "connect") as [->|Hc].
    { split; [done | by intros [? _]]. }
    destruct (String.eqb_spec method "disconnect") as [->|Hd].
    { split; [done | by intros (_ & ? & _)]. }
    destruct (Registry.others inst !! method) as [[f|v]|].
    + split; [done | by intros (_ & _ & ?)].
    + done.
    + rewrite inherited_method_None. split; [done | by intros (_ & _ & ?)].
Qed.

(** No instance; a property that is no function; a function of the
    instance; a function every instance inherits. *)
Lemma dispatch_spec_witness :
  Registry.dispatch "setMode" [VStr "USB"] (Registry.mkRegistry ∅ None None)
                    ([] : list Value, [])
  = (([], []), Returned false)
  ∧ Registry.dispatch "version" [] logging_registry ([], [])
    = (([], []), Returned false)
  ∧ Registry.dispatch "setMode" [VStr "USB"] logging_registry ([], [])
    = (([VStr "USB"], [Registry.CMethod 7 "setMode" [VStr "USB"]]),
       Returned true)
  ∧ Registry.dispatch "toString" [] logging_registry ([], [])
    = (([], [Registry.CMethod 7 "toString" []]), Returned true).
Proof.
  split; [|split; [|split]].
  - by apply (dispatch_spec (Env:=list Value)).
  - by eapply (dispatch_spec (Env:=list Value)).
  - destruct (dispatch_spec "setMode" [VStr "USB"] logging_registry ([], []))
      as (_ & _ & H & _).
    destruct (H logging_instance
                (λ args e, ((e ++ args)%list, Returned ()))
                eq_refl eq_refl) as [H1 H2].
    destruct (Registry.dispatch "setMode" [VStr "USB"] logging_registry ([], []))
      as [p o].
    cbn [fst snd] in H1, H2. by rewrite H1, H2.
  - destruct (dispatch_spec "toString" [] logging_registry ([], []))
      as (_ & _ & H & _).
    destruct (H logging_instance (λ _ e, (e, Returned ())) eq_refl eq_refl)
      as [H1 H2].
    destruct (Registry.dispatch "toString" [] logging_registry ([], []))
      as [p o].
    cbn [fst snd] in H1, H2. by rewrite H1, H2.
Defined.

(** Names every instance inherits: [__proto__] is no function,
    [__defineGetter__] throws on an accessor that is no function, and
    [toLocaleString] returns. *)
Example dispatch_inherited_names :
  Registry.dispatch "__proto__" [] logging_registry ([], [])
  = (([], []), Returned false)
  ∧ snd (Registry.dispatch "__defineGetter__" [VStr "x"; VNum 1] logging_registry ([], []))
    = Thrown "TypeError: Object.prototype.__defineGetter__: Expecting function"
  ∧ Registry.dispatch "toLocaleString" [] logging_registry ([], [])
    = (([], [Registry.CMethod 7 "toLocaleString" []]), Returned true).
Proof. vm_compute. done. Qed.

(** C10 as stated fails when the method throws: it is called once, and
    [dispatch] returns nothing. *)
Lemma dispatch_throwing_method :
  Registry.method_of logging_instance "setPTT" ≠ None
  ∧ snd (Registry.dispatch "setPTT" [VBool true] logging_registry ([], []))
    = Thrown "TypeError"
  ∧ snd (Registry.dispatch "setPTT" [VBool true] logging_registry ([], []))
    ≠ Returned true
  ∧ snd (fst (Registry.dispatch "setPTT" [VBool true] logging_registry ([], [])))
    = [Registry.CMethod 7 "setPTT" [VBool true]].
Proof. vm_compute. repeat split; congruence. Qed.

(** C8.  While [pttEnabled] is not set, a request whose [ptt] is truthy
    is answered with status 403 and the error body; the process is left
    as it was: nothing is dispatched to the plugin and the environment,
    the rig state included, is untouched. *)
Theorem post_ptt_rejected {Env : Type} (req_body radio : gmap string Value)
    (registry : Registry.PluginRegistry Env) (p : Registry.Proc Env) :
  truthy (default VUndef (req_body !! "ptt")) = true →
  truthy (default VUndef (radio !! "pttEnabled")) = false →
  Server.post_ptt req_body radio registry p
  = (p, Returned
          (Server.mkResponse 403 [("error", VStr "PTT disabled in configuration")])).
Proof.
  intros Hptt Hen. unfold Server.post_ptt. by rewrite Hptt, Hen.
Qed.

(** The default configuration, and a request to key the transmitter. *)
Lemma post_ptt_rejected_witness :
  Server.post_ptt {["ptt" := VBool true]} {["pttEnabled" := VBool false]}
                  logging_registry ([], [])
  = (([], []), Returned
       (Server.mkResponse 403 [("error", VStr "PTT disabled in configuration")])).
Proof. by apply (post_ptt_rejected (Env:=list Value)). Defined.

(** With [pttEnabled] set the same request reaches the plugin. *)
Example post_ptt_enabled :
  fst (Server.post_ptt {["ptt" := VBool true]} {["pttEnabled" := VBool true]}
                       logging_registry ([], []))
  = ([], [Registry.CMethod 7 "setPTT" [VBool true]]).
Proof. vm_compute. done. Qed.

(* ===================================================================== *)
(** * Further properties *)
(* ===================================================================== *)

(** ** Numbers written and read back *)

Section NumberStrings.

Local Open Scope Z_scope.

Lemma digit_char_spec d :
  0 ≤ d < 10 → is_digit (digit_char d) = true ∧ digit_val (digit_char d) = d.
Proof.
  intros Hd.
  assert (E : d = 0 ∨ d = 1 ∨ d = 2 ∨ d = 3 ∨ d = 4 ∨ d = 5
              ∨ d = 6 ∨ d = 7 ∨ d = 8 ∨ d = 9) by lia.
  clear Hd. repeat (destruct E as [-> | E]); try subst d; split; reflexivity.
Qed.

Lemma digits_of_spec fuel : ∀ z acc,
  0 ≤ z < 10 ^ Z.of_nat fuel →
  all_digits acc = true →
  all_digits (digits_of fuel z acc) = true
  ∧ decimal (digits_of fuel z acc)
    = z * 10 ^ Z.of_nat (String.length acc) + decimal acc.
Proof.
  induction fuel as [|fuel IH]; intros z acc Hz Hacc.
  - change (10 ^ Z.of_nat 0) with 1 in Hz. cbn [digits_of].
    split; [done|]. replace z with 0 by lia. ring.
  - cbn [digits_of].
    destruct (digit_char_spec (z mod 10)) as [Hd Hv];
      [apply Z.mod_pos_bound; lia|].
    assert (Hacc' : all_digits (String (digit_char (z mod 10)) acc) = true).
    { cbn [all_digits]. by rewrite Hd, Hacc. }
    destruct (Z.ltb_spec z 10) as [Hlt|Hge].
    + split; [done|]. cbn [decimal]. rewrite Hv, Z.mod_small by lia. ring.
    + rewrite Nat2Z.inj_succ, Z.pow_succ_r in Hz by lia.
      destruct (IH (z / 10) (String (digit_char (z mod 10)) acc)) as [Ha Hdec].
      * split; [apply Z.div_pos; lia|]. apply Z.div_lt_upper_bound; lia.
      * done.
      * split; [done|]. rewrite Hdec. cbn [decimal String.length]. rewrite Hv.
        rewrite Nat2Z.inj_succ, Z.pow_succ_r by lia.
        pose proof (Z.div_mod z 10 ltac:(lia)) as Hdm.
        set (p := 10 ^ Z.of_nat (String.length acc)) in *.
        rewrite Hdm at 3. ring.
Qed.

Lemma digits_of_length fuel : ∀ z acc k,
  0 ≤ z < 10 ^ Z.of_nat (S k) →
  (String.length (digits_of (S fuel) z acc) ≤ S k + String.length acc)%nat.
Proof.
  induction fuel as [|fuel IH]; intros z acc k Hz.
  - cbn [digits_of]. destruct (z <? 10); cbn [String.length]; lia.
  - change (digits_of (S (S fuel)) z acc)
      with (if z <? 10 then String (digit_char (z mod 10)) acc
            else digits_of (S fuel) (z / 10) (String (digit_char (z mod 10)) acc)).
    destruct (Z.ltb_spec z 10) as [Hlt|Hge]; [cbn [String.length]; lia|].
    destruct k as [|k].
    { change (10 ^ Z.of_nat 1) with 10 in Hz. lia. }
    rewrite (Nat2Z.inj_succ (S k)), Z.pow_succ_r in Hz by lia.
    specialize (IH (z / 10) (String (digit_char (z mod 10)) acc) k).
    cbn [String.length] in IH.
    assert (0 ≤ z / 10 < 10 ^ Z.of_nat (S k)).
    { split; [apply Z.div_pos; lia|]. apply Z.div_lt_upper_bound; lia. }
    specialize (IH ltac:(done)). lia.
Qed.

Lemma digits_of_nonempty fuel z acc : digits_of (S fuel) z acc ≠ EmptyString.
Proof.
  revert z acc. induction fuel as [|fuel IH]; intros z acc.
  - cbn [digits_of]. by destruct (z <? 10).
  - change (digits_of (S (S fuel)) z acc)
      with (if z <? 10 then String (digit_char (z mod 10)) acc
            else digits_of (S fuel) (z / 10) (String (digit_char (z mod 10)) acc)).
    destruct (z <? 10); [done|]. apply IH.
Qed.

Lemma log2_fuel z : 0 ≤ z → z < 10 ^ Z.of_nat (S (Z.to_nat (Z.log2 z))).
Proof.
  intros Hz. rewrite Nat2Z.inj_succ, Z2Nat.id by apply Z.log2_nonneg.
  destruct (Z.eq_dec z 0) as [->|Hnz].
  { change (Z.log2 0) with 0. reflexivity. }
  pose proof (Z.log2_spec z ltac:(lia)) as [_ Hlt].
  eapply Z.lt_le_trans; [exact Hlt|].
  apply Z.pow_le_mono_l. pose proof (Z.log2_nonneg z). lia.
Qed.

(** The string of a non-negative integer is made of digits, has at least
    one, and writes the integer. *)
Lemma number_to_string_spec z :
  0 ≤ z →
  all_digits (number_to_string z) = true
  ∧ decimal (number_to_string z) = z
  ∧ number_to_string z ≠ EmptyString.
Proof.
  intros Hz. unfold number_to_string.
  replace (z <? 0) with false by (symmetry; apply Z.ltb_ge; lia).
  destruct (digits_of_spec (S (Z.to_nat (Z.log2 z))) z EmptyString) as [Ha Hd];
    [split; [done|by apply log2_fuel] | done |].
  split; [done|]. split; [|apply digits_of_nonempty].
  rewrite Hd. cbn [String.length decimal]. change (10 ^ Z.of_nat 0) with 1. ring.
Qed.

Lemma number_to_string_length z k :
  0 ≤ z < 10 ^ Z.of_nat (S k) →
  (String.length (number_to_string z) ≤ S k)%nat.
Proof.
  intros Hz. unfold number_to_string.
  replace (z <? 0) with false by (symmetry; apply Z.ltb_ge; lia).
  pose proof (digits_of_length (Z.to_nat (Z.log2 z)) z EmptyString k Hz) as H.
  cbn [String.length] in H. lia.
Qed.

Lemma length_append (s t : string) :
  String.length (s ++ t) = (String.length s + String.length t)%nat.
Proof. induction s as [|c s IH]; simpl; [done|]. by f_equal. Qed.

Lemma repeat_char_length n c : String.length (repeat_char n c) = n.
Proof. induction n as [|n IH]; simpl; [done|]. by f_equal. Qed.

Lemma padStart_length n c s :
  String.length (padStart n c s) = Nat.max n (String.length s).
Proof. unfold padStart. rewrite length_append, repeat_char_length. lia. Qed.

Lemma all_digits_append s t :
  all_digits (s ++ t) = all_digits s && all_digits t.
Proof.
  induction s as [|c s IH]; simpl; [done|].
  by rewrite IH, andb_assoc.
Qed.

Lemma repeat_zero_digits n :
  all_digits (repeat_char n "0") = true
  ∧ ∀ s, decimal (repeat_char n "0" ++ s) = decimal s.
Proof.
  induction n as [|n [IHa IHd]]; [done|]. split.
  - cbn [repeat_char all_digits]. by rewrite IHa.
  - intros s. simpl. rewrite IHd.
    change (digit_val "0") with 0. ring.
Qed.

(** Padding with zeros keeps the number written. *)
Lemma padStart_zero_spec n s :
  all_digits s = true →
  all_digits (padStart n "0" s) = true
  ∧ decimal (padStart n "0" s) = decimal s.
Proof.
  intros Hs. unfold padStart.
  destruct (repeat_zero_digits (n - String.length s)) as [Ha Hd].
  split; [|apply Hd]. by rewrite all_digits_append, Ha, Hs.
Qed.

Lemma digits_append_nondigit s : ∀ acc c t,
  all_digits s = true → is_digit c = false →
  digits acc (s ++ String c t) = digits acc s.
Proof.
  induction s as [|a s IH]; intros acc c t Hs Hc.
  - simpl. by rewrite Hc.
  - cbn [all_digits] in Hs. apply andb_true_iff in Hs as [Ha Hs].
    simpl. rewrite Ha. by apply IH.
Qed.

Lemma parseInt_digit_head a r :
  is_digit a = true →
  parseInt (String a r)
  = match digits None (String a r) with Some n => VNum n | None => VNaN end.
Proof.
  intros Ha. unfold parseInt. cbn [skip_space]. rewrite (digit_not_space a Ha).
  destruct a as [[] [] [] [] [] [] [] []]; try discriminate Ha; reflexivity.
Qed.

(** [parseInt] stops at the first character that is not a digit. *)
Lemma parseInt_digits_then s c t :
  all_digits s = true → s ≠ EmptyString → is_digit c = false →
  parseInt (s ++ String c t) = VNum (decimal s).
Proof.
  intros Hs Hne Hc. destruct s as [|a s]; [done|].
  pose proof Hs as Hs'. cbn [all_digits] in Hs'.
  apply andb_true_iff in Hs' as [Ha Hs'].
  change (String a s ++ String c t)%string with (String a (s ++ String c t)).
  rewrite (parseInt_digit_head a _ Ha).
  change (String a (s ++ String c t)) with (String a s ++ String c t)%string.
  rewrite digits_append_nondigit by done.
  cbn [digits]. rewrite Ha. rewrite digits_all_digits by done.
  cbn [default decimal]. unfold id. f_equal; ring.
Qed.

Lemma substring_all (s : string) : String.substring 0 (String.length s) s = s.
Proof. induction s as [|c s IH]; simpl; [done|]. by f_equal. Qed.

Lemma substring_from_2 a b r : substring_from 2 (String a (String b r)) = r.
Proof. unfold substring_from. simpl. rewrite Nat.sub_0_r. apply substring_all. Qed.

Lemma substring_prefix (s t : string) :
  String.substring 0 (String.length s) (s ++ t) = s.
Proof.
  induction s as [|c s IH]; simpl; [by destruct t|]. by f_equal.
Qed.

Lemma substring_0_2 a b r :
  substring 0 2 (String a (String b r)) = String a (String b EmptyString).
Proof. unfold substring. simpl. by destruct r. Qed.

End NumberStrings.

(** ** The frequency command of the ASCII families, read back *)

Section FrequencyCommand.

Variable clock : nat → Z.

(** The field written for a frequency that fits in [n] digits. *)
Lemma padded_frequency (n : nat) (hz : Z) :
  (0 ≤ hz < 10 ^ Z.of_nat (S n))%Z →
  let field := padStart (S n) "0" (number_to_string hz) in
  String.length field = S n
  ∧ all_digits field = true
  ∧ decimal field = hz
  ∧ field ≠ EmptyString.
Proof.
  intros Hz field. subst field.
  destruct (number_to_string_spec hz) as (Ha & Hd & Hne); [lia|].
  pose proof (number_to_string_length hz n Hz) as Hl.
  destruct (padStart_zero_spec (S n) _ Ha) as [Hpa Hpd].
  assert (Hlen : String.length (padStart (S n) "0" (number_to_string hz)) = S n).
  { rewrite padStart_length. lia. }
  split; [done|]. split; [done|]. split; [congruence|].
  intros E. rewrite E in Hlen. discriminate.
Qed.

Lemma Kenwood_parse_FA_line field w :
  all_digits field = true → field ≠ EmptyString → (0 < decimal field)%Z →
  Kenwood.parse (updateState clock) getState ("FA" ++ field ++ ";") w
  = updateState clock "freq" (VNum (decimal field)) w.
Proof.
  intros Ha Hne Hpos.
  change ("FA" ++ field ++ ";") with (String "F" (String "A" (field ++ ";"))).
  unfold Kenwood.parse. cbn [String.length Nat.ltb Nat.leb].
  rewrite substring_0_2.
  cbn [String.eqb Ascii.eqb Bool.eqb]. unfold Kenwood.parse_FA.
  rewrite substring_from_2, parseInt_digits_then by done.
  cbn [gt0]. by replace (0 <? decimal field)%Z with true
    by (symmetry; apply Z.ltb_lt; lia).
Qed.

Lemma Yaesu_parse_FA_line field w :
  all_digits field = true → field ≠ EmptyString → (0 < decimal field)%Z →
  Yaesu.parse (updateState clock) getState ("FA" ++ field ++ ";") w
  = updateState clock "freq" (VNum (decimal field)) w.
Proof.
  intros Ha Hne Hpos.
  change ("FA" ++ field ++ ";") with (String "F" (String "A" (field ++ ";"))).
  unfold Yaesu.parse. cbn [String.length Nat.ltb Nat.leb].
  rewrite substring_0_2.
  cbn [String.eqb Ascii.eqb Bool.eqb]. unfold Yaesu.parse_FA.
  rewrite substring_from_2, parseInt_digits_then by done.
  cbn [gt0]. by replace (0 <? decimal field)%Z with true
    by (symmetry; apply Z.ltb_lt; lia).
Qed.

End FrequencyCommand.

(** X1.  For a frequency of at most eleven digits, the Kenwood [setFreq]
    writes one line of 14 characters, [FA], eleven digits and [;], and
    the Kenwood parser reads that line back as the same frequency, changing
    nothing else but [lastUpdate]. *)
Theorem Kenwood_setFreq_read_back (clock : nat → Z) (hz : Z) (w : World) :
  (0 < hz < 10 ^ 11)%Z →
  let line := "FA" ++ padStart 11 "0" (number_to_string hz) ++ ";" in
  Kenwood.setFreq record_line hz [] = [line]
  ∧ String.length line = 14%nat
  ∧ all_digits (substring 2 13 line) = true
  ∧ let w' := Kenwood.parse (updateState clock) getState line w in
    state_get w' "freq" = VNum hz
    ∧ ∀ q, q ≠ "freq" → q ≠ "lastUpdate" → state_get w' q = state_get w q.
Proof.
  intros Hz line. subst line.
  destruct (padded_frequency 10 hz) as (Hl & Ha & Hd & Hne); [lia|].
  set (field := padStart 11 "0" (number_to_string hz)) in *.
  split; [reflexivity|]. split.
  { change ("FA" ++ field ++ ";") with (String "F" (String "A" (field ++ ";"))).
    cbn [String.length]. rewrite length_append, Hl. reflexivity. }
  split.
  { change ("FA" ++ field ++ ";") with (String "F" (String "A" (field ++ ";"))).
    unfold substring. cbn [Nat.min Nat.max Nat.sub String.substring].
    rewrite <- Hl at 1. by rewrite substring_prefix. }
  rewrite Kenwood_parse_FA_line by (done || lia). rewrite Hd. split.
  - by apply state_get_updateState.
  - intros q Hq Hu. by apply state_get_updateState_other.
Qed.

Lemma Kenwood_setFreq_read_back_witness :
  Kenwood.setFreq record_line 14074000 [] = ["FA00014074000;"]
  ∧ state_get (Kenwood.parse (updateState (λ _, 1000%Z)) getState
                 "FA00014074000;" world0) "freq" = VNum 14074000.
Proof.
  destruct (Kenwood_setFreq_read_back (λ _, 1000%Z) 14074000 world0)
    as (Hw & _ & _ & Hf & _); [split; reflexivity|].
  split; [exact Hw | exact Hf].
Defined.

(** X2.  For a frequency of at most nine digits, the Yaesu [setFreq]
    writes one line of 12 characters, [FA], nine digits and [;], and
    the Yaesu parser reads that line back as the same frequency, changing
    nothing else but [lastUpdate]. *)
Theorem Yaesu_setFreq_read_back (clock : nat → Z) (hz : Z) (w : World) :
  (0 < hz < 10 ^ 9)%Z →
  let line := "FA" ++ padStart 9 "0" (number_to_string hz) ++ ";" in
  Yaesu.setFreq record_line hz [] = [line]
  ∧ String.length line = 12%nat
  ∧ all_digits (substring 2 11 line) = true
  ∧ let w' := Yaesu.parse (updateState clock) getState line w in
    state_get w' "freq" = VNum hz
    ∧ ∀ q, q ≠ "freq" → q ≠ "lastUpdate" → state_get w' q = state_get w q.
Proof.
  intros Hz line. subst line.
  destruct (padded_frequency 8 hz) as (Hl & Ha & Hd & Hne); [lia|].
  set (field := padStart 9 "0" (number_to_string hz)) in *.
  split; [reflexivity|]. split.
  { change ("FA" ++ field ++ ";") with (String "F" (String "A" (field ++ ";"))).
    cbn [String.length]. rewrite length_append, Hl. reflexivity. }
  split.
  { change ("FA" ++ field ++ ";") with (String "F" (String "A" (field ++ ";"))).
    unfold substring. cbn [Nat.min Nat.max Nat.sub String.substring].
    rewrite <- Hl at 1. by rewrite substring_prefix. }
  rewrite Yaesu_parse_FA_line by (done || lia). rewrite Hd. split.
  - by apply state_get_updateState.
  - intros q Hq Hu. by apply state_get_updateState_other.
Qed.

Lemma Yaesu_setFreq_read_back_witness :
  Yaesu.setFreq record_line 7074000 [] = ["FA007074000;"]
  ∧ state_get (Yaesu.parse (updateState (λ _, 1000%Z)) getState
                 "FA007074000;" world0) "freq" = VNum 7074000.
Proof.
  destruct (Yaesu_setFreq_read_back (λ _, 1000%Z) 7074000 world0)
    as (Hw & _ & _ & Hf & _); [split; reflexivity|].
  split; [exact Hw | exact Hf].
Defined.


(** ** The transmit lines of the Yaesu family *)

(** X3.  The Yaesu parser looks at the first two characters only: any
    line that starts with [TX] sets [ptt] to true and any line that
    starts with [RX] sets it to false, whatever follows, and nothing else
    but [lastUpdate] changes.  Both lines [setPTT] can write start with
    [TX], so each of them, read as a line from the radio, reports
    transmission. *)
Theorem Yaesu_TX_line_keys (clock : nat → Z) (rest : string) (w : World) :
  (∀ on, ∃ tail, Yaesu.setPTT record_line on [] = ["TX" ++ tail])
  ∧ state_get (Yaesu.parse (updateState clock) getState ("TX" ++ rest) w) "ptt"
    = VBool true
  ∧ state_get (Yaesu.parse (updateState clock) getState ("RX" ++ rest) w) "ptt"
    = VBool false
  ∧ ∀ c q, c = "TX" ∨ c = "RX" → q ≠ "ptt" → q ≠ "lastUpdate" →
      state_get (Yaesu.parse (updateState clock) getState (c ++ rest) w) q
      = state_get w q.
Proof.
  assert (HT : Yaesu.parse (updateState clock) getState ("TX" ++ rest) w
               = updateState clock "ptt" (VBool true) w).
  { change ("TX" ++ rest) with (String "T" (String "X" rest)).
    unfold Yaesu.parse. cbn [String.length Nat.ltb Nat.leb].
    by rewrite substring_0_2. }
  assert (HR : Yaesu.parse (updateState clock) getState ("RX" ++ rest) w
               = updateState clock "ptt" (VBool false) w).
  { change ("RX" ++ rest) with (String "R" (String "X" rest)).
    unfold Yaesu.parse. cbn [String.length Nat.ltb Nat.leb].
    by rewrite substring_0_2. }
  split.
  { intros on. unfold Yaesu.setPTT, record_line.
    destruct (truthy on); [by exists "1;" | by exists "0;"]. }
  rewrite HT, HR. split; [by apply state_get_updateState|].
  split; [by apply state_get_updateState|].
  intros c q [-> | ->] Hq Hu; rewrite ?HT, ?HR;
    by apply state_get_updateState_other.
Qed.

(** ** CI-V frames on the wire *)

Section Framing.

Import Icom.

Lemma find_byte_absent v (l : Bytes) :
  Forall (λ x, x ≠ v) l → find_byte v l = None.
Proof.
  induction 1 as [|x l Hx _ IH]; cbn; [done|].
  destruct (Z.eqb_spec x v); [done|]. by rewrite IH.
Qed.

Lemma find_byte_first v (l r : Bytes) :
  Forall (λ x, x ≠ v) l → find_byte v (l ++ v :: r) = Some (length l).
Proof.
  intros H. rewrite find_byte_app, (find_byte_absent _ _ H). cbn.
  rewrite Z.eqb_refl. cbn. f_equal. lia.
Qed.

Lemma civ_frame_length body : length (civ_frame body) = (length body + 3)%nat.
Proof. unfold civ_frame. cbn. rewrite length_app. cbn. lia. Qed.

Context {W : Type}.
Variable onFrame : Bytes → W → W.

(** Bytes without a start byte are thrown away. *)
Lemma reframe_noise noise w :
  civ_noise noise → reframe onFrame noise w = ([], w).
Proof.
  intros Hn. rewrite reframe_step, indexOf_0.
  by rewrite (find_byte_absent _ _ Hn).
Qed.

(** Noise and then a frame: the noise is skipped, the frame is sliced off
    and the loop goes on with what follows. *)
Lemma reframe_frame noise body rest w :
  civ_noise noise → civ_body body →
  reframe onFrame (noise ++ civ_frame body ++ rest) w
  = reframe onFrame rest (onFrame (civ_frame body) w).
Proof.
  intros Hn Hb. rewrite reframe_step, indexOf_0.
  assert (E1 : find_byte 254 (noise ++ civ_frame body ++ rest) = Some (length noise)).
  { unfold civ_frame. cbn [app]. by apply find_byte_first. }
  rewrite E1, resync_drop, drop_app_length.
  assert (E2 : indexOf 253 2 (civ_frame body ++ rest) = Some (2 + length body)%nat).
  { unfold indexOf, civ_frame. cbn [app drop]. rewrite <- app_assoc. cbn [app].
    by rewrite drop_0, (find_byte_first _ _ _ Hb). }
  rewrite E2.
  replace (2 + length body + 1)%nat with (length (civ_frame body))
    by (rewrite civ_frame_length; lia).
  by rewrite take_app_length, drop_app_length.
Qed.

Lemma civ_stream_cons item items :
  civ_stream (item :: items)
  = (fst item ++ civ_frame (snd item) ++ civ_stream items)%list.
Proof. unfold civ_stream. cbn [map concat]. by rewrite <- app_assoc. Qed.

Lemma reframe_stream items : ∀ tail w,
  Forall (λ item, civ_noise (fst item) ∧ civ_body (snd item)) items →
  civ_noise tail →
  reframe onFrame (civ_stream items ++ tail) w
  = ([], fold_left (λ w item, onFrame (civ_frame (snd item)) w) items w).
Proof.
  induction items as [|item items IH]; intros tail w Hi Ht.
  - cbn. by apply reframe_noise.
  - apply Forall_cons in Hi as [[Hn Hb] Hi].
    rewrite civ_stream_cons, <- !app_assoc, reframe_frame by done.
    cbn [fold_left]. by apply IH.
Qed.

End Framing.

Lemma fold_left_record_frame (items : list (list Z * list Z)) : ∀ log,
  fold_left (λ log item, Icom.record_frame (civ_frame (snd item)) log) items log
  = (log ++ map (λ item, civ_frame (snd item)) items)%list.
Proof.
  induction items as [|item items IH]; intros log; cbn [fold_left map].
  - by rewrite app_nil_r.
  - rewrite IH. unfold Icom.record_frame. by rewrite <- app_assoc.
Qed.

(** X4.  A stream of CI-V frames, each after any noise without a start
    byte and with a body without an end byte, and followed by such noise,
    is sliced back into exactly those frames in their order, however the
    stream was cut into chunks, and the buffer is empty afterwards. *)
Theorem feed_frames_stream (chunks : list (list Z)) (items : list (list Z * list Z))
    (tail : list Z) :
  Forall (λ item, civ_noise (fst item) ∧ civ_body (snd item)) items →
  civ_noise tail →
  concat chunks = (civ_stream items ++ tail)%list →
  Icom.feed_frames chunks [] = ([], map (λ item, civ_frame (snd item)) items).
Proof.
  intros Hi Ht Hc. unfold Icom.feed_frames.
  rewrite feed_with_whole, Hc, reframe_stream by done.
  by rewrite fold_left_record_frame.
Qed.

Lemma feed_frames_stream_witness :
  Icom.feed_frames [[0x00; 0xfe]; [0xfe; 0xe0; 0x94; 0x04]; [0x01; 0xfd; 0xfd; 0xfe; 0xfe];
                    [0xfd; 0x07]]%Z []
  = ([], [[0xfe; 0xfe; 0xe0; 0x94; 0x04; 0x01; 0xfd]; [0xfe; 0xfe; 0xfd]]%Z).
Proof.
  apply (feed_frames_stream _ [([0x00], [0xe0; 0x94; 0x04; 0x01]); ([0xfd], [])]%Z [0x07]%Z).
  - repeat constructor; done.
  - repeat constructor; done.
  - reflexivity.
Defined.

(** ** CI-V reports and commands *)

Section BCDBytes.

Import Icom.
Local Open Scope Z_scope.

Lemma bcd_byte_range hi lo :
  0 ≤ hi < 10 → 0 ≤ lo < 10 → 0 ≤ Z.lor (Z.shiftl hi 4) lo ≤ 0x99.
Proof.
  intros Hhi Hlo.
  assert (Eh : hi = 0 ∨ hi = 1 ∨ hi = 2 ∨ hi = 3 ∨ hi = 4 ∨ hi = 5
               ∨ hi = 6 ∨ hi = 7 ∨ hi = 8 ∨ hi = 9) by lia.
  assert (El : lo = 0 ∨ lo = 1 ∨ lo = 2 ∨ lo = 3 ∨ lo = 4 ∨ lo = 5
               ∨ lo = 6 ∨ lo = 7 ∨ lo = 8 ∨ lo = 9) by lia.
  clear Hhi Hlo.
  repeat (destruct Eh as [-> | Eh]); try subst hi;
    repeat (destruct El as [-> | El]); try subst lo;
    split; apply Z.leb_le; reflexivity.
Qed.

(** The encoder appends one packed byte a turn. *)
Lemma freqToBCD_loop_bytes n : ∀ f bytes,
  0 ≤ f →
  ∃ more, freqToBCD_loop n f bytes = (bytes ++ more)%list
          ∧ length more = n
          ∧ Forall (λ b, 0 ≤ b ≤ 0x99) more.
Proof.
  induction n as [|n IH]; intros f bytes Hf; cbn [freqToBCD_loop].
  - exists []. by rewrite app_nil_r.
  - assert (H10 : 0 ≤ f / 10) by (apply Z.div_pos; lia).
    assert (H100 : 0 ≤ f / 10 / 10) by (apply Z.div_pos; lia).
    destruct (IH (f / 10 / 10)
                 (bytes ++ [Z.lor (Z.shiftl (Z.rem (f / 10) 10) 4) (Z.rem f 10)])%list
                 H100) as (more & -> & Hl & Hr).
    eexists (_ :: more). rewrite <- app_assoc. cbn [app].
    split; [reflexivity|]. split; [cbn; lia|].
    constructor; [|done].
    rewrite !Z.rem_mod_nonneg by lia.
    apply bcd_byte_range; apply Z.mod_pos_bound; lia.
Qed.

Lemma freqToBCD_bytes f :
  0 ≤ f →
  ∃ b0 b1 b2 b3 b4,
    freqToBCD f = [b0; b1; b2; b3; b4]
    ∧ Forall (λ b, 0 ≤ b ≤ 0x99) [b0; b1; b2; b3; b4].
Proof.
  intros Hf. unfold freqToBCD.
  destruct (freqToBCD_loop_bytes 5 f [] Hf) as (more & -> & Hl & Hr).
  cbn [app].
  do 5 (destruct more as [|? more]; [discriminate|]).
  destruct more; [|discriminate]. by repeat eexists.
Qed.

Lemma bcd_decode_encode f : 0 ≤ f < 10 ^ 10 → bcdToFreq (freqToBCD f) = f.
Proof.
  intros [Hf Hlt]. unfold bcdToFreq, freqToBCD.
  rewrite bcd_decode_encode_loop by done. cbn [fold_left fst snd].
  change (100 ^ Z.of_nat 5) with (10 ^ 10).
  rewrite Z.mod_small by lia. lia.
Qed.

Lemma to_buffer_bytes (l : Bytes) :
  Forall (λ b, 0 ≤ b < 256) l → to_buffer l = l.
Proof.
  unfold to_buffer. induction 1 as [|b l Hb _ IH]; cbn [map]; [done|].
  rewrite IH. f_equal. by apply Z.mod_small.
Qed.

End BCDBytes.

Section Reports.

Import Icom.

Variable clock : nat → Z.

(** X5 below: a frequency report is decoded. *)
Lemma processFrame_frequency_report {W : Type} (us : string → Value → W → W)
    (gs : string → W → Value) from cmd f w :
  (cmd = 0x03 ∨ cmd = 0x00)%Z → (0 < f < 10 ^ 10)%Z →
  processFrame us gs (civ_frame ([0xe0; from; cmd]%Z ++ freqToBCD f)) w
  = us "freq" (VNum f) w.
Proof.
  intros Hc Hf.
  pose proof (bcd_decode_encode f ltac:(lia)) as Hd.
  destruct (freqToBCD_bytes f) as (b0 & b1 & b2 & b3 & b4 & E & _); [lia|].
  rewrite E in *. unfold processFrame, civ_frame.
  cbn [app length Nat.ltb Nat.leb byte_at nth slice drop take Nat.sub].
  change (254 =? 254)%Z with true. cbn [negb orb].
  change (224 =? CONTROLLER)%Z with true. cbn [negb].
  replace ((cmd =? 3)%Z || (cmd =? 0)%Z) with true
    by (destruct Hc as [-> | ->]; reflexivity).
  rewrite Hd. by replace (0 <? f)%Z with true by (symmetry; apply Z.ltb_lt; lia).
Qed.

Lemma civ_body_report from cmd (data : Bytes) :
  from ≠ 0xfd%Z → cmd ≠ 0xfd%Z → civ_body data →
  civ_body ([0xe0; from; cmd]%Z ++ data).
Proof. intros Hf Hc Hd. unfold civ_body. cbn [app]. by repeat constructor. Qed.

Lemma civ_body_bcd f : (0 ≤ f)%Z → civ_body (freqToBCD f).
Proof.
  intros Hf. destruct (freqToBCD_bytes f Hf) as (b0 & b1 & b2 & b3 & b4 & -> & Hr).
  unfold civ_body. eapply Forall_impl; [exact Hr|]. cbn. lia.
Qed.

Lemma civ_noise_bcd f : (0 ≤ f)%Z → civ_noise (freqToBCD f).
Proof.
  intros Hf. destruct (freqToBCD_bytes f Hf) as (b0 & b1 & b2 & b3 & b4 & -> & Hr).
  unfold civ_noise. eapply Forall_impl; [exact Hr|]. cbn. lia.
Qed.

End Reports.

(** X5.  A frequency report or update for the controller (command 0x03
    or 0x00) from any radio address, carrying the five BCD bytes of a
    positive frequency of at most ten digits, after any noise without a
    start byte: the state store holds that frequency afterwards, the
    client is told once unless the frequency is the one already held,
    nothing else but [lastUpdate] changes, and the buffer is left
    empty. *)
Theorem Icom_frequency_report_read (clock : nat → Z) (noise : list Z) (from cmd f : Z)
    (w : World) :
  civ_noise noise → from ≠ 0xfd%Z → (cmd = 0x03 ∨ cmd = 0x00)%Z →
  (0 < f < 10 ^ 10)%Z →
  let report := (noise ++ civ_frame ([0xe0; from; cmd]%Z ++ Icom.freqToBCD f))%list in
  let out := Icom.handleData (updateState clock) getState report [] w in
  fst out = []
  ∧ snd out = updateState clock "freq" (VNum f) w
  ∧ state_get (snd out) "freq" = VNum f
  ∧ (state_get w "freq" = VNum f → snd out = w)
  ∧ (state_get w "freq" ≠ VNum f →
     sent (snd out) = (sent w ++ [mkEvent "freq" (VNum f)])%list)
  ∧ ∀ q, q ≠ "freq" → q ≠ "lastUpdate" → state_get (snd out) q = state_get w q.
Proof.
  intros Hn Hfrom Hc Hf report out. subst out report.
  unfold Icom.handleData. rewrite app_nil_l.
  rewrite <- (app_nil_r (civ_frame _)), reframe_frame, reframe_nil;
    [|done|apply civ_body_report; [done|destruct Hc as [-> | ->]; done
                                  |apply civ_body_bcd; lia]].
  cbn [fst snd]. rewrite processFrame_frequency_report by done.
  split; [done|]. split; [done|]. split; [by apply state_get_updateState|].
  split; [|split].
  - intros E. apply updateState_same. rewrite E. by apply strict_eq_refl.
  - intros E. rewrite updateState_changed; [done|].
    destruct (strict_eq (state_get w "freq") (VNum f)) eqn:Es; [|done].
    by apply strict_eq_true in Es.
  - intros q Hq Hu. by apply state_get_updateState_other.
Qed.

Lemma Icom_frequency_report_read_witness :
  let out := Icom.handleData (updateState (λ _, 1000%Z)) getState
               [0x07; 0xfe; 0xfe; 0xe0; 0x94; 0x03; 0x00; 0x40; 0x07; 0x14; 0x00; 0xfd]%Z
               [] world0 in
  fst out = [] ∧ state_get (snd out) "freq" = VNum 14074000.
Proof.
  destruct (Icom_frequency_report_read (λ _, 1000%Z) [0x07]%Z 0x94 0x03 14074000 world0)
    as (Hb & _ & Hs & _).
  - repeat constructor; done.
  - done.
  - by left.
  - split; reflexivity.
  - split; [exact Hb | exact Hs].
Defined.

Section ModeReports.

Import Icom.

(** Every tag of the mode table is a non-empty string. *)
Lemma modes_get_MODES code :
  modes_get MODES code = VUndef
  ∨ ∃ tag, modes_get MODES code = VStr tag ∧ truthy (VStr tag) = true.
Proof.
  unfold MODES. cbn [modes_get].
  repeat (match goal with
          | |- context [(?k =? code)%Z] => destruct (k =? code)%Z
          end; [right; eexists; split; reflexivity|]).
  by left.
Qed.

Context {W : Type}.
Variable us : string → Value → W → W.
Variable gs : string → W → Value.

Lemma processFrame_mode_report from cmd code filter w :
  (cmd = 0x04 ∨ cmd = 0x01)%Z →
  processFrame us gs (civ_frame [0xe0; from; cmd; code; filter]%Z) w
  = us "width" (VNum filter)
       (us "mode" (js_or (modes_get MODES code) (gs "mode" w)) w).
Proof.
  intros Hc. unfold processFrame, civ_frame.
  cbn [app length Nat.ltb Nat.leb byte_at nth].
  change (254 =? 254)%Z with true. cbn [negb orb].
  change (224 =? CONTROLLER)%Z with true. cbn [negb].
  by destruct Hc as [-> | ->].
Qed.

Lemma processFrame_short_mode_report from cmd code w :
  (cmd = 0x04 ∨ cmd = 0x01)%Z →
  processFrame us gs (civ_frame [0xe0; from; cmd; code]%Z) w
  = us "mode" (js_or (modes_get MODES code) (gs "mode" w)) w.
Proof.
  intros Hc. unfold processFrame, civ_frame.
  cbn [app length Nat.ltb Nat.leb byte_at nth].
  change (254 =? 254)%Z with true. cbn [negb orb].
  change (224 =? CONTROLLER)%Z with true. cbn [negb].
  by destruct Hc as [-> | ->].
Qed.

(** A frame with a command the loop has no case for. *)
Lemma processFrame_other_command frame w :
  byte_at frame 4 ≠ 0x00%Z → byte_at frame 4 ≠ 0x01%Z →
  byte_at frame 4 ≠ 0x03%Z → byte_at frame 4 ≠ 0x04%Z →
  processFrame us gs frame w = w.
Proof.
  intros H0 H1 H3 H4. unfold processFrame.
  destruct (length frame <? 6)%nat; [done|].
  destruct (negb _ || negb _); [done|].
  destruct (negb _); [done|].
  apply Z.eqb_neq in H0, H1, H3, H4. by rewrite H0, H1, H3, H4.
Qed.

(** A frame of fewer than six bytes. *)
Lemma processFrame_short frame w :
  (length frame < 6)%nat → processFrame us gs frame w = w.
Proof.
  intros Hl. unfold processFrame.
  by replace (length frame <? 6)%nat with true by (symmetry; apply Nat.ltb_lt; lia).
Qed.

End ModeReports.

(** X6.  A mode report or update for the controller (command 0x04 or
    0x01), after any noise without a start byte.  With a filter byte, the
    store holds the tag of the mode code and the filter byte as [width]
    afterwards; a code that is not in the table leaves [mode] as it was,
    and [width] is set all the same.  Without a filter byte, [width] is
    left as it was.  Nothing but [mode], [width] and [lastUpdate] changes,
    and the buffer is left empty. *)
Theorem Icom_mode_report_read (clock : nat → Z) (noise : list Z)
    (from cmd code filter : Z) (w : World) :
  civ_noise noise → from ≠ 0xfd%Z → (cmd = 0x04 ∨ cmd = 0x01)%Z →
  code ≠ 0xfd%Z → filter ≠ 0xfd%Z →
  let long := Icom.handleData (updateState clock) getState
                (noise ++ civ_frame [0xe0; from; cmd; code; filter]%Z) [] w in
  let short := Icom.handleData (updateState clock) getState
                (noise ++ civ_frame [0xe0; from; cmd; code]%Z) [] w in
  (fst long = [] ∧ fst short = [])
  ∧ (∀ tag, Icom.modes_get Icom.MODES code = VStr tag →
       state_get (snd long) "mode" = VStr tag
       ∧ state_get (snd short) "mode" = VStr tag)
  ∧ (Icom.modes_get Icom.MODES code = VUndef →
       state_get (snd long) "mode" = state_get w "mode"
       ∧ state_get (snd short) "mode" = state_get w "mode")
  ∧ state_get (snd long) "width" = VNum filter
  ∧ state_get (snd short) "width" = state_get w "width"
  ∧ ∀ q, q ≠ "mode" → q ≠ "width" → q ≠ "lastUpdate" →
      state_get (snd long) q = state_get w q
      ∧ state_get (snd short) q = state_get w q.
Proof.
  intros Hn Hfrom Hc Hcode Hfilter long short. subst long short.
  assert (Hcmd : cmd ≠ 0xfd%Z) by (destruct Hc as [-> | ->]; done).
  unfold Icom.handleData. rewrite !app_nil_l.
  rewrite <- (app_nil_r (civ_frame [_; _; _; _; _])), reframe_frame, reframe_nil;
    [|done|by repeat constructor].
  rewrite <- (app_nil_r (civ_frame [_; _; _; _])), reframe_frame, reframe_nil;
    [|done|by repeat constructor].
  cbn [fst snd].
  rewrite processFrame_mode_report, processFrame_short_mode_report by done.
  unfold getState.
  remember (js_or (Icom.modes_get Icom.MODES code) (state_get w "mode")) as mode
    eqn:Emode.
  assert (Hlong : state_get (updateState clock "width" (VNum filter)
                               (updateState clock "mode" mode w)) "mode" = mode).
  { rewrite state_get_updateState_other by done. by apply state_get_updateState. }
  assert (Hshort : state_get (updateState clock "mode" mode w) "mode" = mode)
    by by apply state_get_updateState.
  split; [done|]. split; [|split; [|split; [|split]]].
  - intros tag E. rewrite Hlong, Hshort. subst mode.
    destruct (modes_get_MODES code) as [E' | (tag' & E' & Ht)]; [congruence|].
    unfold js_or. rewrite E', Ht. rewrite <- E. by rewrite E'.
  - intros E. rewrite Hlong, Hshort. subst mode. by rewrite E.
  - by apply state_get_updateState.
  - by apply state_get_updateState_other.
  - intros q Hm Hw Hu.
    by rewrite !state_get_updateState_other by done.
Qed.

Lemma Icom_mode_report_read_witness :
  let long := Icom.handleData (updateState (λ _, 1000%Z)) getState
                [0xfe; 0xfe; 0xe0; 0x94; 0x04; 0x01; 0x02; 0xfd]%Z [] world0 in
  state_get (snd long) "mode" = VStr "USB"
  ∧ state_get (snd long) "width" = VNum 2.
Proof.
  destruct (Icom_mode_report_read (λ _, 1000%Z) [] 0x94 0x04 0x01 0x02 world0)
    as (_ & Hm & _ & Hw & _).
  - constructor.
  - done.
  - by left.
  - done.
  - done.
  - split; [exact (proj1 (Hm "USB" eq_refl)) | exact Hw].
Defined.

Section Echo.

Import Icom.

Context {W : Type}.
Variable us : string → Value → W → W.
Variable gs : string → W → Value.

(** A command frame of ours, heard back: whatever the address of the
    radio, nothing is made of it. *)
Lemma handleData_command_echo (r cmd : Z) (data : Bytes) w :
  (cmd = 0x05 ∨ cmd = 0x1c)%Z → civ_body data → civ_noise data →
  handleData us gs (civ_frame (r :: 0xe0%Z :: cmd :: data)) [] w = ([], w).
Proof.
  intros Hc Hb Hn. unfold handleData. rewrite app_nil_l.
  assert (Hcmd : cmd ≠ 0xfd%Z ∧ cmd ≠ 0xfe%Z) by (destruct Hc as [-> | ->]; done).
  destruct (Z.eq_dec r 0xfd%Z) as [-> | Hr].
  - (* the address is the end byte: the frame stops there, and the rest
       holds no start byte *)
    pose proof (reframe_frame (processFrame us gs) [] []
                  (0xe0%Z :: cmd :: data ++ [0xfd%Z]) w) as H.
    rewrite app_nil_l in H.
    change (civ_frame [] ++ 224%Z :: cmd :: data ++ [253%Z])%list
      with (civ_frame (253%Z :: 224%Z :: cmd :: data)) in H.
    rewrite H by constructor.
    rewrite processFrame_short by (cbn; lia).
    apply reframe_noise. unfold civ_noise.
    constructor; [done|]. constructor; [tauto|].
    apply Forall_app. split; [done|]. by constructor.
  - pose proof (reframe_frame (processFrame us gs) []
                  (r :: 0xe0%Z :: cmd :: data) [] w) as H.
    rewrite app_nil_l, app_nil_r in H.
    rewrite H; [|constructor|].
    + rewrite reframe_nil. f_equal.
      apply processFrame_other_command; unfold civ_frame; cbn [byte_at nth app];
        destruct Hc as [-> | ->]; done.
    + unfold civ_body. constructor; [done|]. constructor; [done|].
      constructor; [tauto|done].
Qed.

End Echo.

(** X7.  [setFreq] writes one frame: the start bytes, the address of the
    radio reduced to a byte, the controller address, command 0x05, the
    five BCD bytes and the end byte; [setPTT] writes one frame with
    command 0x1C, sub-command 0 and the byte 1 or 0.  Heard back on the
    bus, neither is taken for a report, whatever the address of the radio:
    [handleData] leaves the state as it was and the buffer empty. *)
Theorem Icom_command_echo_ignored {W : Type} (us : string → Value → W → W)
    (gs : string → W → Value) (rig hz : Z) (on : Value) (w : W) :
  (0 ≤ hz)%Z →
  Icom.setFreq record_bytes hz rig []
  = [civ_frame ((rig mod 256)%Z :: 0xe0%Z :: 0x05%Z :: Icom.freqToBCD hz)]
  ∧ Icom.setPTT record_bytes on rig []
    = [civ_frame [(rig mod 256)%Z; 0xe0%Z; 0x1c%Z; 0x00%Z;
                  if truthy on then 0x01%Z else 0x00%Z]]
  ∧ Forall (λ packet, Icom.handleData us gs packet [] w = ([], w))
           (Icom.setFreq record_bytes hz rig []
              ++ Icom.setPTT record_bytes on rig [])%list.
Proof.
  intros Hz.
  assert (Ef : Icom.setFreq record_bytes hz rig []
               = [civ_frame ((rig mod 256)%Z :: 0xe0%Z :: 0x05%Z :: Icom.freqToBCD hz)]).
  { unfold Icom.setFreq, Icom.buildCmd, record_bytes, civ_frame.
    pose proof (freqToBCD_bytes hz Hz) as (b0 & b1 & b2 & b3 & b4 & -> & Hr).
    cbn [app Icom.to_buffer map].
    repeat match goal with
           | H : Forall _ (_ :: _) |- _ => apply Forall_cons in H as [? H]
           end.
    by rewrite !(Z.mod_small b0), !(Z.mod_small b1), !(Z.mod_small b2),
      !(Z.mod_small b3), !(Z.mod_small b4) by lia. }
  assert (Ep : Icom.setPTT record_bytes on rig []
               = [civ_frame [(rig mod 256)%Z; 0xe0%Z; 0x1c%Z; 0x00%Z;
                             if truthy on then 0x01%Z else 0x00%Z]]).
  { unfold Icom.setPTT, Icom.buildCmd, record_bytes, civ_frame.
    cbn [app Icom.to_buffer map]. by destruct (truthy on). }
  split; [done|]. split; [done|].
  rewrite Ef, Ep. cbn [app]. constructor; [|constructor; [|constructor]].
  - apply handleData_command_echo; [by left|by apply civ_body_bcd|by apply civ_noise_bcd].
  - apply handleData_command_echo; [by right| |];
      destruct (truthy on); by repeat constructor.
Qed.

Lemma Icom_command_echo_ignored_witness :
  Icom.setFreq record_bytes 14074000 0x94 []
  = [[0xfe; 0xfe; 0x94; 0xe0; 0x05; 0x00; 0x40; 0x07; 0x14; 0x00; 0xfd]%Z]
  ∧ Icom.handleData (updateState (λ _, 1000%Z)) getState
      [0xfe; 0xfe; 0x94; 0xe0; 0x05; 0x00; 0x40; 0x07; 0x14; 0x00; 0xfd]%Z [] world0
    = ([], world0).
Proof.
  destruct (Icom_command_echo_ignored (updateState (λ _, 1000%Z)) getState
              0x94 14074000 (VBool true) world0) as (Hf & _ & Hall); [lia|].
  split; [exact Hf|].
  exact (Forall_inv Hall).
Defined.

(** ** What the loop leaves in the buffer *)

Section Buffer.

Import Icom.

Lemma find_byte_drop v (buf : Bytes) i :
  find_byte v buf = Some i → ∃ t, drop i buf = v :: t.
Proof.
  revert i; induction buf as [|x buf IH]; intros i; cbn [find_byte]; [done|].
  destruct (Z.eqb_spec x v) as [-> | Hx].
  - intros [= <-]. by exists buf.
  - destruct (find_byte v buf) as [j|]; cbn; [|done].
    intros [= <-]. cbn [drop]. by apply IH.
Qed.

Context {W : Type}.
Variable onFrame : Bytes → W → W.

Lemma reframe_buffer (buf : Bytes) : ∀ w,
  (fst (reframe onFrame buf w) = []
   ∨ (∃ t, fst (reframe onFrame buf w) = 0xfe%Z :: t)
     ∧ indexOf 0xfd 2 (fst (reframe onFrame buf w)) = None)
  ∧ ∃ pre, buf = (pre ++ fst (reframe onFrame buf w))%list.
Proof.
  remember (length buf) as n eqn:Hn. revert buf Hn.
  induction n as [n IH] using lt_wf_ind. intros buf -> w.
  rewrite reframe_step.
  destruct (indexOf 254 0 buf) as [start|] eqn:Hs.
  - rewrite indexOf_0 in Hs. rewrite resync_drop.
    destruct (indexOf 253 2 (drop start buf)) as [e|] eqn:He.
    + pose proof (indexOf_lt _ _ _ _ He) as Hlt. rewrite length_drop in Hlt.
      destruct (IH (length (drop (e + 1) (drop start buf)))
                  ltac:(rewrite !length_drop; lia) _ eq_refl
                  (onFrame (take (e + 1) (drop start buf)) w))
        as [Hshape [pre Hpre]].
      split; [exact Hshape|].
      exists (take start buf ++ take (e + 1) (drop start buf) ++ pre)%list.
      rewrite <- !app_assoc, <- Hpre, !take_drop. done.
    + cbn [fst]. split.
      * right. split; [by apply find_byte_drop|done].
      * exists (take start buf). by rewrite take_drop.
  - cbn [fst]. split; [by left|]. exists buf. by rewrite app_nil_r.
Qed.

End Buffer.

(** X8.  The buffer [handleData] returns is empty, or it starts with a
    start byte and holds no end byte from its third byte on; it is the
    end of the bytes the call was given; and a further call without new
    data returns it as it is and leaves the state alone. *)
Theorem handleData_buffer_kept {W : Type} (us : string → Value → W → W)
    (gs : string → W → Value) (data rxBuf : list Z) (w : W) :
  let out := Icom.handleData us gs data rxBuf w in
  (fst out = []
   ∨ (∃ t, fst out = 0xfe%Z :: t) ∧ Icom.indexOf 0xfd 2 (fst out) = None)
  ∧ (∃ pre, (rxBuf ++ data)%list = (pre ++ fst out)%list)
  ∧ Icom.handleData us gs [] (fst out) (snd out) = out.
Proof.
  intros out. subst out. unfold Icom.handleData.
  destruct (reframe_buffer (Icom.processFrame us gs) (rxBuf ++ data) w) as [Hshape Hpre].
  split; [exact Hshape|]. split; [exact Hpre|].
  pose proof (reframe_app (Icom.processFrame us gs) (rxBuf ++ data) w []) as H.
  rewrite !app_nil_r in H. rewrite app_nil_r. by rewrite <- H.
Qed.

(** ** What the loop reports *)

Section Reported.

Import Icom.

Variable gs : string → list (string * Value) → Value.

Lemma processFrame_reports frame log :
  ∃ more, processFrame record_update gs frame log = (log ++ more)%list
          ∧ Forall civ_report more.
Proof.
  unfold processFrame, record_update.
  destruct (length frame <? 6)%nat; [exists []; by rewrite app_nil_r|].
  destruct (negb _ || negb _); [exists []; by rewrite app_nil_r|].
  destruct (negb _); [exists []; by rewrite app_nil_r|].
  destruct (_ || _).
  { destruct (10 <=? length frame)%nat; [|exists []; by rewrite app_nil_r].
    destruct (0 <? bcdToFreq (slice 5 10 frame))%Z eqn:E;
      [|exists []; by rewrite app_nil_r].
    eexists [_]. split; [reflexivity|]. constructor; [|done].
    left. split; [done|]. eexists. split; [reflexivity|]. by apply Z.ltb_lt. }
  destruct (_ || _); [|exists []; by rewrite app_nil_r].
  destruct (7 <=? length frame)%nat; [|exists []; by rewrite app_nil_r].
  destruct (8 <=? length frame)%nat.
  - eexists [_; _]. rewrite <- app_assoc. split; [reflexivity|].
    constructor; [by right; left|]. constructor; [|done].
    right; right. split; [done|]. by eexists.
  - eexists [_]. split; [reflexivity|]. constructor; [by right; left|done].
Qed.

Lemma fold_processFrame_reports frames : ∀ log,
  ∃ more, fold_left (λ w frame, processFrame record_update gs frame w) frames log
          = (log ++ more)%list
          ∧ Forall civ_report more.
Proof.
  induction frames as [|frame frames IH]; intros log; cbn [fold_left].
  - exists []. by rewrite app_nil_r.
  - destruct (processFrame_reports frame log) as (m1 & -> & H1).
    destruct (IH (log ++ m1)%list) as (m2 & -> & H2).
    exists (m1 ++ m2)%list. rewrite <- app_assoc. split; [done|].
    by apply Forall_app.
Qed.

End Reported.

(** X9.  Whatever bytes arrive and whatever the callbacks answer,
    [handleData] calls [updateState] only with a frequency above zero,
    with a mode, or with a filter width: it never reports [ptt] or
    [connected], and never a frequency of zero. *)
Theorem handleData_reports_only (gs : string → list (string * Value) → Value)
    (data rxBuf : list Z) (log : list (string * Value)) :
  ∃ more,
    snd (Icom.handleData record_update gs data rxBuf log) = (log ++ more)%list
    ∧ Forall civ_report more.
Proof.
  rewrite (proj2 (handleData_frames record_update gs data rxBuf log)).
  apply fold_processFrame_reports.
Qed.

(** ** The state store over many updates *)

Section Mirror.

Variable clock : nat → Z.


End Mirror.



(** ** The settings: what is loaded, what is seen and what is saved *)

Section Settings.

Import Config.

Lemma get_set_same s i c :
  (i < length (objects s))%nat → get (set s i c) i = c.
Proof.
  intros Hi. unfold get, set. cbn [objects].
  apply nth_lookup_Some with (d := DEFAULT_CONFIG).
  by apply list_lookup_insert_eq.
Qed.

Lemma get_set_other s i j c : i ≠ j → get (set s i c) j = get s j.
Proof.
  intros Hij. unfold get, set. cbn [objects].
  destruct (objects s !! j) as [x|] eqn:E.
  - rewrite (nth_lookup_Some _ _ _ _ E).
    apply nth_lookup_Some. by rewrite list_lookup_insert_ne.
  - rewrite !nth_overflow; [done| |].
    + by apply lookup_ge_None.
    + rewrite length_insert. by apply lookup_ge_None.
Qed.

(** After a file was read, the module variable names a second object. *)
Lemma loadConfig_Json raw args :
  let s := applyCliArgs args (loadConfig (init (Json raw))) in
  objects s
  = [DEFAULT_CONFIG;
     mkSettings (cli_port args (default (VNum 5555) (raw_port raw)))
                (default ∅ (raw_radio raw) ∪ radio DEFAULT_CONFIG)]
  ∧ config s = 1%nat ∧ file s = Json raw.
Proof. done. Qed.

(** Without one, it goes on naming the object that was exported. *)
Lemma loadConfig_no_Json f args :
  (∀ raw, f ≠ Json raw) →
  let s := applyCliArgs args (loadConfig (init f)) in
  objects s = [mkSettings (cli_port args (VNum 5555)) (radio DEFAULT_CONFIG)]
  ∧ config s = 0%nat ∧ file s = f.
Proof. intros Hf. destruct f as [| |raw]; [done|done|]. by destruct (Hf raw). Qed.

End Settings.

(** X11.  When the settings file holds an object, [loadConfig] assigns a
    new object to its module variable, and the object the other modules
    imported stays as it was: after [loadConfig] and [applyCliArgs], the
    server, the registry and the plugins read the default settings, port
    5555 and radio type none whatever the file and the command line say;
    the start-up [connectActive] starts no plugin; and a POST /api/config
    changes the imported object but saves the other one, so the file
    keeps the settings that were loaded and none of those posted. *)
Theorem loaded_settings_not_seen {Env : Type} (raw : Config.Raw) (args : list string)
    (new_port : Value) (new_radio : option (gmap string Value))
    (registry : Registry.PluginRegistry Env) (p : Registry.Proc Env) :
  let s := Config.applyCliArgs args (Config.loadConfig (Config.init (Config.Json raw))) in
  let seen := Config.get s Config.exported in
  let posted := Server.post_config new_port new_radio true s registry p in
  seen = Config.DEFAULT_CONFIG
  ∧ Registry.connectActive (Some (Config.radio seen)) registry p = (registry, p)
  ∧ Config.get s (Config.config s)
    = Config.mkSettings
        (Config.cli_port args (default (VNum 5555) (Config.raw_port raw)))
        (default ∅ (Config.raw_radio raw) ∪ Config.radio Config.DEFAULT_CONFIG)
  ∧ Config.file (fst (fst (fst posted)))
    = Config.Json (Config.stringify (Config.get s (Config.config s)))
  ∧ Config.get (fst (fst (fst posted))) Config.exported = snd posted
  ∧ Config.get (fst (fst (fst posted))) (Config.config s) = Config.get s (Config.config s).
Proof.
  intros s seen posted.
  destruct (loadConfig_Json raw args) as (Ho & Hc & Hf). fold s in Ho, Hc, Hf.
  assert (Hseen : seen = Config.DEFAULT_CONFIG).
  { subst seen. unfold Config.get. by rewrite Ho. }
  split; [done|]. split.
  { rewrite Hseen. reflexivity. }
  split.
  { unfold Config.get. by rewrite Ho, Hc. }
  subst posted. unfold Server.post_config. fold seen.
  set (c1 := if truthy new_port then _ else _).
  set (c2 := match new_radio with Some _ => _ | None => _ end).
  destruct (Registry.switchPlugin _ registry p) as [r' p']. cbn [fst snd].
  unfold Config.saveConfig. cbn [Config.file Config.set Config.config].
  split; [|split].
  - by rewrite get_set_other by (rewrite Hc; done).
  - change (Config.get (Config.set s Config.exported c2) Config.exported = c2).
    apply get_set_same. rewrite Ho. unfold Config.exported. cbn. lia.
  - change (Config.get (Config.set s Config.exported c2) (Config.config s)
            = Config.get s (Config.config s)).
    by rewrite get_set_other by (rewrite Hc; done).
Qed.

(** X12.  When there is no settings file, or one that cannot be read, the
    module variable still names the object the other modules imported:
    they see the port of the command line, and a POST /api/config saves
    the settings it has just merged. *)
Theorem settings_saved_without_file {Env : Type} (f : Config.File) (args : list string)
    (new_port : Value) (new_radio : option (gmap string Value))
    (registry : Registry.PluginRegistry Env) (p : Registry.Proc Env) :
  (∀ raw, f ≠ Config.Json raw) →
  let s := Config.applyCliArgs args (Config.loadConfig (Config.init f)) in
  let posted := Server.post_config new_port new_radio true s registry p in
  Config.get s Config.exported
  = Config.mkSettings (Config.cli_port args (VNum 5555))
                      (Config.radio Config.DEFAULT_CONFIG)
  ∧ Config.file (fst (fst (fst posted))) = Config.Json (Config.stringify (snd posted))
  ∧ Config.port (snd posted)
    = (if truthy new_port then new_port else Config.cli_port args (VNum 5555))
  ∧ Config.radio (snd posted)
    = match new_radio with
      | Some section => section ∪ Config.radio Config.DEFAULT_CONFIG
      | None => Config.radio Config.DEFAULT_CONFIG
      end.
Proof.
  intros Hf s posted.
  destruct (loadConfig_no_Json f args Hf) as (Ho & Hc & Hfile). fold s in Ho, Hc, Hfile.
  assert (Hseen : Config.get s Config.exported
                  = Config.mkSettings (Config.cli_port args (VNum 5555))
                                      (Config.radio Config.DEFAULT_CONFIG)).
  { unfold Config.get. by rewrite Ho. }
  split; [done|].
  subst posted. unfold Server.post_config. rewrite Hseen.
  set (c1 := if truthy new_port then _ else _).
  set (c2 := match new_radio with Some _ => _ | None => _ end).
  destruct (Registry.switchPlugin _ registry p) as [r' p']. cbn [fst snd].
  unfold Config.saveConfig. cbn [Config.file Config.set Config.config].
  rewrite Hc. split; [|split].
  - f_equal. f_equal.
    change (Config.get (Config.set s Config.exported c2) Config.exported = c2).
    apply get_set_same. rewrite Ho. unfold Config.exported. cbn. lia.
  - subst c2 c1. by destruct new_radio, (truthy new_port).
  - subst c2 c1. by destruct new_radio, (truthy new_port).
Qed.

Lemma settings_saved_without_file_witness :
  let s := Config.applyCliArgs ["--port"; "8080"]
             (Config.loadConfig (Config.init Config.Missing)) in
  let posted := Server.post_config VUndef (Some {["type" := VStr "icom"]}) true s
                  logging_registry ([], []) in
  Config.port (Config.get s Config.exported) = VNum 8080
  ∧ Config.file (fst (fst (fst posted))) = Config.Json (Config.stringify (snd posted))
  ∧ Config.radio (snd posted) !! "type" = Some (VStr "icom").
Proof.
  destruct (settings_saved_without_file Config.Missing ["--port"; "8080"] VUndef
              (Some {["type" := VStr "icom"]}) logging_registry ([], []))
    as (Hs & Hf & _ & Hr); [done|].
  split; [by rewrite Hs|]. split; [exact Hf|]. by rewrite Hr.
Defined.

(** ** The active plugin over many switches *)

Section ActiveId.

Import Registry.

Context {Env : Type}.
Implicit Types (r : PluginRegistry Env).

Lemma switchPlugin_active id r p :
  (_instance r = None → _activeId r = None) →
  _descriptors (fst (switchPlugin id r p)) = _descriptors r
  ∧ ((_instance (fst (switchPlugin id r p)) = None
      ∧ _activeId (fst (switchPlugin id r p)) = None)
     ∨ (is_Some (_instance (fst (switchPlugin id r p)))
        ∧ _activeId (fst (switchPlugin id r p)) = Some id
        ∧ is_Some (_descriptors r !! id) ∧ id ≠ "" ∧ id ≠ "none")).
Proof.
  intros Hcons. unfold switchPlugin.
  set (first := match _instance r with Some _ => _ | None => _ end).
  assert (H1 : _descriptors (fst first) = _descriptors r
               ∧ _instance (fst first) = None ∧ _activeId (fst first) = None).
  { subst first. destruct (_instance r) as [old|] eqn:E.
    - unfold invoke. by destruct (disconnect old (fst p)).
    - cbn. split; [done|]. split; [done|by apply Hcons]. }
  destruct first as [r1 p1]. cbn [fst] in H1. destruct H1 as (Hd & Hi & Ha).
  destruct ((id =? "") || (id =? "none")) eqn:Eid; [by split; [|left]|].
  apply orb_false_iff in Eid as [E1 E2].
  apply String.eqb_neq in E1, E2.
  destruct (_descriptors r1 !! id) as [d|] eqn:Ed; [|by split; [|left]].
  unfold run_create. destruct (create d (fst p1)) as [e2 [inst|msg]];
    [|by split; [|left]].
  unfold invoke. cbn [fst snd].
  destruct (connect inst e2) as [e3 [[]|msg]]; cbn [fst set_active _descriptors
    _instance _activeId]; (split; [done|]); [right|by left].
  rewrite <- Hd, Ed. by repeat split.
Qed.

Lemma run_switches_app ids id (state : PluginRegistry Env * Proc Env) :
  run_switches (ids ++ [id])%list state
  = switchPlugin id (fst (run_switches ids state)) (snd (run_switches ids state)).
Proof. apply fold_left_app. Qed.

End ActiveId.

(** X13.  From the registry the constructor leaves, over any sequence of
    calls of [switchPlugin]: [activeId] is set exactly when an instance
    is held, and then it is the id of the last call, an id that is
    registered and is neither empty nor ['none']; the table of
    descriptors is never touched. *)
Theorem activeId_names_the_instance {Env : Type}
    (descs : gmap string (Registry.Descriptor Env)) (ids : list string)
    (p : Registry.Proc Env) :
  let r' := fst (run_switches ids (Registry.mkRegistry descs None None, p)) in
  Registry._descriptors r' = descs
  ∧ match Registry._activeId r' with
    | None => Registry._instance r' = None
    | Some id =>
        is_Some (Registry._instance r') ∧ last ids = Some id
        ∧ is_Some (descs !! id) ∧ id ≠ "" ∧ id ≠ "none"
    end.
Proof.
  induction ids as [|id ids IH] using rev_ind; [done|].
  rewrite run_switches_app. cbn zeta in *.
  destruct IH as [Hd Hm].
  set (r := fst (run_switches ids (Registry.mkRegistry descs None None, p))) in *.
  set (p1 := snd (run_switches ids (Registry.mkRegistry descs None None, p))).
  destruct (switchPlugin_active id r p1) as [Hd' Hcase].
  { intros Hi. destruct (Registry._activeId r); [|done].
    destruct Hm as ([x Hx] & _). congruence. }
  split; [congruence|].
  destruct Hcase as [[Hi Ha] | (Hi & Ha & Hreg & Hn1 & Hn2)].
  - by rewrite Ha.
  - rewrite Ha, last_snoc. rewrite Hd in Hreg. by repeat split.
Qed.

(** ** The command routes *)

Section Routes.

Import Registry Server.

Context {Env : Type}.

Lemma dispatch_none method args (r : PluginRegistry Env) p :
  _instance r = None → dispatch method args r p = (p, Returned false).
Proof. intros H. unfold dispatch. by rewrite H. Qed.

Lemma dispatch_method method args (r : PluginRegistry Env) p inst f :
  _instance r = Some inst → method_of inst method = Some f →
  dispatch method args r p
  = ((fst (f args (fst p)), (snd p ++ [CMethod (tag inst) method args])%list),
     match snd (f args (fst p)) with
     | Returned _ => Returned true
     | Thrown e => Thrown e
     end).
Proof.
  intros Hi Hm. unfold dispatch. rewrite Hi, Hm. unfold invoke.
  by destruct (f args (fst p)) as [e [[]|msg]].
Qed.

End Routes.

(** X14.  POST /freq and POST /mode.  A value that is missing or falsy
    (a frequency of 0, an empty mode) is answered with 400 and no plugin
    is called.  Any other value is handed to the plugin as it was posted,
    in one call of [setFreq] or [setMode]; and the answer is 200 with
    [success: true] whenever that call returns, and also when no plugin
    is active and nothing was called at all. *)
Theorem post_freq_mode_routes {Env : Type} (req_body : gmap string Value)
    (registry : Registry.PluginRegistry Env) (p : Registry.Proc Env) :
  let freq := default VUndef (req_body !! "freq") in
  let mode := default VUndef (req_body !! "mode") in
  let ok := Returned (Server.mkResponse 200 [("success", VBool true)]) in
  (truthy freq = false →
     Server.post_freq req_body registry p
     = (p, Returned (Server.mkResponse 400 [("error", VStr "Missing freq")])))
  ∧ (truthy mode = false →
     Server.post_mode req_body registry p
     = (p, Returned (Server.mkResponse 400 [("error", VStr "Missing mode")])))
  ∧ (Registry._instance registry = None →
     (truthy freq = true → Server.post_freq req_body registry p = (p, ok))
     ∧ (truthy mode = true → Server.post_mode req_body registry p = (p, ok)))
  ∧ (∀ inst f e',
       Registry._instance registry = Some inst →
       (truthy freq = true →
        Registry.method_of inst "setFreq" = Some f →
        f [freq] (fst p) = (e', Returned ()) →
        Server.post_freq req_body registry p
        = ((e', (snd p ++ [Registry.CMethod (Registry.tag inst) "setFreq" [freq]])%list),
           ok))
       ∧ (truthy mode = true →
          Registry.method_of inst "setMode" = Some f →
          f [mode] (fst p) = (e', Returned ()) →
          Server.post_mode req_body registry p
          = ((e', (snd p ++ [Registry.CMethod (Registry.tag inst) "setMode" [mode]])%list),
             ok))).
Proof.
  intros freq mode ok. unfold Server.post_freq, Server.post_mode.
  fold freq mode. split; [|split; [|split]].
  - intros E. by rewrite E.
  - intros E. by rewrite E.
  - intros Hi. split; intros E; rewrite E; cbn [negb];
      by rewrite dispatch_none.
  - intros inst f e' Hi. split; intros E Hm Hf; rewrite E; cbn [negb];
      rewrite (dispatch_method _ _ _ _ _ _ Hi Hm), Hf; done.
Qed.

Lemma post_freq_mode_routes_witness :
  Server.post_freq {["freq" := VNum 0]} logging_registry ([], [])
  = (([], []), Returned (Server.mkResponse 400 [("error", VStr "Missing freq")]))
  ∧ Server.post_mode {["mode" := VStr "USB"]} logging_registry ([], [])
    = (([VStr "USB"], [Registry.CMethod 7 "setMode" [VStr "USB"]]),
       Returned (Server.mkResponse 200 [("success", VBool true)])).
Proof.
  destruct (post_freq_mode_routes {["freq" := VNum 0]} logging_registry ([], []))
    as (H400 & _).
  destruct (post_freq_mode_routes {["mode" := VStr "USB"]} logging_registry ([], []))
    as (_ & _ & _ & Hcall).
  split; [exact (H400 eq_refl)|].
  refine (proj2 (Hcall logging_instance _ [VStr "USB"] eq_refl) eq_refl eq_refl eq_refl).
Defined.

(** X15.  The transmitter can always be released: a POST /ptt whose [ptt]
    is missing or falsy is never refused, whatever the configuration
    says; it is dispatched as [setPTT(false)]. *)
Theorem post_ptt_release_passes {Env : Type} (req_body radio : gmap string Value)
    (registry : Registry.PluginRegistry Env) (p : Registry.Proc Env) :
  truthy (default VUndef (req_body !! "ptt")) = false →
  fst (Server.post_ptt req_body radio registry p)
  = fst (Registry.dispatch "setPTT" [VBool false] registry p)
  ∧ snd (Server.post_ptt req_body radio registry p)
    = match snd (Registry.dispatch "setPTT" [VBool false] registry p) with
      | Returned _ => Returned (Server.mkResponse 200 [("success", VBool true)])
      | Thrown e => Thrown e
      end.
Proof.
  intros E. unfold Server.post_ptt. rewrite E. cbn [andb].
  by destruct (Registry.dispatch "setPTT" [VBool false] registry p) as [p' [b|msg]].
Qed.

Lemma post_ptt_release_passes_witness :
  fst (Server.post_ptt {["ptt" := VBool false]} {["pttEnabled" := VBool false]}
                       (Registry.mkRegistry ∅ (Some (Mock.instance (λ _, 1000%Z) 5)) (Some "mock"))
                       ((world0, Mock.mkSim (Mock.mkLocal true true) 0), []))
  = fst (Registry.dispatch "setPTT" [VBool false]
           (Registry.mkRegistry ∅ (Some (Mock.instance (λ _, 1000%Z) 5)) (Some "mock"))
           ((world0, Mock.mkSim (Mock.mkLocal true true) 0), [])).
Proof.
  refine (proj1 (post_ptt_release_passes {["ptt" := VBool false]}
                   {["pttEnabled" := VBool false]} _ _ eq_refl)).
Defined.

(** ** The simulated radio *)

Section MockFacts.

Local Open Scope Z_scope.

(** On a string of digits [parseInt] without a radix reads the number
    written. *)
Lemma parseInt_auto_all_digits s :
  all_digits s = true → s ≠ EmptyString → parseInt_auto s = VNum (decimal s).
Proof.
  intros Hd Hne. destruct s as [|c s]; [done|].
  assert (E : parseInt_auto (String c s) = parseInt (String c s)).
  { cbn [all_digits] in Hd. apply andb_true_iff in Hd as [Hc Hs].
    unfold parseInt_auto, parseInt. cbn [skip_space].
    rewrite (digit_not_space c Hc).
    destruct c as [[] [] [] [] [] [] [] []]; try discriminate Hc; try reflexivity.
    destruct s as [|x r]; [reflexivity|].
    cbn [all_digits] in Hs. apply andb_true_iff in Hs as [Hx _].
    destruct x as [[] [] [] [] [] [] [] []]; try discriminate Hx; reflexivity. }
  rewrite E, parseInt_all_digits by done. done.
Qed.

Lemma parseInt_any_number z : 0 ≤ z → parseInt_any (VNum z) = VNum z.
Proof.
  intros Hz. unfold parseInt_any. cbn [to_string].
  destruct (number_to_string_spec z Hz) as (Ha & Hd & Hne).
  by rewrite parseInt_auto_all_digits, Hd.
Qed.

End MockFacts.

(** X16.  With the mock plugin active, a POST /freq with a positive
    number, or with a string of decimal digits, below 2^53, is answered
    with 200; the plugin is called once, with the value as posted; the
    store holds the number afterwards and a GET /status shows it; the
    closure variables of the plugin are as before. *)
Theorem mock_post_freq_shows (clock : nat → Z) (tag : nat)
    (descs : gmap string (Registry.Descriptor Mock.SimEnv)) (aid : option string)
    (posted : Value) (hz : Z) (e : Mock.SimEnv) (calls : list Registry.Call) :
  (hz < 2 ^ 53)%Z →
  (posted = VNum hz ∧ (0 < hz)%Z)
  ∨ (∃ s, posted = VStr s ∧ all_digits s = true ∧ s ≠ EmptyString ∧ decimal s = hz) →
  let registry := Registry.mkRegistry descs (Some (Mock.instance clock tag)) aid in
  let out := Server.post_freq {["freq" := posted]} registry (e, calls) in
  snd out = Returned (Server.mkResponse 200 [("success", VBool true)])
  ∧ snd (fst out) = (calls ++ [Registry.CMethod tag "setFreq" [posted]])%list
  ∧ fst (fst out) = (updateState clock "freq" (VNum hz) (fst e), snd e)
  ∧ state_get (fst (fst (fst out))) "freq" = VNum hz
  ∧ In ("freq", VNum hz) (Server.body (Server.get_status (fst (fst (fst out))))).
Proof.
  intros _ Hposted registry out.
  assert (Ht : truthy posted = true).
  { destruct Hposted as [[-> Hz] | (s & -> & _ & Hne & _)]; cbn [truthy].
    - apply negb_true_iff, Z.eqb_neq. lia.
    - apply negb_true_iff, String.eqb_neq. done. }
  assert (Hp : parseInt_any posted = VNum hz).
  { destruct Hposted as [[-> Hz] | (s & -> & Ha & Hne & <-)].
    - apply parseInt_any_number. lia.
    - unfold parseInt_any. cbn [to_string]. by apply parseInt_auto_all_digits. }
  assert (E : out = ((Mock.setFreq clock posted (fst e), snd e,
                      (calls ++ [Registry.CMethod tag "setFreq" [posted]])%list),
                     Returned (Server.mkResponse 200 [("success", VBool true)]))).
  { subst out. unfold Server.post_freq. rewrite lookup_singleton_eq.
    change (default VUndef (Some posted)) with posted.
    rewrite Ht. cbn [negb]. reflexivity. }
  rewrite E. cbn [fst snd]. unfold Mock.setFreq. rewrite Hp.
  split; [done|]. split; [done|]. split; [done|].
  assert (Hs : state_get (updateState clock "freq" (VNum hz) (fst e)) "freq" = VNum hz)
    by by apply state_get_updateState.
  split; [done|].
  unfold Server.get_status. cbn [Server.body]. rewrite Hs.
  right. by left.
Qed.

Lemma mock_post_freq_shows_witness :
  let registry := Registry.mkRegistry ∅ (Some (Mock.instance (λ _, 1000%Z) 5)) (Some "mock") in
  let out := Server.post_freq {["freq" := VStr "7074000"]} registry
               ((world0, Mock.mkSim (Mock.mkLocal true true) 0), []) in
  state_get (fst (fst (fst out))) "freq" = VNum 7074000.
Proof.
  destruct (mock_post_freq_shows (λ _, 1000%Z) 5 ∅ (Some "mock") (VStr "7074000") 7074000
              (world0, Mock.mkSim (Mock.mkLocal true true) 0) [])
    as (_ & _ & _ & Hs & _).
  - done.
  - right. exists "7074000". repeat split; done.
  - exact Hs.
Defined.

(** X17.  A POST /api/config always restarts the radio connection: the
    plugin that is running is disconnected first, and then the plugin of
    the radio type of the merged settings is created and connected, also
    when the request names no radio section and the type is the one that
    was running. *)
Theorem post_config_restarts {Env : Type} (new_port : Value)
    (new_radio : option (gmap string Value)) (writable : bool) (s : Config.Store)
    (registry : Registry.PluginRegistry Env) (p : Registry.Proc Env)
    (old : Registry.Instance Env) :
  Registry._instance registry = Some old →
  let posted := Server.post_config new_port new_radio writable s registry p in
  let e1 := fst (Registry.disconnect old (fst p)) in
  let id := Registry.id_key (default VUndef (Config.radio (snd posted) !! "type")) in
  snd (snd (fst posted))
  = (snd p ++ Registry.CMethod (Registry.tag old) "disconnect" []
            :: start_calls id registry e1)%list
  ∧ Registry._instance (snd (fst (fst posted))) = started id registry e1
  ∧ (new_radio = None →
     Config.radio (snd posted) = Config.radio (Config.get s Config.exported)).
Proof.
  intros Hold posted e1 id. subst posted id. unfold Server.post_config.
  set (c1 := if truthy new_port then _ else _).
  set (c2 := match new_radio with Some _ => _ | None => _ end).
  pose proof (switchPlugin_from_some
                (Registry.id_key (default VUndef (Config.radio c2 !! "type")))
                registry p old Hold) as [Hc Hi].
  destruct (Registry.switchPlugin _ registry p) as [r' p'].
  cbn [fst snd] in *. split; [done|]. split; [done|].
  intros ->. subst c2 c1. by destruct (truthy new_port).
Qed.

Lemma post_config_restarts_witness :
  let clock := λ _ : nat, 1000%Z in
  let registry := Registry.mkRegistry {["mock" := Mock.descriptor clock 6]}
                    (Some (Mock.instance clock 5)) (Some "mock") in
  let s := Config.set (Config.init Config.Missing) Config.exported
             (Config.mkSettings (VNum 5555) {["type" := VStr "mock"]}) in
  let posted := Server.post_config VUndef None true s registry
                  ((world0, Mock.mkSim (Mock.mkLocal true true) 3), []) in
  snd (snd (fst posted))
  = [Registry.CMethod 5 "disconnect" []; Registry.CCreate "mock";
     Registry.CMethod 6 "connect" []].
Proof.
  intros clock registry s.
  exact (proj1 (post_config_restarts VUndef None true s registry
                  ((world0, Mock.mkSim (Mock.mkLocal true true) 3), [])
                  (Mock.instance clock 5) eq_refl)).
Defined.

Section MockRun.

Variable clock : nat → Z.

Lemma sim_step_index ev e :
  Mock.waypointIndex (snd (sim_step clock ev e))
  = if is_waypoint ev
    then ((Mock.waypointIndex (snd e) + 1) mod 6)%nat
    else Mock.waypointIndex (snd e).
Proof. by destruct ev. Qed.

Lemma sim_run_index evs : ∀ e,
  (Mock.waypointIndex (snd e) < 6)%nat →
  Mock.waypointIndex (snd (sim_run clock evs e))
  = ((Mock.waypointIndex (snd e) + length (List.filter is_waypoint evs)) mod 6)%nat.
Proof.
  induction evs as [|ev evs IH]; intros e Hlt; cbn [sim_run fold_left List.filter].
  - cbn [length]. rewrite Nat.add_0_r. by rewrite Nat.mod_small.
  - fold (sim_run clock evs (sim_step clock ev e)).
    pose proof (sim_step_index ev e) as Hstep.
    rewrite IH; rewrite Hstep; destruct (is_waypoint ev); cbn [length]; try done.
    + rewrite Nat.Div0.add_mod_idemp_l. f_equal. lia.
    + apply Nat.mod_upper_bound. lia.
Qed.

Lemma waypoint_mode i : (i < 6)%nat → snd (Mock.waypoint i) = "USB".
Proof.
  intros Hi. do 6 (destruct i as [|i]; [reflexivity|]). lia.
Qed.

End MockRun.

(** X18.  The simulated radio drifts on whatever it is told: from a
    fresh instance, after [connect] and any commands and timer ticks, the
    waypoint timer sets the frequency to the waypoint whose index is the
    number of times it has fired, counted round the table of six, and the
    mode to USB; what [setFreq] and [setMode] had set is overwritten. *)
Theorem mock_waypoint_overrides (clock : nat → Z) (evs : list SimEvent) (w : World) :
  let fresh := (w, Mock.mkSim (Mock.mkLocal false false) 0) in
  let e := Mock.on_waypoint clock (sim_run clock evs (Mock.connect clock fresh)) in
  let n := S (length (List.filter is_waypoint evs)) in
  Mock.waypointIndex (snd e) = (n mod 6)%nat
  ∧ state_get (fst e) "freq" = VNum (fst (Mock.waypoint (n mod 6)))
  ∧ state_get (fst e) "mode" = VStr "USB"
  ∧ In (fst (Mock.waypoint (n mod 6)), "USB") Mock.SIM_WAYPOINTS.
Proof.
  intros fresh e n.
  assert (Hi : Mock.waypointIndex (snd e) = (n mod 6)%nat).
  { subst e n. unfold Mock.on_waypoint. cbn [snd Mock.waypointIndex].
    rewrite sim_run_index by (cbn; lia).
    cbn [Mock.connect snd Mock.waypointIndex fresh length Mock.SIM_WAYPOINTS].
    rewrite Nat.add_0_l, Nat.Div0.add_mod_idemp_l. f_equal. lia. }
  assert (Hlt : (n mod 6 < 6)%nat) by (apply Nat.mod_upper_bound; lia).
  split; [done|].
  assert (He : fst e
               = updateState clock "mode" (VStr (snd (Mock.waypoint (n mod 6))))
                   (updateState clock "freq" (VNum (fst (Mock.waypoint (n mod 6))))
                      (fst (sim_run clock evs (Mock.connect clock fresh))))).
  { rewrite <- Hi. reflexivity. }
  rewrite He. split; [|split].
  - rewrite state_get_updateState_other by done. by apply state_get_updateState.
  - rewrite waypoint_mode by done. by apply state_get_updateState.
  - replace "USB" with (snd (Mock.waypoint (n mod 6))) by (by apply waypoint_mode).
    rewrite <- surjective_pairing. apply nth_In. cbn. lia.
Qed.

(** X19.  [connect] of the simulated radio sets all five fields, whatever
    the state was: connected, 14.074 MHz, USB, width 2800, not
    transmitting; both timers run and [waypointIndex] is not reset. *)
Theorem mock_connect_seeds (clock : nat → Z) (e : Mock.SimEnv) :
  let e' := Mock.connect clock e in
  state_get (fst e') "connected" = VBool true
  ∧ state_get (fst e') "freq" = VNum 14074000
  ∧ state_get (fst e') "mode" = VStr "USB"
  ∧ state_get (fst e') "width" = VNum 2800
  ∧ state_get (fst e') "ptt" = VBool false
  ∧ snd e' = Mock.mkSim (Mock.mkLocal true true) (Mock.waypointIndex (snd e))
  ∧ ∀ q, q ≠ "connected" → q ≠ "freq" → q ≠ "mode" → q ≠ "width" → q ≠ "ptt" →
      q ≠ "lastUpdate" → state_get (fst e') q = state_get (fst e) q.
Proof.
  intros e'. subst e'. unfold Mock.connect. cbn [fst snd].
  repeat split.
  - rewrite !state_get_updateState_other by done. by apply state_get_updateState.
  - rewrite !state_get_updateState_other by done. by apply state_get_updateState.
  - rewrite !state_get_updateState_other by done. by apply state_get_updateState.
  - rewrite !state_get_updateState_other by done. by apply state_get_updateState.
  - by apply state_get_updateState.
  - intros q ? ? ? ? ? ?. by rewrite !state_get_updateState_other by done.
Qed.

(** ** The answers of flrig *)

Section FlrigFacts.

Variable clock : nat → Z.

Lemma state_get_touch w q :
  q ≠ "lastUpdate" → state_get (touch clock w) q = state_get w q.
Proof.
  intros Hq. unfold state_get, touch. cbn [rig]. by rewrite lookup_insert_ne.
Qed.

Lemma state_get_touch_lastUpdate w :
  state_get (touch clock w) "lastUpdate" = VNum (clock (ticks w)).
Proof. unfold state_get, touch. cbn [rig]. by rewrite lookup_insert_eq. Qed.

Lemma sent_touch w : sent (touch clock w) = sent w.
Proof. done. Qed.

(** A good answer to [rig.get_vfo]. *)
Lemma on_get_vfo_ok freq w :
  gt0 freq = true →
  let w' := Flrig.on_get_vfo clock false freq w in
  truthy (state_get w' "connected") = true
  ∧ state_get w' "freq" = freq
  ∧ ∀ q, q ≠ "connected" → q ≠ "freq" → q ≠ "lastUpdate" →
      state_get w' q = state_get w q.
Proof.
  intros Hf w'. subst w'. unfold Flrig.on_get_vfo. rewrite Hf.
  split; [|split].
  - rewrite state_get_touch, state_get_updateState_other by done.
    destruct (truthy (state_get w "connected")) eqn:E; cbn [negb]; [done|].
    by rewrite state_get_updateState.
  - rewrite state_get_touch by done. by apply state_get_updateState.
  - intros q Hc Hq Hu.
    rewrite state_get_touch, state_get_updateState_other by done.
    destruct (negb _); [|done]. by apply state_get_updateState_other.
Qed.

End FlrigFacts.

(** X20.  One round of answers from flrig, a frequency above zero, a
    mode that is not empty and a PTT value: afterwards the store is
    connected and holds that frequency, that mode and the PTT value as a
    boolean; [width] is never set by this plugin.  A failed
    [rig.get_vfo] only clears [connected], once: when the store is not
    connected it changes nothing at all, and the frequency stays the last
    one read. *)
Theorem flrig_poll_answers (clock : nat → Z) (freq mode ptt : Value) (w : World) :
  gt0 freq = true → truthy mode = true →
  let w1 := Flrig.on_get_vfo clock false freq w in
  let w2 := Flrig.on_get_mode clock false mode w1 in
  let w3 := Flrig.on_get_ptt clock false ptt w2 in
  let failed := Flrig.on_get_vfo clock true freq w in
  (truthy (state_get w3 "connected") = true
   ∧ state_get w3 "freq" = freq
   ∧ state_get w3 "mode" = mode
   ∧ state_get w3 "ptt" = VBool (truthy ptt)
   ∧ state_get w3 "width" = state_get w "width")
  ∧ (truthy (state_get w "connected") = false → failed = w)
  ∧ (truthy (state_get w "connected") = true →
     state_get failed "connected" = VBool false
     ∧ sent failed = (sent w ++ [mkEvent "connected" (VBool false)])%list)
  ∧ ∀ q, q ≠ "connected" → q ≠ "lastUpdate" → state_get failed q = state_get w q.
Proof.
  intros Hf Hm w1 w2 w3 failed.
  destruct (on_get_vfo_ok clock freq w Hf) as (Hc & Hfreq & Hrest). fold w1 in Hc, Hfreq, Hrest.
  assert (E2 : w2 = updateState clock "mode" mode w1).
  { subst w2. unfold Flrig.on_get_mode. by rewrite Hm. }
  assert (E3 : w3 = updateState clock "ptt" (VBool (truthy ptt)) w2) by done.
  split; [|split; [|split]].
  - rewrite E3, E2. repeat split.
    + by rewrite !state_get_updateState_other by done.
    + by rewrite !state_get_updateState_other by done.
    + rewrite state_get_updateState_other by done. by apply state_get_updateState.
    + by apply state_get_updateState.
    + rewrite !state_get_updateState_other by done. by apply Hrest.
  - intros E. subst failed. unfold Flrig.on_get_vfo. by rewrite E.
  - intros E. subst failed. unfold Flrig.on_get_vfo. rewrite E. split.
    + by apply state_get_updateState.
    + rewrite updateState_changed; [done|].
      destruct (strict_eq (state_get w "connected") (VBool false)) eqn:Es; [|done].
      apply strict_eq_true in Es. rewrite Es in E. discriminate.
  - intros q Hq Hu. subst failed. unfold Flrig.on_get_vfo.
    destruct (truthy (state_get w "connected")); [|done].
    by apply state_get_updateState_other.
Qed.

Lemma flrig_poll_answers_witness :
  let clock := λ _ : nat, 1000%Z in
  let w3 := Flrig.on_get_ptt clock false (VNum 1)
              (Flrig.on_get_mode clock false (VStr "USB")
                 (Flrig.on_get_vfo clock false (VNum 14074000) world0)) in
  state_get w3 "freq" = VNum 14074000 ∧ state_get w3 "ptt" = VBool true.
Proof.
  intros clock.
  destruct (flrig_poll_answers clock (VNum 14074000) (VStr "USB") (VNum 1) world0
              eq_refl eq_refl) as ((_ & Hf & _ & Hp & _) & _).
  split; [exact Hf | exact Hp].
Defined.

(** X21.  The callbacks do not look at [client]: an answer to
    [rig.get_vfo] that comes in after [disconnect] sets [connected] to
    true again, although the client is gone and the poll timer is
    stopped; with a frequency above zero it sets [freq] as well. *)
Theorem flrig_answer_after_disconnect (clock : nat → Z) (freq : Value) (e : Flrig.Env) :
  let e1 := Flrig.disconnect clock e in
  let w' := Flrig.on_get_vfo clock false freq (fst e1) in
  state_get (fst e1) "connected" = VBool false
  ∧ Flrig.client (snd e1) = false
  ∧ Flrig.pollTimer (snd e1) = false
  ∧ state_get w' "connected" = VBool true
  ∧ (gt0 freq = true → state_get w' "freq" = freq).
Proof.
  intros e1 w'.
  assert (Hc : state_get (fst e1) "connected" = VBool false)
    by by apply state_get_updateState.
  split; [done|]. split; [done|]. split.
  { subst e1. unfold Flrig.disconnect, Flrig.stopPolling. cbn [snd Flrig.pollTimer].
    destruct (Flrig.pollTimer (snd e)) eqn:E; [reflexivity|exact E]. }
  subst w'. unfold Flrig.on_get_vfo. rewrite Hc. cbn [truthy negb]. split.
  - rewrite state_get_touch by done.
    destruct (gt0 freq).
    + rewrite state_get_updateState_other by done. by apply state_get_updateState.
    + by apply state_get_updateState.
  - intros ->. rewrite state_get_touch by done. by apply state_get_updateState.
Qed.

(** ** The relay queue *)

Section RelayQueue.

Import Relay.

Lemma parseWSJTXMessage_members buffer now msg :
  parseWSJTXMessage buffer now = Some msg →
  ∃ members, members_of (msg_type msg) = Some members.
Proof.
  unfold parseWSJTXMessage.
  destruct (readUInt32 buffer 0) as [magic o1]. destruct magic; try done.
  destruct (negb _); [done|].
  destruct (readUInt32 buffer o1) as [schema o2].
  destruct (readUInt32 buffer o2) as [type o3].
  destruct (readUtf8 buffer o3) as [id o4].
  destruct type as [|t| | | | |]; try done. destruct id; try done.
  destruct (members_of t) as [members|] eqn:E; [|done].
  intros [= <-]. by exists members.
Qed.

Lemma parseWSJTXMessage_not_REPLAY buffer now msg :
  parseWSJTXMessage buffer now = Some msg → (msg_type msg =? REPLAY)%Z = false.
Proof.
  intros H. destruct (parseWSJTXMessage_members _ _ _ H) as [members Hm].
  destruct (msg_type msg =? REPLAY)%Z eqn:E; [|done].
  apply Z.eqb_eq in E. rewrite E in Hm. discriminate.
Qed.

Lemma batches_snoc keep log batch a :
  batches keep (log ++ [(batch, a)])
  = (batches keep log ++ if keep a then batch else [])%list.
Proof.
  unfold batches. rewrite List.filter_app, map_app, concat_app. cbn [List.filter snd].
  destruct (keep a); cbn; by rewrite ?app_nil_r.
Qed.

Lemma relay_run_snoc url_ok evs ev st :
  relay_run url_ok (evs ++ [ev]) st = relay_step url_ok ev (relay_run url_ok evs st).
Proof. apply fold_left_app. Qed.

Lemma accepted_snoc evs ev : accepted (evs ++ [ev]) = (accepted evs ++ accepted [ev])%list.
Proof. apply flat_map_app. Qed.

(** With an endpoint that [new URL] rejects. *)
Lemma relay_run_stalls evs :
  let st := relay_run false evs relay_start in
  pending st = None ∧ answered st = [] ∧ totalRelayed (local st) = 0%nat
  ∧ ∃ lost, accepted evs = (lost ++ messageQueue (local st))%list
            ∧ (sendInFlight (local st) = false → lost = [])
            ∧ (sendInFlight (local st) = true → lost ≠ []).
Proof.
  induction evs as [|ev evs IH] using rev_ind.
  { cbn. split; [done|]. split; [done|]. split; [done|]. by exists []. }
  rewrite relay_run_snoc, accepted_snoc. cbn zeta in *.
  destruct IH as (Hp & Ha & Hr & lost & Hq & Hl0 & Hl1).
  destruct (relay_run false evs relay_start) as [l pend ans].
  cbn [local pending answered] in *. subst pend ans.
  destruct ev as [buffer now| |a|a|a]; cbn [relay_step accepted flat_map local pending answered].
  - unfold on_message.
    destruct (parseWSJTXMessage buffer now) as [msg|] eqn:E.
    + rewrite (parseWSJTXMessage_not_REPLAY _ _ _ E).
      cbn [negb messageQueue totalRelayed sendInFlight app].
      split; [done|]. split; [done|]. split; [done|].
      exists lost. rewrite Hq, <- app_assoc. done.
    + cbn [app]. rewrite app_nil_r. split; [done|]. split; [done|]. split; [done|].
      by exists lost.
  - rewrite app_nil_r. unfold sendBatch.
    destruct (sendInFlight l) eqn:Ef; cbn [orb fst snd].
    { split; [done|]. split; [done|]. split; [done|].
      exists lost. rewrite Ef. done. }
    destruct (length (messageQueue l) =? 0)%nat eqn:El; cbn [fst snd].
    { split; [done|]. split; [done|]. split; [done|].
      exists lost. rewrite Ef. done. }
    cbn [messageQueue totalRelayed sendInFlight].
    split; [done|]. split; [done|]. split; [done|].
    exists (messageQueue l). rewrite Hq, (Hl0 eq_refl), app_nil_r.
    split; [done|]. split; [done|]. intros _ Hnil. rewrite Hnil in El. done.
  - rewrite app_nil_r. split; [done|]. split; [done|]. split; [done|].
    by exists lost.
  - rewrite app_nil_r.
    split; [done|]. split; [done|].
    destruct a as [|code]; cbn [onHeartbeatDone];
      [|destruct (code =? 200)%Z; cbn [totalRelayed messageQueue sendInFlight]];
      (split; [done|]); by exists lost.
  - rewrite app_nil_r.
    split; [done|]. split; [done|].
    destruct a as [|code]; cbn [onHealthDone];
      [|destruct ((code =? 200)%Z && (0 <? consecutiveErrors l)%nat);
        cbn [totalRelayed messageQueue sendInFlight]];
      (split; [done|]); by exists lost.
Qed.

(** Once [sendInFlight] is set and no request is out, nothing clears
    it. *)
Lemma relay_run_stuck more : ∀ st,
  pending st = None → sendInFlight (local st) = true →
  let st' := relay_run false more st in
  pending st' = None ∧ sendInFlight (local st') = true
  ∧ messageQueue (local st') = (messageQueue (local st) ++ accepted more)%list.
Proof.
  induction more as [|ev more IH]; intros st Hp Hf.
  { cbn. by rewrite app_nil_r. }
  cbn [relay_run fold_left]. fold (relay_run false more (relay_step false ev st)).
  assert (Hacc : accepted (ev :: more) = (accepted [ev] ++ accepted more)%list)
    by apply (flat_map_app _ [ev] more).
  rewrite Hacc.
  destruct (IH (relay_step false ev st)) as (Hp' & Hf' & Hq').
  - destruct ev as [buffer now| |a|a|a]; cbn [relay_step pending]; try done.
    + unfold sendBatch. rewrite Hf. cbn [orb snd]. done.
    + by rewrite Hp.
  - destruct ev as [buffer now| |a|a|a]; cbn [relay_step local].
    + unfold on_message. by destruct (parseWSJTXMessage buffer now).
    + unfold sendBatch. rewrite Hf. cbn [orb fst]. done.
    + by rewrite Hp.
    + destruct a as [|code]; cbn [onHeartbeatDone]; [done|]. by destruct (code =? 200)%Z.
    + destruct a as [|code]; cbn [onHealthDone]; [done|].
      by destruct ((code =? 200)%Z && (0 <? consecutiveErrors (local st))%nat).
  - cbn zeta. split; [done|]. split; [done|]. rewrite Hq'.
    rewrite app_assoc. f_equal.
    destruct ev as [buffer now| |a|a|a]; cbn [relay_step local accepted flat_map app].
    + unfold on_message.
      destruct (parseWSJTXMessage buffer now) as [msg|] eqn:E; [|by rewrite app_nil_r].
      by rewrite (parseWSJTXMessage_not_REPLAY _ _ _ E).
    + unfold sendBatch. rewrite Hf. cbn [orb fst]. by rewrite app_nil_r.
    + rewrite Hp. by rewrite app_nil_r.
    + rewrite app_nil_r.
      destruct a as [|code]; cbn [onHeartbeatDone]; [done|]. by destruct (code =? 200)%Z.
    + rewrite app_nil_r.
      destruct a as [|code]; cbn [onHealthDone]; [done|].
      by destruct ((code =? 200)%Z && (0 <? consecutiveErrors (local st))%nat).
Qed.

End RelayQueue.

(** X22.  Along any run of the relay in which every request is answered
    once, no message is lost without an answer and none is sent twice for
    good: the messages parsed from the datagrams are, in their order of
    arrival, those of the batches that were answered with a status below
    500 (relayed on 200, dropped on any other), then those of the batch
    that is out, then the queue.  [totalRelayed] counts the messages of
    the batches answered with 200, and [sendInFlight] is set exactly while
    a batch is out. *)
Theorem relay_queue_conserves (evs : list RelayEvent) :
  let st := relay_run true evs relay_start in
  accepted evs
  = (batches (λ a, negb (requeued a)) (answered st)
       ++ default [] (pending st) ++ Relay.messageQueue (local st))%list
  ∧ Relay.totalRelayed (local st) = length (batches relayed (answered st))
  ∧ Relay.sendInFlight (local st) = match pending st with Some _ => true | None => false end.
Proof.
  induction evs as [|ev evs IH] using rev_ind; [done|].
  rewrite relay_run_snoc, accepted_snoc. cbn zeta in *.
  destruct IH as (Hq & Hr & Hf).
  destruct (relay_run true evs relay_start) as [l pend ans].
  cbn [local pending answered] in *.
  destruct ev as [buffer now| |a|a|a]; cbn [relay_step accepted flat_map local pending answered].
  - (* a datagram *)
    unfold Relay.on_message.
    destruct (Relay.parseWSJTXMessage buffer now) as [msg|] eqn:E.
    + rewrite (parseWSJTXMessage_not_REPLAY _ _ _ E).
      cbn [negb Relay.messageQueue Relay.totalRelayed Relay.sendInFlight app].
      split; [|done]. rewrite Hq, <- !app_assoc. done.
    + cbn [app]. rewrite app_nil_r. done.
  - (* the batch timer *)
    rewrite app_nil_r. unfold Relay.sendBatch.
    destruct (Relay.sendInFlight l) eqn:Ef; cbn [orb fst snd].
    { by destruct pend. }
    destruct pend as [batch|]; [done|].
    destruct (length (Relay.messageQueue l) =? 0)%nat eqn:El; cbn [fst snd].
    { done. }
    cbn [Relay.messageQueue Relay.totalRelayed Relay.sendInFlight default].
    split; [|done]. rewrite Hq. cbn [default app]. unfold id. by rewrite app_nil_r.
  - (* an answer to the batch that is out *)
    rewrite app_nil_r.
    destruct pend as [batch|]; [|done].
    cbn [local pending answered default app]. rewrite !batches_snoc.
    cbn [default] in Hq. unfold id in Hq. rewrite Hq.
    destruct a as [|code]; cbn [Relay.onBatchDone requeued relayed negb].
    + cbn [Relay.messageQueue Relay.totalRelayed Relay.sendInFlight]. rewrite !app_nil_r, Hr. done.
    + destruct (code =? 200)%Z eqn:E200.
      * apply Z.eqb_eq in E200. subst code.
        change (500 <=? 200)%Z with false.
        cbn [Relay.messageQueue Relay.totalRelayed Relay.sendInFlight negb].
        rewrite length_app, <- app_assoc, Hr. done.
      * destruct ((code =? 401)%Z || (code =? 403)%Z) eqn:E4.
        { assert (Hlt : (500 <=? code)%Z = false).
          { apply orb_true_iff in E4 as [E|E]; apply Z.eqb_eq in E; by subst code. }
          rewrite Hlt. cbn [Relay.messageQueue Relay.totalRelayed Relay.sendInFlight negb].
          rewrite app_nil_r, <- app_assoc, Hr. done. }
        destruct (500 <=? code)%Z; cbn [Relay.messageQueue Relay.totalRelayed Relay.sendInFlight negb];
          rewrite ?app_nil_r, <- ?app_assoc, Hr; done.
  - (* an answer to a heartbeat *)
    rewrite app_nil_r. destruct a as [|code]; cbn [Relay.onHeartbeatDone]; [done|].
    by destruct (code =? 200)%Z.
  - (* an answer to a health check *)
    rewrite app_nil_r. destruct a as [|code]; cbn [Relay.onHealthDone]; [done|].
    by destruct ((code =? 200)%Z && (0 <? Relay.consecutiveErrors l)%nat).
Qed.

(** X23.  With a relay endpoint that [new URL] rejects, nothing is ever
    sent or counted as relayed; the first batch that is taken from the
    queue is lost, it is neither out nor queued nor answered; and from
    then on [sendInFlight] stays set for ever, so the queue only grows. *)
Theorem relay_bad_url_stalls (evs more : list RelayEvent) :
  let st := relay_run false evs relay_start in
  let st' := relay_run false more st in
  pending st = None ∧ answered st = [] ∧ Relay.totalRelayed (local st) = 0%nat
  ∧ (∃ lost, accepted evs = (lost ++ Relay.messageQueue (local st))%list
             ∧ (Relay.sendInFlight (local st) = false → lost = [])
             ∧ (Relay.sendInFlight (local st) = true → lost ≠ []))
  ∧ (Relay.sendInFlight (local st) = true →
     Relay.sendInFlight (local st') = true
     ∧ Relay.messageQueue (local st')
       = (Relay.messageQueue (local st) ++ accepted more)%list).
Proof.
  intros st st'.
  destruct (relay_run_stalls evs) as (Hp & Ha & Hr & Hlost). fold st in Hp, Ha, Hr, Hlost.
  split; [done|]. split; [done|]. split; [done|]. split; [done|].
  intros Hf. destruct (relay_run_stuck more st Hp Hf) as (_ & Hf' & Hq'). by split.
Qed.

Lemma relay_bad_url_stalls_witness :
  let head := wire_head 2 Relay.CLOSE [0x57; 0x53]%Z in
  let st := relay_run false [Datagram head 1; BatchTimer] relay_start in
  let st' := relay_run false [Datagram head 2; BatchTimer; BatchAnswer (Relay.Status 200)] st in
  Relay.sendInFlight (local st) = true
  ∧ Relay.messageQueue (local st) = []
  ∧ Relay.sendInFlight (local st') = true
  ∧ Relay.messageQueue (local st')
    = [Relay.mkMsg Relay.CLOSE [0x57; 0x53]%Z (Relay.FNum 2) 2 []].
Proof.
  intros head st st'.
  destruct (relay_bad_url_stalls [Datagram head 1; BatchTimer]
              [Datagram head 2; BatchTimer; BatchAnswer (Relay.Status 200)])
    as (_ & _ & _ & _ & Hstuck).
  destruct (Hstuck eq_refl) as [Hf Hq].
  split; [reflexivity|]. split; [reflexivity|]. split; [exact Hf | exact Hq].
Defined.

(** X24.  The pause between two batches.  With a batch interval of at
    most five seconds (the default is two) the pause never shrinks as the
    errors add up, and it is never longer than thirty seconds.  With a
    longer interval it does shrink: the fifth error in a row brings the
    doubled interval down to ten seconds. *)
Theorem getInterval_backs_off (cfg : Relay.Cfg) (l1 l2 : Relay.Local) :
  (0 ≤ Relay.batchInterval cfg ≤ 5000)%Z →
  (Relay.consecutiveErrors l1 ≤ Relay.consecutiveErrors l2)%nat →
  (0 < Relay.getInterval cfg l1 ≤ Relay.getInterval cfg l2)%Z
  ∧ (Relay.getInterval cfg l2 ≤ 30000)%Z
  ∧ ∀ cfg' l4 l5,
      (5000 < Relay.batchInterval cfg')%Z →
      Relay.consecutiveErrors l4 = 4%nat → Relay.consecutiveErrors l5 = 5%nat →
      (Relay.getInterval cfg' l5 < Relay.getInterval cfg' l4)%Z.
Proof.
  intros Hb He. unfold Relay.getInterval. split; [|split].
  - destruct (Relay.batchInterval cfg =? 0)%Z eqn:E0;
      [|apply Z.eqb_neq in E0];
      destruct (Nat.eqb_spec (Relay.consecutiveErrors l1) 0);
      destruct (Nat.eqb_spec (Relay.consecutiveErrors l2) 0);
      destruct (Nat.ltb_spec (Relay.consecutiveErrors l1) 5);
      destruct (Nat.ltb_spec (Relay.consecutiveErrors l2) 5);
      destruct (Nat.ltb_spec (Relay.consecutiveErrors l1) 20);
      destruct (Nat.ltb_spec (Relay.consecutiveErrors l2) 20); lia.
  - destruct (Relay.batchInterval cfg =? 0)%Z;
      destruct (Relay.consecutiveErrors l2 =? 0)%nat;
      destruct (Relay.consecutiveErrors l2 <? 5)%nat;
      destruct (Relay.consecutiveErrors l2 <? 20)%nat; lia.
  - intros cfg' l4 l5 Hb' -> ->. cbn.
    destruct (Z.eqb_spec (Relay.batchInterval cfg') 0); lia.
Qed.

Lemma getInterval_backs_off_witness :
  (Relay.getInterval (Relay.mkCfg 0) (Relay.mkLocal [] false 3 0 0 false)
   ≤ Relay.getInterval (Relay.mkCfg 0) (Relay.mkLocal [] false 7 0 0 false))%Z
  ∧ (Relay.getInterval (Relay.mkCfg 20000) (Relay.mkLocal [] false 5 0 0 false)
     < Relay.getInterval (Relay.mkCfg 20000) (Relay.mkLocal [] false 4 0 0 false))%Z.
Proof.
  destruct (getInterval_backs_off (Relay.mkCfg 0) (Relay.mkLocal [] false 3 0 0 false)
              (Relay.mkLocal [] false 7 0 0 false)) as ([_ Hm] & _ & Hs).
  - cbn. lia.
  - cbn. lia.
  - split; [exact Hm|].
    apply (Hs (Relay.mkCfg 20000)); [cbn; lia | reflexivity | reflexivity].
Defined.

(** ** The WSJT-X reader *)

Section ReaderFacts.

Import Relay.
Local Open Scope Z_scope.

Lemma be_uint_enc_u32 z : 0 ≤ z < 2 ^ 32 → be_uint (enc_u32 z) = z.
Proof.
  intros Hz. unfold be_uint, enc_u32. cbn [fold_left].
  change (2 ^ 32) with 4294967296 in Hz.
  Z.to_euclidean_division_equations. lia.
Qed.

Lemma enc_u32_length z : length (enc_u32 z) = 4%nat.
Proof. done. Qed.

Lemma remaining_app (pre bytes post : list Z) :
  remaining (pre ++ bytes ++ post) (length pre)
  = Z.of_nat (length bytes) + Z.of_nat (length post).
Proof. unfold remaining. rewrite !length_app. lia. Qed.

Lemma bytes_at_app (pre bytes post : list Z) :
  bytes_at (pre ++ bytes ++ post) (length pre) (length bytes) = bytes.
Proof. unfold bytes_at. by rewrite drop_app_length, take_app_length. Qed.

Lemma bytes_at_u32 z (pre post : list Z) :
  bytes_at (pre ++ enc_u32 z ++ post) (length pre) 4 = enc_u32 z.
Proof. apply (bytes_at_app pre (enc_u32 z) post). Qed.

(** Reading at the end of [pre] what comes after it. *)
Lemma readUInt32_wire z (pre post : list Z) :
  0 ≤ z < 2 ^ 32 →
  readUInt32 (pre ++ enc_u32 z ++ post) (length pre) = (FNum z, (length pre + 4)%nat).
Proof.
  intros Hz. unfold readUInt32. rewrite remaining_app.
  replace (_ <? 4) with false by (symmetry; apply Z.ltb_ge; cbn; lia).
  by rewrite bytes_at_u32, be_uint_enc_u32.
Qed.

Lemma readInt32_wire z (pre post : list Z) :
  - 2 ^ 31 ≤ z < 2 ^ 31 →
  readInt32 (pre ++ enc_u32 (z mod 2 ^ 32) ++ post) (length pre)
  = (FNum z, (length pre + 4)%nat).
Proof.
  intros Hz. unfold readInt32. rewrite remaining_app.
  replace (_ <? 4) with false by (symmetry; apply Z.ltb_ge; cbn; lia).
  rewrite !bytes_at_u32, !be_uint_enc_u32 by (apply Z.mod_pos_bound; lia).
  do 2 f_equal.
  change (2 ^ 32) with 4294967296 in *. change (2 ^ 31) with 2147483648 in *.
  destruct (Z.ltb_spec (z mod 4294967296) 2147483648);
    Z.to_euclidean_division_equations; lia.
Qed.

Lemma round53_small z : 0 ≤ z < 2 ^ 53 → round53 z = z.
Proof.
  intros Hz. unfold round53.
  by replace (z <? 2 ^ 53) with true by (symmetry; apply Z.ltb_lt; lia).
Qed.

Lemma readUInt64_wire z (pre post : list Z) :
  0 ≤ z < 2 ^ 53 →
  readUInt64 (pre ++ (enc_u32 (z / 2 ^ 32) ++ enc_u32 (z mod 2 ^ 32)) ++ post) (length pre)
  = (FNum z, (length pre + 8)%nat).
Proof.
  intros Hz. unfold readUInt64. rewrite remaining_app.
  replace (_ <? 8) with false by (symmetry; apply Z.ltb_ge; cbn; lia).
  assert (Hhi : 0 ≤ z / 2 ^ 32 < 2 ^ 32).
  { change (2 ^ 32) with 4294967296. change (2 ^ 53) with 9007199254740992 in Hz.
    Z.to_euclidean_division_equations. lia. }
  assert (Hlo : 0 ≤ z mod 2 ^ 32 < 2 ^ 32) by (apply Z.mod_pos_bound; lia).
  rewrite <- !app_assoc.
  rewrite bytes_at_u32, be_uint_enc_u32 by done.
  replace (length pre + 4)%nat with (length (pre ++ enc_u32 (z / 2 ^ 32)))
    by (rewrite length_app; done).
  rewrite (app_assoc pre).
  rewrite bytes_at_u32, be_uint_enc_u32 by done.
  assert (E : z / 2 ^ 32 * 4294967296 + z mod 2 ^ 32 = z).
  { change (2 ^ 32) with 4294967296. Z.to_euclidean_division_equations. lia. }
  by rewrite E, round53_small.
Qed.

Lemma readUInt8_wire z (pre post : list Z) :
  readUInt8 (pre ++ [z] ++ post) (length pre) = (FNum z, (length pre + 1)%nat).
Proof.
  unfold readUInt8. rewrite remaining_app.
  replace (_ <? 1) with false by (symmetry; apply Z.ltb_ge; cbn; lia).
  cbn [app]. rewrite nth_middle. do 2 f_equal. lia.
Qed.

Lemma readBool_wire (b : bool) (pre post : list Z) :
  readBool (pre ++ [if b then 1 else 0] ++ post) (length pre)
  = (FBool b, (length pre + 1)%nat).
Proof. unfold readBool, bind. rewrite readUInt8_wire. by destruct b. Qed.

Lemma readDouble_wire bytes (pre post : list Z) :
  length bytes = 8%nat →
  readDouble (pre ++ bytes ++ post) (length pre) = (FDouble bytes, (length pre + 8)%nat).
Proof.
  intros Hl. unfold readDouble. rewrite remaining_app.
  replace (_ <? 8) with false by (symmetry; apply Z.ltb_ge; lia).
  rewrite <- Hl. by rewrite bytes_at_app.
Qed.

Lemma readUtf8_wire bytes (pre post : list Z) :
  Z.of_nat (length bytes) < 0xffffffff →
  readUtf8 (pre ++ (enc_u32 (Z.of_nat (length bytes)) ++ bytes) ++ post) (length pre)
  = (FUtf8 bytes, (length pre + (4 + length bytes))%nat).
Proof.
  intros Hl. unfold readUtf8, bind. rewrite <- app_assoc.
  rewrite readUInt32_wire by (change (2 ^ 32) with 4294967296; lia).
  replace (Z.of_nat (length bytes) =? 4294967295) with false
    by (symmetry; apply Z.eqb_neq; lia).
  destruct bytes as [|b bytes]; [reflexivity|].
  replace (Z.of_nat (length (b :: bytes)) =? 0) with false
    by (symmetry; apply Z.eqb_neq; cbn [length]; lia).
  replace (length pre + 4)%nat
    with (length (pre ++ enc_u32 (Z.of_nat (length (b :: bytes)))))
    by (rewrite length_app; done).
  rewrite (app_assoc pre), remaining_app.
  replace (_ <? _) with false by (symmetry; apply Z.ltb_ge; lia).
  rewrite Nat2Z.id, bytes_at_app, length_app, enc_u32_length. f_equal. lia.
Qed.

Lemma readUtf8_null (pre post : list Z) :
  readUtf8 (pre ++ enc_u32 0xffffffff ++ post) (length pre)
  = (FNull, (length pre + 4)%nat).
Proof. unfold readUtf8, bind. by rewrite readUInt32_wire. Qed.

(** The text of a number below 100, as the reader pads it. *)
Lemma pad2_two_digits n : 0 ≤ n < 100 → pad2 n = two_digits n.
Proof.
  intros Hn. rewrite <- (Z2Nat.id n) by lia.
  assert (Hlt : (Z.to_nat n < 100)%nat) by lia.
  generalize dependent (Z.to_nat n). clear. intros k Hk.
  do 100 (destruct k as [|k]; [reflexivity|]). lia.
Qed.

Lemma readQTime_wire h m s r (pre post : list Z) :
  0 ≤ h < 24 → 0 ≤ m < 60 → 0 ≤ s < 60 → 0 ≤ r < 1000 →
  let ms := ((h * 60 + m) * 60 + s) * 1000 + r in
  readQTime (pre ++ enc_u32 ms ++ post) (length pre)
  = (FTime ms h m s (clock_text h m s), (length pre + 4)%nat).
Proof.
  intros Hh Hm Hs Hr ms. unfold readQTime, bind.
  rewrite readUInt32_wire by (subst ms; change (2 ^ 32) with 4294967296; lia).
  assert (Eh : ms / 3600000 = h)
    by (subst ms; Z.to_euclidean_division_equations; lia).
  assert (Em : ms mod 3600000 / 60000 = m)
    by (subst ms; Z.to_euclidean_division_equations; lia).
  assert (Es : ms mod 60000 / 1000 = s)
    by (subst ms; Z.to_euclidean_division_equations; lia).
  rewrite Eh, Em, Es. unfold ret, clock_text.
  by rewrite !pad2_two_digits by lia.
Qed.

End ReaderFacts.

Section ReaderWire.

Import Relay.

(** The buffer from an offset on. *)
Lemma drop_at (buf : list Z) o bytes rest :
  drop o buf = (bytes ++ rest)%list → bytes ≠ [] →
  buf = (take o buf ++ bytes ++ rest)%list ∧ length (take o buf) = o.
Proof.
  intros Hd Hne. split.
  - by rewrite <- Hd, take_drop.
  - rewrite length_take. apply Nat.min_l.
    destruct (Nat.le_gt_cases o (length buf)) as [|Hgt]; [done|].
    rewrite drop_ge in Hd by lia. by destruct bytes.
Qed.

Lemma drop_next (buf : list Z) o bytes rest :
  drop o buf = (bytes ++ rest)%list → drop (o + length bytes) buf = rest.
Proof. intros Hd. by rewrite <- drop_drop, Hd, drop_app_length. Qed.

Lemma wire_nonempty k v bytes : wire k v bytes → bytes ≠ [].
Proof.
  destruct 1; try done. by intros ->.
Qed.

Lemma wire_time_length v bytes : wire KQTime v bytes → length bytes = 4%nat.
Proof. by inversion 1. Qed.

Lemma read_at {A : Type} (m : list Z → Read A) bytes v n :
  (∀ pre post, m (pre ++ bytes ++ post)%list (length pre) = (v, (length pre + n)%nat)) →
  bytes ≠ [] →
  ∀ buf o rest, drop o buf = (bytes ++ rest)%list → m buf o = (v, (o + n)%nat).
Proof.
  intros H Hne buf o rest Hd. destruct (drop_at buf o bytes rest Hd Hne) as [E Ho].
  pose proof (H (take o buf) rest) as H'. by rewrite <- E, Ho in H'.
Qed.

(** A value written at the offset is read back, and the offset moves
    past it. *)
Lemma read_wire k v bytes :
  wire k v bytes →
  ∀ buf o rest, drop o buf = (bytes ++ rest)%list →
  read buf k o = (v, (o + length bytes)%nat).
Proof.
  induction 1 as [z Hz|z Hz|z Hz|z Hz|b|bytes Hl|bytes Hl| |h m s r Hh Hm Hs Hr ms
                 |jd time tb spec Hjd Ht IH Hspec Hne
                 |jd time tb off Hjd Ht IH Hoff];
    intros buf o rest Hd.
  - apply (read_at readUInt8 [z] (FNum z) 1 (readUInt8_wire z) ltac:(done) _ _ _ Hd).
  - apply (read_at readInt32 _ (FNum z) 4 (λ pre post, readInt32_wire z pre post Hz)
             ltac:(done) _ _ _ Hd).
  - apply (read_at readUInt32 _ (FNum z) 4 (λ pre post, readUInt32_wire z pre post Hz)
             ltac:(done) _ _ _ Hd).
  - apply (read_at readUInt64 _ (FNum z) 8 (λ pre post, readUInt64_wire z pre post Hz)
             ltac:(done) _ _ _ Hd).
  - apply (read_at readBool _ (FBool b) 1 (readBool_wire b) ltac:(done) _ _ _ Hd).
  - rewrite Hl.
    apply (read_at readDouble _ (FDouble bytes) 8
             (λ pre post, readDouble_wire bytes pre post Hl)
             ltac:(by intros ->) _ _ _ Hd).
  - rewrite length_app, enc_u32_length.
    apply (read_at readUtf8 _ (FUtf8 bytes) (4 + length bytes)
             (λ pre post, readUtf8_wire bytes pre post Hl) ltac:(done) _ _ _ Hd).
  - apply (read_at readUtf8 _ FNull 4 readUtf8_null ltac:(done) _ _ _ Hd).
  - apply (read_at readQTime _ _ 4
             (λ pre post, readQTime_wire h m s r pre post Hh Hm Hs Hr)
             ltac:(done) _ _ _ Hd).
  - (* a date and time without an offset *)
    pose proof (wire_time_length _ _ Ht) as Hl.
    rewrite <- !app_assoc in Hd. rewrite (app_assoc (enc_u32 _)) in Hd.
    assert (H64 : readUInt64 buf o = (FNum jd, (o + 8)%nat)).
    { apply (read_at readUInt64 _ (FNum jd) 8
               (λ pre post, readUInt64_wire jd pre post Hjd) ltac:(done) _ _ _ Hd). }
    pose proof (drop_next _ _ _ _ Hd) as Hd1.
    rewrite length_app, !enc_u32_length in Hd1. cbn [Nat.add] in Hd1.
    pose proof (drop_next _ _ _ _ Hd1) as Hd2. rewrite Hl in Hd2.
    assert (H8 : readUInt8 buf (o + 8 + 4) = (FNum spec, (o + 8 + 4 + 1)%nat)).
    { apply (read_at readUInt8 [spec] (FNum spec) 1 (readUInt8_wire spec)
               ltac:(done) _ _ _ Hd2). }
    cbn [read] in *. unfold readQDateTime, bind.
    rewrite H64, (IH buf (o + 8)%nat _ Hd1), Hl, H8.
    assert (Eret : (match spec with 2%Z => readInt32 buf | _ => ret FNull end)
                   = ret (A:=Field) FNull).
    { destruct spec as [|[p|[p|[]|]|]|]; done. }
    rewrite Eret. unfold ret.
    rewrite !length_app, !enc_u32_length, Hl. cbn [length]. f_equal. lia.
  - (* a date and time with its offset *)
    pose proof (wire_time_length _ _ Ht) as Hl.
    rewrite <- !app_assoc in Hd. rewrite (app_assoc (enc_u32 _)) in Hd.
    assert (H64 : readUInt64 buf o = (FNum jd, (o + 8)%nat)).
    { apply (read_at readUInt64 _ (FNum jd) 8
               (λ pre post, readUInt64_wire jd pre post Hjd) ltac:(done) _ _ _ Hd). }
    pose proof (drop_next _ _ _ _ Hd) as Hd1.
    rewrite length_app, !enc_u32_length in Hd1. cbn [Nat.add] in Hd1.
    pose proof (drop_next _ _ _ _ Hd1) as Hd2. rewrite Hl in Hd2.
    pose proof (drop_next _ _ _ _ Hd2) as Hd3. cbn [length] in Hd3.
    assert (H8 : readUInt8 buf (o + 8 + 4) = (FNum 2, (o + 8 + 4 + 1)%nat)).
    { apply (read_at readUInt8 [2%Z] (FNum 2) 1 (readUInt8_wire 2)
               ltac:(done) _ _ _ Hd2). }
    assert (H32 : readInt32 buf (o + 8 + 4 + 1)
                  = (FNum off, (o + 8 + 4 + 1 + 4)%nat)).
    { apply (read_at readInt32 _ (FNum off) 4
               (λ pre post, readInt32_wire off pre post Hoff) ltac:(done) _ _ _ Hd3). }
    cbn [read] in *. unfold readQDateTime, bind.
    rewrite H64, (IH buf (o + 8)%nat _ Hd1), Hl, H8, H32.
    unfold ret. rewrite !length_app, !enc_u32_length, Hl. cbn [length]. f_equal. lia.
Qed.

Lemma read_fields_wire members values bytes :
  wire_members members values bytes →
  ∀ buf o rest, drop o buf = (bytes ++ rest)%list →
  read_fields buf members o = (values, (o + length bytes)%nat).
Proof.
  induction 1 as [|name k v bytes members values more Hw Hm IH]; intros buf o rest Hd.
  - cbn. unfold ret. f_equal. lia.
  - cbn [read_fields]. unfold bind. rewrite <- app_assoc in Hd.
    rewrite (read_wire _ _ _ Hw buf o _ Hd).
    rewrite (IH buf (o + length bytes)%nat rest (drop_next _ _ _ _ Hd)).
    unfold ret. rewrite length_app. f_equal. lia.
Qed.

(** The head of a datagram, read. *)
Lemma read_head schema type id rest :
  (0 ≤ schema < 2 ^ 32)%Z → (0 ≤ type < 2 ^ 32)%Z →
  (Z.of_nat (length id) < 0xffffffff)%Z →
  let buffer := (wire_head schema type id ++ rest)%list in
  readUInt32 buffer 0 = (FNum WSJTX_MAGIC, 4%nat)
  ∧ readUInt32 buffer 4 = (FNum schema, 8%nat)
  ∧ readUInt32 buffer 8 = (FNum type, 12%nat)
  ∧ readUtf8 buffer 12 = (FUtf8 id, (16 + length id)%nat)
  ∧ drop (16 + length id) buffer = rest.
Proof.
  intros Hs Ht Hi buffer.
  assert (Hd0 : drop 0 buffer
                = (enc_u32 WSJTX_MAGIC
                     ++ enc_u32 schema ++ enc_u32 type
                     ++ (enc_u32 (Z.of_nat (length id)) ++ id) ++ rest)%list).
  { subst buffer. unfold wire_head. by rewrite drop_0, <- !app_assoc. }
  pose proof (drop_next _ _ _ _ Hd0) as Hd1.
  pose proof (drop_next _ _ _ _ Hd1) as Hd2.
  pose proof (drop_next _ _ _ _ Hd2) as Hd3.
  pose proof (drop_next _ _ _ _ Hd3) as Hd4.
  rewrite !enc_u32_length in *. rewrite length_app, enc_u32_length in Hd4.
  cbn [Nat.add] in *.
  split; [|split; [|split; [|split]]].
  - exact (read_wire _ _ _ (wire_u32 WSJTX_MAGIC ltac:(done)) buffer 0%nat _ Hd0).
  - exact (read_wire _ _ _ (wire_u32 schema Hs) buffer 4%nat _ Hd1).
  - exact (read_wire _ _ _ (wire_u32 type Ht) buffer 8%nat _ Hd2).
  - pose proof (read_wire _ _ _ (wire_utf8 id Hi) buffer 12%nat _ Hd3) as H.
    cbn [read] in H. rewrite H, length_app, enc_u32_length. done.
  - exact Hd4.
Qed.

Lemma members_of_types type members :
  members_of type = Some members →
  In type [HEARTBEAT; STATUS; DECODE; CLEAR; QSO_LOGGED; WSPR_DECODE; LOGGED_ADIF; CLOSE].
Proof.
  unfold members_of.
  repeat match goal with
         | |- context [(type =? ?c)%Z] =>
             destruct (Z.eqb_spec type c) as [-> | _]; [intros _; cbn; tauto|]
         end.
  done.
Qed.

(** Reading does not touch the names. *)
Lemma read_fields_names buf members : ∀ o,
  map fst (fst (read_fields buf members o)) = map fst members.
Proof.
  induction members as [|[name k] members IH]; intros o; [done|].
  cbn [read_fields]. unfold bind.
  destruct (read buf k o) as [v o1]. specialize (IH o1).
  destruct (read_fields buf members o1) as [vs o2]. cbn in *. by rewrite IH.
Qed.

(** At the end of the buffer every read gives null and stays there. *)
Lemma read_at_end buf k o :
  (remaining buf o ≤ 0)%Z → all_null (fst (read buf k o)) ∧ snd (read buf k o) = o.
Proof.
  intros Hr.
  assert (H1 : (remaining buf o <? 1)%Z = true) by (apply Z.ltb_lt; lia).
  assert (H4 : (remaining buf o <? 4)%Z = true) by (apply Z.ltb_lt; lia).
  assert (H8 : (remaining buf o <? 8)%Z = true) by (apply Z.ltb_lt; lia).
  assert (E8 : readUInt8 buf o = (FNull, o)) by (unfold readUInt8; by rewrite H1).
  assert (E32 : readUInt32 buf o = (FNull, o)) by (unfold readUInt32; by rewrite H4).
  assert (E64 : readUInt64 buf o = (FNull, o)) by (unfold readUInt64; by rewrite H8).
  assert (Et : readQTime buf o = (FNull, o)) by (unfold readQTime, bind; by rewrite E32).
  destruct k; cbn [read].
  - by rewrite E8.
  - unfold readInt32. by rewrite H4.
  - by rewrite E32.
  - by rewrite E64.
  - unfold readBool, bind. by rewrite E8.
  - unfold readDouble. by rewrite H8.
  - unfold readUtf8, bind. by rewrite E32.
  - by rewrite Et.
  - unfold readQDateTime, bind. by rewrite E64, Et, E8.
Qed.

Lemma read_fields_at_end buf members : ∀ o,
  (remaining buf o ≤ 0)%Z →
  Forall (λ nv, all_null (snd nv)) (fst (read_fields buf members o)).
Proof.
  induction members as [|[name k] members IH]; intros o Hr; [by constructor|].
  cbn [read_fields]. unfold bind.
  destruct (read_at_end buf k o Hr) as [Hn Ho].
  destruct (read buf k o) as [v o1]. cbn [fst snd] in Hn, Ho. subst o1.
  specialize (IH o Hr).
  destruct (read_fields buf members o) as [vs o2]. cbn in *. by constructor.
Qed.

End ReaderWire.

Section ReaderBounds.

Import Relay.

Variable buf : list Z.

Lemma remaining_ge o n :
  (remaining buf o <? Z.of_nat n)%Z = false → (o + n ≤ length buf)%nat.
Proof. intros H. apply Z.ltb_ge in H. unfold remaining in H. lia. Qed.

Lemma readUInt8_inside o :
  (o ≤ length buf)%nat → (o ≤ snd (readUInt8 buf o) ≤ length buf)%nat.
Proof.
  intros Ho. unfold readUInt8.
  destruct (remaining buf o <? 1)%Z eqn:E; cbn [snd]; [lia|].
  apply (remaining_ge o 1) in E. lia.
Qed.

Lemma readInt32_inside o :
  (o ≤ length buf)%nat → (o ≤ snd (readInt32 buf o) ≤ length buf)%nat.
Proof.
  intros Ho. unfold readInt32.
  destruct (remaining buf o <? 4)%Z eqn:E; cbn [snd]; [lia|].
  apply (remaining_ge o 4) in E. lia.
Qed.

Lemma readUInt32_inside o :
  (o ≤ length buf)%nat → (o ≤ snd (readUInt32 buf o) ≤ length buf)%nat.
Proof.
  intros Ho. unfold readUInt32.
  destruct (remaining buf o <? 4)%Z eqn:E; cbn [snd]; [lia|].
  apply (remaining_ge o 4) in E. lia.
Qed.

Lemma readUInt64_inside o :
  (o ≤ length buf)%nat → (o ≤ snd (readUInt64 buf o) ≤ length buf)%nat.
Proof.
  intros Ho. unfold readUInt64.
  destruct (remaining buf o <? 8)%Z eqn:E; cbn [snd]; [lia|].
  apply (remaining_ge o 8) in E. lia.
Qed.

Lemma readUtf8_inside o :
  (o ≤ length buf)%nat → (o ≤ snd (readUtf8 buf o) ≤ length buf)%nat.
Proof.
  intros Ho. unfold readUtf8, bind.
  pose proof (readUInt32_inside o Ho) as H32.
  destruct (readUInt32 buf o) as [len o1]. cbn [snd] in H32.
  destruct len as [|l| | | | |]; try (cbn; lia).
  destruct (l =? 4294967295)%Z; [cbn; lia|].
  destruct (l =? 0)%Z; [cbn; lia|].
  destruct (remaining buf o1 <? l)%Z eqn:E; cbn [snd]; [lia|].
  apply Z.ltb_ge in E. unfold remaining in E. lia.
Qed.

Lemma readQTime_inside o :
  (o ≤ length buf)%nat → (o ≤ snd (readQTime buf o) ≤ length buf)%nat.
Proof.
  intros Ho. unfold readQTime, bind.
  pose proof (readUInt32_inside o Ho) as H32.
  destruct (readUInt32 buf o) as [ms o1]. cbn [snd] in H32.
  by destruct ms.
Qed.

Lemma read_inside k o :
  (o ≤ length buf)%nat → (o ≤ snd (read buf k o) ≤ length buf)%nat.
Proof.
  intros Ho. destruct k; cbn [read].
  - by apply readUInt8_inside.
  - by apply readInt32_inside.
  - by apply readUInt32_inside.
  - by apply readUInt64_inside.
  - unfold readBool, bind. pose proof (readUInt8_inside o Ho).
    by destruct (readUInt8 buf o).
  - unfold readDouble.
    destruct (remaining buf o <? 8)%Z eqn:E; cbn [snd]; [lia|].
    apply (remaining_ge o 8) in E. lia.
  - by apply readUtf8_inside.
  - by apply readQTime_inside.
  - unfold readQDateTime, bind.
    pose proof (readUInt64_inside o Ho) as H1.
    destruct (readUInt64 buf o) as [jd o1]. cbn [snd] in H1.
    pose proof (readQTime_inside o1 ltac:(lia)) as H2.
    destruct (readQTime buf o1) as [time o2]. cbn [snd] in H2.
    pose proof (readUInt8_inside o2 ltac:(lia)) as H3.
    destruct (readUInt8 buf o2) as [spec o3]. cbn [snd] in H3.
    pose proof (readInt32_inside o3 ltac:(lia)) as H4.
    assert (H5 : (o3 ≤ snd ((match spec with
                               | FNum 2%Z => readInt32 buf
                               | _ => ret FNull
                               end) o3) ≤ length buf)%nat).
    { destruct spec as [|[|[p|[p|[]|]|]|]| | | | |]; cbn [ret snd]; lia. }
    destruct ((match spec with FNum 2%Z => readInt32 buf | _ => ret FNull end) o3)
      as [x o4].
    cbn [snd ret] in *. lia.
Qed.

Lemma read_fields_inside members : ∀ o,
  (o ≤ length buf)%nat → (o ≤ snd (read_fields buf members o) ≤ length buf)%nat.
Proof.
  induction members as [|[name k] members IH]; intros o Ho; [cbn; lia|].
  cbn [read_fields]. unfold bind.
  pose proof (read_inside k o Ho) as H1.
  destruct (read buf k o) as [v o1]. cbn [snd] in H1.
  pose proof (IH o1 ltac:(lia)) as H2.
  destruct (read_fields buf members o1) as [vs o2]. cbn [snd ret] in *. lia.
Qed.

(** A read that gives a number found its four bytes. *)
Lemma readUInt32_number o z o' :
  readUInt32 buf o = (FNum z, o') →
  o' = (o + 4)%nat ∧ (o + 4 ≤ length buf)%nat ∧ z = be_uint (bytes_at buf o 4).
Proof.
  unfold readUInt32. destruct (remaining buf o <? 4)%Z eqn:E; [done|].
  intros [= <- <-]. apply (remaining_ge o 4) in E. done.
Qed.

Lemma readUInt32_cases o :
  readUInt32 buf o = (FNull, o)
  ∨ ∃ z, readUInt32 buf o = (FNum z, (o + 4)%nat) ∧ (o + 4 ≤ length buf)%nat.
Proof.
  unfold readUInt32. destruct (remaining buf o <? 4)%Z eqn:E; [by left|].
  right. eexists. split; [done|]. by apply (remaining_ge o 4).
Qed.

Lemma readUtf8_string o i o' :
  readUtf8 buf o = (FUtf8 i, o') → (o + 4 ≤ length buf)%nat.
Proof.
  unfold readUtf8, bind. destruct (readUInt32 buf o) as [len o1] eqn:E.
  destruct len as [|l| | | | |]; try done.
  intros _. by destruct (readUInt32_number _ _ _ E) as (_ & H & _).
Qed.

End ReaderBounds.

(** X25.  Whatever the datagram, the reader never moves its offset back
    or past the end of the buffer, in one read or over the members of a
    message: every access it makes lies inside the datagram, and the
    [catch] of [parseWSJTXMessage] has nothing to catch. *)
Theorem reader_stays_inside (buf : list Z) (members : list (string * Relay.Kind))
    (k : Relay.Kind) (o : nat) :
  (o ≤ length buf)%nat →
  (o ≤ snd (Relay.read buf k o) ≤ length buf)%nat
  ∧ (o ≤ snd (Relay.read_fields buf members o) ≤ length buf)%nat.
Proof. intros Ho. split; [by apply read_inside | by apply read_fields_inside]. Qed.

Lemma reader_stays_inside_witness :
  (2 ≤ snd (Relay.read [1; 2; 0; 0; 0; 9; 7]%Z Relay.KUtf8 2) ≤ 7)%nat
  ∧ (2 ≤ snd (Relay.read_fields [1; 2; 0; 0; 0; 9; 7]%Z
                [("mode", Relay.KUtf8); ("offAir", Relay.KBool)] 2) ≤ 7)%nat.
Proof.
  apply (reader_stays_inside [1; 2; 0; 0; 0; 9; 7]%Z
           [("mode", Relay.KUtf8); ("offAir", Relay.KBool)] Relay.KUtf8 2).
  cbn. lia.
Defined.

(** X26.  What [parseWSJTXMessage] takes as a message: the datagram
    starts with the magic number and holds at least the sixteen bytes of
    a head; the type is one of the eight the [switch] has a case for,
    never REPLAY; the members are those of that case, in its order; and
    the handler of the socket queues every such message, its test for
    REPLAY never fails. *)
Theorem parseWSJTXMessage_accepts (buffer : list Z) (now : Z) (msg : Relay.Msg) :
  Relay.parseWSJTXMessage buffer now = Some msg →
  (16 ≤ length buffer)%nat
  ∧ Relay.be_uint (take 4 buffer) = Relay.WSJTX_MAGIC
  ∧ In (Relay.msg_type msg)
       [Relay.HEARTBEAT; Relay.STATUS; Relay.DECODE; Relay.CLEAR; Relay.QSO_LOGGED;
        Relay.WSPR_DECODE; Relay.LOGGED_ADIF; Relay.CLOSE]
  ∧ Relay.msg_timestamp msg = now
  ∧ (∃ members, Relay.members_of (Relay.msg_type msg) = Some members
                ∧ map fst (Relay.msg_members msg) = map fst members)
  ∧ ∀ l, Relay.messageQueue (Relay.on_message buffer now l)
         = (Relay.messageQueue l ++ [msg])%list.
Proof.
  intros Hp.
  assert (Hq : ∀ l, Relay.messageQueue (Relay.on_message buffer now l)
                    = (Relay.messageQueue l ++ [msg])%list).
  { intros l. unfold Relay.on_message. rewrite Hp.
    by rewrite (parseWSJTXMessage_not_REPLAY _ _ _ Hp). }
  revert Hp. unfold Relay.parseWSJTXMessage.
  destruct (Relay.readUInt32 buffer 0) as [magic o1] eqn:E0.
  destruct magic as [|m| | | | |]; try done.
  destruct (Z.eqb_spec m Relay.WSJTX_MAGIC) as [-> | _]; [|done]. cbn [negb].
  destruct (readUInt32_number _ _ _ _ E0) as (-> & _ & Hm). cbn [Nat.add] in *.
  destruct (Relay.readUInt32 buffer 4) as [schema o2] eqn:E1.
  destruct (Relay.readUInt32 buffer o2) as [type o3] eqn:E2.
  destruct (Relay.readUtf8 buffer o3) as [id o4] eqn:E3.
  destruct type as [|t| | | | |]; try done. destruct id as [| | |i| | |]; try done.
  destruct (Relay.members_of t) as [members|] eqn:Em; [|done].
  intros [= <-]. cbn [Relay.msg_type Relay.msg_timestamp Relay.msg_members].
  assert (Hlen : (16 ≤ length buffer)%nat).
  { pose proof (readUtf8_string _ _ _ _ E3) as H3.
    destruct (readUInt32_cases buffer 4) as [En | (s & Es & Hs)].
    - rewrite En in E1. injection E1 as <- <-. rewrite En in E2. discriminate.
    - rewrite Es in E1. injection E1 as <- <-.
      destruct (readUInt32_number _ _ _ _ E2) as (-> & H2 & _). lia. }
  split; [done|]. split.
  { rewrite Hm. unfold Relay.bytes_at. by rewrite drop_0. }
  split; [by apply (members_of_types _ _ Em)|]. split; [done|].
  split; [|done]. exists members. split; [done|]. apply read_fields_names.
Qed.

Lemma parseWSJTXMessage_accepts_witness :
  let buffer := (wire_head 2 Relay.CLOSE [0x57; 0x53]%Z ++ [])%list in
  let msg := Relay.mkMsg Relay.CLOSE [0x57; 0x53]%Z (Relay.FNum 2) 1700000000000 [] in
  Relay.messageQueue (Relay.on_message buffer 1700000000000 Relay.local0) = [msg].
Proof.
  intros buffer msg.
  destruct (parseWSJTXMessage_accepts buffer 1700000000000 msg eq_refl)
    as (_ & _ & _ & _ & _ & Hq).
  exact (Hq Relay.local0).
Defined.

(** X27.  A datagram is not refused for being short.  After a head with
    a type the [switch] has a case for, whatever follows, and nothing at
    all, is taken as that message, with the members of its case; when
    nothing follows the head, every member is null. *)
Theorem parseWSJTXMessage_truncated (schema type : Z) (id rest : list Z)
    (members : list (string * Relay.Kind)) (now : Z) :
  (0 ≤ schema < 2 ^ 32)%Z → (Z.of_nat (length id) < 0xffffffff)%Z →
  Relay.members_of type = Some members →
  ∃ values,
    Relay.parseWSJTXMessage (wire_head schema type id ++ rest) now
    = Some (Relay.mkMsg type id (Relay.FNum schema) now values)
    ∧ map fst values = map fst members
    ∧ (rest = [] → Forall (λ nv, all_null (snd nv)) values).
Proof.
  intros Hs Hi Hm.
  assert (Ht : (0 ≤ type < 2 ^ 32)%Z).
  { pose proof (members_of_types _ _ Hm) as Hin. cbn in Hin.
    unfold Relay.HEARTBEAT, Relay.STATUS, Relay.DECODE, Relay.CLEAR, Relay.QSO_LOGGED,
      Relay.WSPR_DECODE, Relay.LOGGED_ADIF, Relay.CLOSE in Hin.
    change (2 ^ 32)%Z with 4294967296%Z. lia. }
  destruct (read_head schema type id rest Hs Ht Hi) as (H0 & H1 & H2 & H3 & Hd).
  set (buffer := (wire_head schema type id ++ rest)%list) in *.
  exists (fst (Relay.read_fields buffer members (16 + length id))).
  split; [|split].
  - unfold Relay.parseWSJTXMessage. rewrite H0.
    change (Relay.WSJTX_MAGIC =? Relay.WSJTX_MAGIC)%Z with true. cbn [negb].
    by rewrite H1, H2, H3, Hm.
  - apply read_fields_names.
  - intros ->. apply read_fields_at_end.
    assert (Hl : length buffer = (16 + length id)%nat).
    { subst buffer. unfold wire_head. rewrite app_nil_r, !length_app, !enc_u32_length. lia. }
    unfold Relay.remaining. lia.
Qed.

Lemma parseWSJTXMessage_truncated_witness :
  ∃ values,
    Relay.parseWSJTXMessage (wire_head 2 Relay.DECODE [0x57; 0x53]%Z ++ [1%Z])%list 0
    = Some (Relay.mkMsg Relay.DECODE [0x57; 0x53]%Z (Relay.FNum 2) 0 values)
    ∧ map fst values
      = ["isNew"; "time"; "snr"; "deltaTime"; "deltaFreq"; "mode"; "message";
         "lowConfidence"; "offAir"].
Proof.
  destruct (parseWSJTXMessage_truncated 2 Relay.DECODE [0x57; 0x53]%Z [1]%Z _ 0
              ltac:(done) ltac:(done) eq_refl) as (values & Hp & Hn & _).
  exists values. split; [exact Hp | exact Hn].
Defined.

(** X28.  What WSJT-X writes is read back.  A datagram made of a head
    with a type the [switch] has a case for, the members of that case
    written one after the other as WSJT-X writes them, and anything after
    them, is parsed into the message with exactly those values: integers,
    booleans, strings and null strings, the hour, minute and second of a
    time of day with its text, and dates with or without an offset. *)
Theorem parseWSJTXMessage_reads_back (schema type : Z) (id payload trailing : list Z)
    (members : list (string * Relay.Kind)) (values : list (string * Relay.Field))
    (now : Z) :
  (0 ≤ schema < 2 ^ 32)%Z → (Z.of_nat (length id) < 0xffffffff)%Z →
  Relay.members_of type = Some members →
  wire_members members values payload →
  Relay.parseWSJTXMessage (wire_head schema type id ++ payload ++ trailing) now
  = Some (Relay.mkMsg type id (Relay.FNum schema) now values).
Proof.
  intros Hs Hi Hm Hw.
  assert (Ht : (0 ≤ type < 2 ^ 32)%Z).
  { pose proof (members_of_types _ _ Hm) as Hin. cbn in Hin.
    unfold Relay.HEARTBEAT, Relay.STATUS, Relay.DECODE, Relay.CLEAR, Relay.QSO_LOGGED,
      Relay.WSPR_DECODE, Relay.LOGGED_ADIF, Relay.CLOSE in Hin.
    change (2 ^ 32)%Z with 4294967296%Z. lia. }
  destruct (read_head schema type id (payload ++ trailing) Hs Ht Hi)
    as (H0 & H1 & H2 & H3 & Hd).
  unfold Relay.parseWSJTXMessage. rewrite H0.
  change (Relay.WSJTX_MAGIC =? Relay.WSJTX_MAGIC)%Z with true. cbn [negb].
  rewrite H1, H2, H3, Hm.
  by rewrite (read_fields_wire _ _ _ Hw _ _ _ Hd).
Qed.

Lemma parseWSJTXMessage_reads_back_witness :
  Relay.parseWSJTXMessage
    (wire_head 2 Relay.DECODE [0x57; 0x53]%Z
       ++ ([1%Z] ++ enc_u32 45296789 ++ enc_u32 ((- 12) mod 2 ^ 32)
             ++ [0x3f; 0xc9; 0x99; 0x99; 0x99; 0x99; 0x99; 0x9a]%Z
             ++ enc_u32 1234 ++ (enc_u32 1 ++ [0x7e%Z])
             ++ (enc_u32 2 ++ [0x43; 0x51]%Z) ++ [0%Z] ++ [0%Z] ++ [])
       ++ [])%list 0
  = Some (Relay.mkMsg Relay.DECODE [0x57; 0x53]%Z (Relay.FNum 2) 0
            [("isNew", Relay.FBool true);
             ("time", Relay.FTime 45296789 12 34 56 "12:34:56");
             ("snr", Relay.FNum (- 12));
             ("deltaTime", Relay.FDouble [0x3f; 0xc9; 0x99; 0x99; 0x99; 0x99; 0x99; 0x9a]%Z);
             ("deltaFreq", Relay.FNum 1234);
             ("mode", Relay.FUtf8 [0x7e]%Z);
             ("message", Relay.FUtf8 [0x43; 0x51]%Z);
             ("lowConfidence", Relay.FBool false);
             ("offAir", Relay.FBool false)]).
Proof.
  apply (parseWSJTXMessage_reads_back 2 Relay.DECODE [0x57; 0x53]%Z _ []
           _ _ 0 ltac:(done) ltac:(done) eq_refl).
  repeat apply wire_members_cons; try apply wire_members_nil.
  - apply (wire_bool true).
  - apply (wire_time 12 34 56 789); lia.
  - apply wire_i32. lia.
  - by apply wire_double.
  - apply wire_u32. lia.
  - by apply (wire_utf8 [0x7e]%Z).
  - by apply (wire_utf8 [0x43; 0x51]%Z).
  - apply (wire_bool false).
  - apply (wire_bool false).
Defined.
